(** * Tracer: span creation and text-map propagation

    A shallow embedding of [pkg/util/tracing/tracer.go]: the propagation
    codec ([Tracer.Inject], [Tracer.Extract]) and the span-start decision
    logic ([Tracer.StartSpan]), with the parts of the Go standard library
    and of opentracing-go they call ([strconv.FormatUint],
    [strconv.ParseUint], [strings.ToLower], [strings.HasPrefix],
    [strings.TrimPrefix], [TextMapCarrier]). *)

From Stdlib Require Import NArith Ascii String List.
From stdpp Require Import base option list gmap strings fin_maps.

Local Open Scope string_scope.

(** ** Go strings

    A Go string is a sequence of bytes: [String.string] over 8-bit
    [ascii]. *)

Module GoStrings.

Definition byteOf (c : ascii) : N := N_of_ascii c.

(** [strings.HasPrefix(s, prefix)]. *)
Definition HasPrefix (s prefix : string) : bool := String.prefix prefix s.

(** [strings.TrimPrefix(s, prefix)]: [s] without the leading [prefix],
    [s] itself when it does not start with [prefix]. *)
Definition TrimPrefix (s prefix : string) : string :=
  if HasPrefix s prefix
  then String.substring (String.length prefix)
                        (String.length s - String.length prefix) s
  else s.

Definition isUpperByte (c : ascii) : bool :=
  ((65 <=? byteOf c) && (byteOf c <=? 90))%N.

Definition lowerByte (c : ascii) : ascii :=
  if isUpperByte c then ascii_of_N (byteOf c + 32) else c.

(** [c < utf8.RuneSelf] for every byte of the string. *)
Fixpoint isASCII (s : string) : bool :=
  match s with
  | EmptyString => true
  | String c s' => (byteOf c <? 128)%N && isASCII s'
  end.

Fixpoint asciiLower (s : string) : string :=
  match s with
  | EmptyString => EmptyString
  | String c s' => String (lowerByte c) (asciiLower s')
  end.

(** [strings.ToLower]: on an ASCII-only string the letters [A]..[Z] are
    shifted to [a]..[z] byte by byte; any other string goes through the
    Unicode case mapping [strings.Map(unicode.ToLower, s)], which stays a
    parameter [unicodeLower] of the model. *)
Definition ToLower (unicodeLower : string → string) (s : string) : string :=
  if isASCII s then asciiLower s else unicodeLower s.

End GoStrings.

(** ** strconv: hexadecimal formatting and parsing of uint64 *)

Module Strconv.
Import GoStrings.

Definition maxUint64 : N := (2 ^ 64 - 1)%N.
Definition wrap64 (n : N) : N := (n mod 2 ^ 64)%N.

Definition digits : string := "0123456789abcdefghijklmnopqrstuvwxyz".

Definition digitChar (d : N) : ascii :=
  match String.get (N.to_nat d) digits with
  | Some c => c
  | None => "0"%char
  end.

(** The power-of-two branch of [formatBits] for base 16:
    [for u >= b { a[i] = digits[u&m]; u >>= shift }; a[i] = digits[u]].
    A uint64 leaves the loop after at most 15 rounds; [fuel] bounds
    them. *)
Fixpoint formatBits (fuel : nat) (u : N) (acc : string) : string :=
  match fuel with
  | O => String (digitChar u) acc
  | S fuel' =>
      if (16 <=? u)%N
      then formatBits fuel' (N.shiftr u 4)
                      (String (digitChar (N.land u 15)) acc)
      else String (digitChar u) acc
  end.

(** [strconv.FormatUint(u, 16)]. *)
Definition FormatUint (u : N) : string := formatBits 16 u "".

Inductive NumError := ErrSyntax | ErrRange.

(** [lower(c)] of strconv: [c | ('x' - 'X')]. *)
Definition lower (c : N) : N := N.lor c 32.

(** The digit a byte stands for, before the check against the base. *)
Definition digitVal (c : ascii) : option N :=
  let b := byteOf c in
  if ((48 <=? b) && (b <=? 57))%N then Some (b - 48)%N
  else if ((97 <=? lower b) && (lower b <=? 122))%N
       then Some (lower b - 97 + 10)%N
       else None.

(** The digit loop of [ParseUint]; [n] is the value read so far. *)
Fixpoint parseLoop (base cutoff maxVal : N) (s : string) (n : N)
  : N * option NumError :=
  match s with
  | EmptyString => (n, None)
  | String c s' =>
      match digitVal c with
      | None => (0%N, Some ErrSyntax)
      | Some d =>
          if (base <=? d)%N then (0%N, Some ErrSyntax)
          else if (cutoff <=? n)%N then (maxVal, Some ErrRange)
          else
            let n' := wrap64 (n * base) in
            let n1 := wrap64 (n' + d) in
            if ((n1 <? n') || (maxVal <? n1))%N
            then (maxVal, Some ErrRange)
            else parseLoop base cutoff maxVal s' n1
      end
  end.

(** [strconv.ParseUint(s, 16, 64)]: the value and the error (if any). *)
Definition ParseUint (s : string) : N * option NumError :=
  match s with
  | EmptyString => (0%N, Some ErrSyntax)
  | _ => parseLoop 16 (maxUint64 / 16 + 1)%N maxUint64 s 0
  end.

End Strconv.

(** ** Data model *)

Module Tracing.
Import GoStrings Strconv.

(** Snowball is set as Baggage on traces which are used for snowball
    tracing. *)
Definition Snowball : string := "sb".

(** maxLogsPerSpan limits the number of logs in a Span. *)
Definition maxLogsPerSpan : N := 1000.

Definition prefixTracerState : string := "ot-tracer-".
Definition prefixBaggage : string := "ot-baggage-".
Definition fieldNameTraceID : string := prefixTracerState ++ "traceid".
Definition fieldNameSpanID : string := prefixTracerState ++ "spanid".
Definition fieldNameSampled : string := prefixTracerState ++ "sampled".

(** The [format] argument of Inject and Extract: the builtin formats of
    opentracing, or any other value. *)
Inductive Format := Binary | TextMap | HTTPHeaders | CustomFormat (tag : nat).

(** The errors returned at the propagation boundary; [ErrBackend] stands
    for whatever the external backend reports. *)
Inductive Error :=
| ErrUnsupportedFormat
| ErrInvalidCarrier
| ErrInvalidSpanContext
| ErrSpanContextCorrupted
| ErrBackend (msg : string).

(** Modelled from the spec: the declaration of [RecordingType] is not in
    tracer.go; section 3 gives [enum {NotRecording, SnowballRecording}],
    the first being the zero value. *)
Inductive RecordingType := NotRecording | SnowballRecording.

(** A [*spanGroup]: the address of a recording group. *)
Definition groupRef := nat.

(** Opaque handles of the external backend: its contexts and spans. *)
Definition lsContext := nat.
Definition lsSpan := nat.

(** Modelled from the spec: the struct [spanContext] is declared outside
    tracer.go; these are the fields tracer.go reads and writes
    ([TraceID], [SpanID], [Baggage], [recordingGroup], [recordingType],
    [lightstep]), section 3 of the spec gives their types. A nil map and
    an empty map are both [∅]. *)
Record spanContext := {
  TraceID : N;
  SpanID : N;
  Baggage : gmap string string;
  recordingGroup : option groupRef;
  recordingType : RecordingType;
  lightstep : option lsContext;
}.

(** A value of interface type [opentracing.SpanContext]: nil, the empty
    struct [noopSpanContext{}], a [*spanContext], or a context of some
    other implementation. *)
Inductive SpanContext :=
| NilCtx
| NoopCtx
| SpanCtx (sc : spanContext)
| ForeignCtx (impl : nat).

(** What the spec calls the trace ID, span ID and baggage of a context;
    the no-op context has none, which section 3 identifies with zero
    IDs. *)
Definition ctxTraceID (c : SpanContext) : N :=
  match c with SpanCtx sc => TraceID sc | _ => 0%N end.
Definition ctxSpanID (c : SpanContext) : N :=
  match c with SpanCtx sc => SpanID sc | _ => 0%N end.
Definition ctxBaggage (c : SpanContext) : gmap string string :=
  match c with SpanCtx sc => Baggage sc | _ => ∅ end.

(** A carrier value. [TextMapCarrier] is opentracing's
    [map[string]string], both a TextMapWriter and a TextMapReader;
    [WriterOnly] is a TextMapWriter that cannot be read back (it keeps
    what was [Set], in order); [ReaderOnly] is a TextMapReader that
    yields [pairs] and has no [Set]; [NotACarrier] implements neither. *)
Inductive Carrier :=
| TextMapCarrier (m : gmap string string)
| WriterOnly (written : list (string * string))
| ReaderOnly (pairs : list (string * string))
| NotACarrier.

(** [carrier.(opentracing.TextMapWriter)] succeeds. *)
Definition isTextMapWriter (c : Carrier) : bool :=
  match c with TextMapCarrier _ | WriterOnly _ => true | _ => false end.

(** [mapWriter.Set(key, val)]. *)
Definition carrierSet (c : Carrier) (key val : string) : Carrier :=
  match c with
  | TextMapCarrier m => TextMapCarrier (<[key := val]> m)
  | WriterOnly w => WriterOnly (w ++ [(key, val)])
  | _ => c
  end.

(** Time stamps; [0] is the zero [time.Time]. *)
Definition Time := N.

Inductive TagValue := TagString (s : string) | TagInt (z : Z) | TagBool (b : bool).

Inductive SpanReferenceType := ChildOfRef | FollowsFromRef | OtherRef (kind : nat).

Record SpanReference := {
  RefType : SpanReferenceType;
  ReferencedContext : SpanContext;
}.

(** What the tracer replays to the external backend. *)
Inductive lsOption :=
| LsStartTime (t : Time)
| LsTags (tags : gmap string TagValue)
| LsReference (ty : SpanReferenceType) (ctx : lsContext).

(** The external backend, at its interface: starting a shadow span (its
    answer may depend on how many it has started before), the context of
    a shadow span, injecting a shadow context (the pairs it [Set]s, in
    order, and the error it returns), and extracting one from a
    carrier. *)
Record Backend := {
  lsStartSpan : nat → string → list lsOption → lsSpan;
  lsSpanContext : lsSpan → lsContext;
  lsInject : lsContext → list (string * string) * option Error;
  lsExtract : Format → Carrier → option lsContext * option Error;
}.

(** The dynamic configuration read on every call: [enableNetTrace.Get()]
    and [getLightstep()]. *)
Record Settings := {
  enableNetTrace : bool;
  getLightstep : option Backend;
}.

(** ** Propagation: Inject and Extract *)

Section Propagation.
(** The Unicode branch of [strings.ToLower]. *)
Variable unicodeLower : string → string.
(** The order in which [for k, v := range m] visits a map. *)
Variable rangeOrder : ∀ V : Type, gmap string V → list (string * V).

Definition supportedFormat (format : Format) : bool :=
  match format with HTTPHeaders | TextMap => true | _ => false end.

(** Inject is part of the opentracing.Tracer interface. The result is
    the carrier after the call and the error returned. *)
Definition Inject (osc : SpanContext) (format : Format) (carrier : Carrier)
  : Carrier * option Error :=
  match osc with
  | NoopCtx => (carrier, None)
  | _ =>
      if negb (supportedFormat format) then (carrier, Some ErrUnsupportedFormat)
      else if negb (isTextMapWriter carrier) then (carrier, Some ErrInvalidCarrier)
      else match osc with
           | SpanCtx sc =>
               let c1 := carrierSet carrier fieldNameTraceID (FormatUint (TraceID sc)) in
               let c2 := carrierSet c1 fieldNameSpanID (FormatUint (SpanID sc)) in
               let c3 := carrierSet c2 fieldNameSampled "true" in
               (foldl (λ c kv, carrierSet c (prefixBaggage ++ kv.1) kv.2) c3
                      (rangeOrder _ (Baggage sc)), None)
           | _ => (carrier, Some ErrInvalidSpanContext)
           end
  end.

(** The map Inject builds for [sc] in an empty text-map carrier. *)
Definition injectedMap (sc : spanContext) : gmap string string :=
  foldl (λ m kv, <[prefixBaggage ++ kv.1 := kv.2]> m)
        (<[fieldNameSampled := "true"]>
           (<[fieldNameSpanID := FormatUint (SpanID sc)]>
              (<[fieldNameTraceID := FormatUint (TraceID sc)]> ∅)))
        (rangeOrder _ (Baggage sc)).

(** [carrier.(opentracing.TextMapReader)]: the pairs [ForeachKey]
    visits, in order, when the carrier is a reader. *)
Definition asTextMapReader (c : Carrier) : option (list (string * string)) :=
  match c with
  | TextMapCarrier m => Some (rangeOrder _ m)
  | ReaderOnly pairs => Some pairs
  | _ => None
  end.

(** [ForeachKey]: the handler runs on each pair in turn and the first
    error ends the iteration. The handler's captured variable is
    passed through. *)
Fixpoint ForeachKey {S : Type} (pairs : list (string * string))
    (handler : string → string → S → S * option Error) (st : S)
  : S * option Error :=
  match pairs with
  | [] => (st, None)
  | (k, v) :: rest =>
      match handler k v st with
      | (st', None) => ForeachKey rest handler st'
      | (st', Some err) => (st', Some err)
      end
  end.

Definition setTraceID (sc : spanContext) (n : N) : spanContext :=
  {| TraceID := n; SpanID := SpanID sc; Baggage := Baggage sc;
     recordingGroup := recordingGroup sc; recordingType := recordingType sc;
     lightstep := lightstep sc |}.
Definition setSpanID (sc : spanContext) (n : N) : spanContext :=
  {| TraceID := TraceID sc; SpanID := n; Baggage := Baggage sc;
     recordingGroup := recordingGroup sc; recordingType := recordingType sc;
     lightstep := lightstep sc |}.
Definition setBaggageItem (sc : spanContext) (k v : string) : spanContext :=
  {| TraceID := TraceID sc; SpanID := SpanID sc; Baggage := <[k := v]> (Baggage sc);
     recordingGroup := recordingGroup sc; recordingType := recordingType sc;
     lightstep := lightstep sc |}.
Definition setLightstep (sc : spanContext) (l : option lsContext) : spanContext :=
  {| TraceID := TraceID sc; SpanID := SpanID sc; Baggage := Baggage sc;
     recordingGroup := recordingGroup sc; recordingType := recordingType sc;
     lightstep := l |}.

(** The zero value of [spanContext] ([var sc spanContext]). *)
Definition zeroSpanContext : spanContext :=
  {| TraceID := 0; SpanID := 0; Baggage := ∅; recordingGroup := None;
     recordingType := NotRecording; lightstep := None |}.

(** The closure Extract hands to [ForeachKey]. *)
Definition extractHandler (k v : string) (sc : spanContext)
  : spanContext * option Error :=
  let k := ToLower unicodeLower k in
  if String.eqb k fieldNameTraceID then
    match ParseUint v with
    | (n, None) => (setTraceID sc n, None)
    | (n, Some _) => (setTraceID sc n, Some ErrSpanContextCorrupted)
    end
  else if String.eqb k fieldNameSpanID then
    match ParseUint v with
    | (n, None) => (setSpanID sc n, None)
    | (n, Some _) => (setSpanID sc n, Some ErrSpanContextCorrupted)
    end
  else if HasPrefix k prefixBaggage then
    (setBaggageItem sc (TrimPrefix k prefixBaggage) v, None)
  else (sc, None).

(** The keys the handler acts on: those that read, in lower case, as
    one of the two ID field names or start with the baggage prefix. *)
Definition recognizedKey (k : string) : bool :=
  let k := ToLower unicodeLower k in
  String.eqb k fieldNameTraceID || String.eqb k fieldNameSpanID
  || HasPrefix k prefixBaggage.

(** The pairs Inject writes for trace ID [T], span ID [S] and baggage
    [B]. *)
Definition injectedPair (T S : N) (B : gmap string string)
    (kv : string * string) : Prop :=
  kv = (fieldNameTraceID, FormatUint T)
  ∨ kv = (fieldNameSpanID, FormatUint S)
  ∨ kv = (fieldNameSampled, "true")
  ∨ ∃ k, kv.1 = prefixBaggage ++ k ∧ B !! k = Some kv.2.

(** Extract is part of the opentracing.Tracer interface. It always
    returns a valid context, even in error cases. *)
Definition Extract (cfg : Settings) (format : Format) (carrier : Carrier)
  : SpanContext * option Error :=
  if negb (supportedFormat format) then (NoopCtx, Some ErrUnsupportedFormat)
  else match asTextMapReader carrier with
       | None => (NoopCtx, Some ErrInvalidCarrier)
       | Some pairs =>
           match ForeachKey pairs extractHandler zeroSpanContext with
           | (_, Some err) => (NoopCtx, Some err)
           | (sc, None) =>
               if ((TraceID sc =? 0) && (SpanID sc =? 0))%N then (NoopCtx, None)
               else match getLightstep cfg with
                    | None => (SpanCtx sc, None)
                    | Some ls =>
                        match lsExtract ls format carrier with
                        | (_, Some err) => (NoopCtx, Some err)
                        | (l, None) => (SpanCtx (setLightstep sc l), None)
                        end
                    end
           end
       end.

(** The reading of a carrier's pairs that the key handling is stated
    with: the value of the last pair whose key satisfies [p], if any. *)
Definition lastValue (p : string → bool) (pairs : list (string * string))
  : option string :=
  foldl (λ acc kv, if p kv.1 then Some kv.2 else acc) None pairs.

(** The number parsed from the value of the last pair whose key reads, in
    lower case, as [name]; zero when no key does. *)
Definition lastID (name : string) (pairs : list (string * string)) : N :=
  match lastValue (λ k, String.eqb (ToLower unicodeLower k) name) pairs with
  | Some v => (ParseUint v).1
  | None => 0%N
  end.

(** The value of the last pair whose key reads, in lower case, as the
    baggage prefix followed by [b]. *)
Definition lastBaggage (b : string) (pairs : list (string * string))
  : option string :=
  lastValue (λ k, String.eqb (ToLower unicodeLower k) (prefixBaggage ++ b)) pairs.

End Propagation.

(** ** Sample inputs *)

(** The configuration with the debug feed off and no external backend. *)
Definition noSinks : Settings :=
  {| enableNetTrace := false; getLightstep := None |}.

(** Go leaves the order of [range] over a map open; the samples are run
    in the order of [map_to_list], and all Unicode case mapping they need
    is ASCII. *)
Definition listOrder : ∀ V : Type, gmap string V → list (string * V) :=
  λ V, map_to_list.
Definition asciiOnly : string → string := λ s, s.

(** The context of the spec's scenario, baggage [{"user": "42"}]. *)
Definition userContext : spanContext :=
  {| TraceID := 1; SpanID := 2; Baggage := {[ "user" := "42" ]};
     recordingGroup := None; recordingType := NotRecording; lightstep := None |}.

(** The same with an upper-case letter in the baggage key. *)
Definition upperCaseContext : spanContext :=
  {| TraceID := 1; SpanID := 2; Baggage := {[ "User" := "42" ]};
     recordingGroup := None; recordingType := NotRecording; lightstep := None |}.

(** A span context with both IDs zero and some baggage. *)
Definition zeroIDsContext : spanContext :=
  {| TraceID := 0; SpanID := 0; Baggage := {[ "user" := "42" ]};
     recordingGroup := None; recordingType := NotRecording; lightstep := None |}.

(** A reader carrier whose baggage key has an upper-case letter. *)
Definition upperCaseCarrier : Carrier :=
  ReaderOnly [("ot-tracer-traceid", "1"); ("ot-tracer-spanid", "2");
              ("ot-baggage-User", "42")].

(** A reader carrier with a trace ID that is not hexadecimal. *)
Definition corruptedCarrier : Carrier :=
  ReaderOnly [("OT-Tracer-TraceID", "xyz"); ("ot-tracer-spanid", "2")].

(** A reader carrier with no key Extract knows. *)
Definition unrelatedCarrier : Carrier :=
  ReaderOnly [("x-request-id", "7"); ("ot-tracer-sampled", "true")].

End Tracing.


(** ** Span creation *)

Module SpanStart.
Import GoStrings Strconv Tracing.

(** A [*Tracer], by its address. The Tracer has one field, the
    preallocated [noopSpan], whose [tracer] field points back to it. *)
Record Tracer := { tracerAddr : nat }.

(** The x/net/trace handle opened for a span. *)
Record NetTrace := {
  ntFamily : string;
  ntTitle : string;
  ntMaxEvents : N;
}.

(** Modelled from the spec: the struct [span] is declared outside
    tracer.go; these are the fields StartSpan fills (section 3 of the spec
    lists them), the fields guarded by [mu] included. *)
Record span := {
  s_tracer : Tracer;
  s_operation : string;
  s_startTime : Time;
  s_duration : Z;
  s_TraceID : N;
  s_SpanID : N;
  s_parentSpanID : N;
  s_Baggage : gmap string string;
  s_tags : gmap string TagValue;
  s_lightstep : option lsSpan;
  s_netTr : option NetTrace;
  s_recordingGroup : option groupRef;
  s_recordingType : RecordingType;
}.

(** A value of interface type [opentracing.Span] as StartSpan returns it:
    [&t.noopSpan], the address of the field of Tracer [t], or a pointer
    to a span allocated by the call. *)
Inductive Span :=
| NoopSpanOf (t : Tracer)
| RealSpan (s : span).

(** Modelled from the spec: [spanGroup] is declared outside tracer.go;
    section 3 gives it an append-only sequence of span snapshots. *)
Definition spanGroup := list span.

(** The options of opentracing-go and this package's [Recordable]. *)
Inductive StartSpanOption :=
| OptSpanReference (r : SpanReference)
| OptStartTime (t : Time)
| OptTags (tags : gmap string TagValue)
| OptTag (key : string) (value : TagValue)
| Recordable.

Definition ChildOf (sc : SpanContext) : StartSpanOption :=
  OptSpanReference {| RefType := ChildOfRef; ReferencedContext := sc |}.
Definition FollowsFrom (sc : SpanContext) : StartSpanOption :=
  OptSpanReference {| RefType := FollowsFromRef; ReferencedContext := sc |}.

(** [opentracing.StartSpanOptions]; [Tags] is nil until a tag option is
    applied. *)
Record StartSpanOptions := {
  References : list SpanReference;
  StartTime : Time;
  Tags : option (gmap string TagValue);
}.

(** [o.Apply(&sso)] for each kind of option; [recordableOption.Apply]
    does nothing. *)
Definition Apply (o : StartSpanOption) (sso : StartSpanOptions) : StartSpanOptions :=
  match o with
  | OptSpanReference r =>
      {| References := References sso ++ [r]; StartTime := StartTime sso;
         Tags := Tags sso |}
  | OptStartTime t =>
      {| References := References sso; StartTime := t; Tags := Tags sso |}
  | OptTags tags =>
      {| References := References sso; StartTime := StartTime sso;
         Tags := Some (tags ∪ default ∅ (Tags sso)) |}
  | OptTag k v =>
      {| References := References sso; StartTime := StartTime sso;
         Tags := Some (<[k := v]> (default ∅ (Tags sso))) |}
  | Recordable => sso
  end.

Definition applyOptions (opts : list StartSpanOption) : StartSpanOptions :=
  foldl (λ sso o, Apply o sso)
        {| References := []; StartTime := 0%N; Tags := None |} opts.

Definition isRecordable (o : StartSpanOption) : bool :=
  match o with Recordable => true | _ => false end.

(** What a call can read and change besides its arguments: the clock,
    the values [rand.Int63] returns (by call number), the heap of
    recording groups ([new(spanGroup)] appends one; its address is its
    index) and the shadow spans started in the external backend. *)
Record World := {
  clock : Time;
  randSource : nat → N;
  randCalls : nat;
  groups : list spanGroup;
  shadowSpans : list (string * list lsOption);
}.

(** A call returns or panics. *)
Inductive Outcome (A : Type) :=
| Returned (a : A)
| Panicked (msg : string).
Arguments Returned {A} a.
Arguments Panicked {A} msg.

(** Computations over the world that may panic. *)
Definition M (A : Type) : Type := World → Outcome (A * World).

#[global] Instance M_ret : MRet M := λ A a w, Returned (a, w).
#[global] Instance M_bind : MBind M := λ A B f m w,
  match m w with
  | Returned (a, w') => f a w'
  | Panicked msg => Panicked msg
  end.

Definition liftOutcome {A} (o : Outcome A) : M A := λ w,
  match o with
  | Returned a => Returned (a, w)
  | Panicked msg => Panicked msg
  end.

(** [panic(msg)]. *)
Definition panic {A} (msg : string) : M A := λ _, Panicked msg.

(** [time.Now()]. *)
Definition timeNow : M Time := λ w, Returned (clock w, w).

(** [uint64(rand.Int63())]. *)
Definition randInt63 : M N := λ w,
  Returned (randSource w (randCalls w),
            {| clock := clock w; randSource := randSource w;
               randCalls := S (randCalls w); groups := groups w;
               shadowSpans := shadowSpans w |}).

(** [new(spanGroup)]. *)
Definition newSpanGroup : M groupRef := λ w,
  Returned (length (groups w),
            {| clock := clock w; randSource := randSource w;
               randCalls := randCalls w; groups := groups w ++ [[]];
               shadowSpans := shadowSpans w |}).

(** [lsTr.StartSpan(operationName, lsOpts...)]. *)
Definition backendStartSpan (ls : Backend) (operationName : string)
    (lsOpts : list lsOption) : M lsSpan := λ w,
  Returned (lsStartSpan ls (length (shadowSpans w)) operationName lsOpts,
            {| clock := clock w; randSource := randSource w;
               randCalls := randCalls w; groups := groups w;
               shadowSpans := shadowSpans w ++ [(operationName, lsOpts)] |}).

(** lightstepExtractIDsCarrier is used as a carrier for
    getLightstepSpanIDs. *)
Record lightstepExtractIDsCarrier := {
  l_traceID : N;
  l_spanID : N;
}.

(** [lightstepExtractIDsCarrier.Set]: keys are compared as they are; a
    value that does not parse panics. *)
Definition idsCarrierSet (l : lightstepExtractIDsCarrier) (key val : string)
  : Outcome lightstepExtractIDsCarrier :=
  if String.eqb key fieldNameTraceID then
    match ParseUint val with
    | (n, None) => Returned {| l_traceID := n; l_spanID := l_spanID l |}
    | (_, Some _) => Panicked "strconv.ParseUint"
    end
  else if String.eqb key fieldNameSpanID then
    match ParseUint val with
    | (n, None) => Returned {| l_traceID := l_traceID l; l_spanID := n |}
    | (_, Some _) => Panicked "strconv.ParseUint"
    end
  else Returned l.

Fixpoint idsCarrierSetAll (l : lightstepExtractIDsCarrier)
    (pairs : list (string * string)) : Outcome lightstepExtractIDsCarrier :=
  match pairs with
  | [] => Returned l
  | (k, v) :: rest =>
      match idsCarrierSet l k v with
      | Returned l' => idsCarrierSetAll l' rest
      | Panicked msg => Panicked msg
      end
  end.

(** getLightstepSpanIDs extracts the TraceID and SpanID from a lightstep
    context. *)
Definition getLightstepSpanIDs (ls : Backend) (spanCtx : lsContext)
  : Outcome (N * N) :=
  let '(pairs, err) := lsInject ls spanCtx in
  match idsCarrierSetAll {| l_traceID := 0; l_spanID := 0 |} pairs with
  | Panicked msg => Panicked msg
  | Returned carrier =>
      match err with
      | Some _ => Panicked "error injecting lightstep context"
      | None =>
          if ((l_traceID carrier =? 0) || (l_spanID carrier =? 0))%N
          then Panicked "lightstep did not inject IDs"
          else Returned (l_traceID carrier, l_spanID carrier)
      end
  end.

(** The fast path of StartSpan: a single option that is a SpanReference
    to a noop context. *)
Definition isNoopReference (opts : list StartSpanOption) : bool :=
  match opts with
  | [OptSpanReference r] =>
      match ReferencedContext r with NoopCtx => true | _ => false end
  | _ => false
  end.

Definition isParentType (ty : SpanReferenceType) : bool :=
  match ty with ChildOfRef | FollowsFromRef => true | OtherRef _ => false end.

(** The loop over [sso.References], up to its [break]: the first
    reference of type ChildOf or FollowsFrom whose context is neither nil
    nor noop is the parent; the type assertion
    of [r.ReferencedContext] to a pointer to spanContext panics on any
    other context. *)
Fixpoint findParent (refs : list SpanReference)
  : Outcome (option (SpanReferenceType * spanContext)) :=
  match refs with
  | [] => Returned None
  | r :: rest =>
      if negb (isParentType (RefType r)) then findParent rest
      else match ReferencedContext r with
           | NilCtx => findParent rest
           | NoopCtx => findParent rest
           | SpanCtx parentCtx => Returned (Some (RefType r, parentCtx))
           | ForeignCtx _ => Panicked "interface conversion"
           end
  end.

(** [parentCtx.Baggage[Snowball] != ""]. *)
Definition hasSnowball (parentCtx : spanContext) : bool :=
  negb (String.eqb (default "" (Baggage parentCtx !! Snowball)) "").

(** The recording decision taken inside the loop, for the parent found:
    the parent's group and type, or a new group when the parent carries
    the Snowball baggage item. *)
Definition inheritRecording (parentCtx : spanContext)
  : M (option groupRef * RecordingType) :=
  match recordingGroup parentCtx with
  | Some g => mret (Some g, recordingType parentCtx)
  | None =>
      if hasSnowball parentCtx
      then g ← newSpanGroup; mret (Some g, SnowballRecording)
      else mret (None, NotRecording)
  end.

Definition isNil {A} (o : option A) : bool :=
  match o with None => true | Some _ => false end.

(** If a lightstep tracer was configured, don't use it if the parent span
    isn't using it. *)
Definition stickyBackend (parent : option (SpanReferenceType * spanContext))
    (lsTr : option Backend) : option Backend :=
  match parent with
  | Some (_, parentCtx) => if isNil (lightstep parentCtx) then None else lsTr
  | None => lsTr
  end.

(** The options replayed to lightstep before the reference is added:
    the start time if one was given, the tags if any were given. *)
Definition replicatedOptions (sso : StartSpanOptions) : list lsOption :=
  ((if (StartTime sso =? 0)%N then [] else [LsStartTime (StartTime sso)])
   ++ match Tags sso with
      | Some tags => [LsTags tags]
      | None => []
      end)%list.

(** The lightstep branch: create the shadow span and take the IDs from
    it. *)
Definition shadowSpan (ls : Backend) (operationName : string)
    (sso : StartSpanOptions) (parent : option (SpanReferenceType * spanContext))
  : M (option lsSpan * N * N) :=
  lsOpts ← match parent with
           | Some (parentType, parentCtx) =>
               match lightstep parentCtx with
               | None => panic "lightstep span derived from non-lightstep span"
               | Some l =>
                   mret (replicatedOptions sso ++ [LsReference parentType l])%list
               end
           | None => mret (replicatedOptions sso)
           end;
  sp ← backendStartSpan ls operationName lsOpts;
  ids ← liftOutcome (getLightstepSpanIDs ls (lsSpanContext ls sp));
  match parent with
  | Some (_, parentCtx) =>
      if negb (ids.1 =? TraceID parentCtx)%N
      then panic "TraceID doesn't match between parent and child spans"
      else mret (Some sp, ids.1, ids.2)
  | None => mret (Some sp, ids.1, ids.2)
  end.

(** The other branch: generate our own IDs. *)
Definition ownIDs (parent : option (SpanReferenceType * spanContext))
  : M (option lsSpan * N * N) :=
  spanID ← randInt63;
  match parent with
  | None => traceID ← randInt63; mret (None, traceID, spanID)
  | Some (_, parentCtx) => mret (None, TraceID parentCtx, spanID)
  end.

(** [&span{tracer: t, operation: operationName, startTime: ...}] with
    [s.mu.duration = -1]; every other field has its zero value. *)
Definition newSpan (t : Tracer) (operationName : string) (startTime : Time) : span :=
  {| s_tracer := t; s_operation := operationName; s_startTime := startTime;
     s_duration := (-1)%Z;
     s_TraceID := 0; s_SpanID := 0; s_parentSpanID := 0;
     s_Baggage := ∅; s_tags := ∅; s_lightstep := None; s_netTr := None;
     s_recordingGroup := None; s_recordingType := NotRecording |}.

(** [s.lightstep = ...; s.TraceID, s.SpanID = ...]. *)
Definition setIDs (s : span) (ids : option lsSpan * N * N) : span :=
  {| s_tracer := s_tracer s; s_operation := s_operation s;
     s_startTime := s_startTime s; s_duration := s_duration s;
     s_TraceID := ids.1.2; s_SpanID := ids.2; s_parentSpanID := s_parentSpanID s;
     s_Baggage := s_Baggage s; s_tags := s_tags s; s_lightstep := ids.1.1;
     s_netTr := s_netTr s;
     s_recordingGroup := s_recordingGroup s; s_recordingType := s_recordingType s |}.

(** Modelled from the spec: the method [span.enableRecording] is declared
    outside tracer.go; by section 4.4 [enableRecording(group, type)] binds
    the span to the group and activates collection. *)
Definition enableRecording (s : span) (group : groupRef) (recType : RecordingType)
  : span :=
  {| s_tracer := s_tracer s; s_operation := s_operation s;
     s_startTime := s_startTime s; s_duration := s_duration s;
     s_TraceID := s_TraceID s; s_SpanID := s_SpanID s;
     s_parentSpanID := s_parentSpanID s;
     s_Baggage := s_Baggage s; s_tags := s_tags s; s_lightstep := s_lightstep s;
     s_netTr := s_netTr s;
     s_recordingGroup := Some group; s_recordingType := recType |}.

(** [s.netTr = trace.New("tracing", operationName)] followed by
    [s.netTr.SetMaxEvents(maxLogsPerSpan)]. *)
Definition openNetTrace (s : span) (operationName : string) : span :=
  {| s_tracer := s_tracer s; s_operation := s_operation s;
     s_startTime := s_startTime s; s_duration := s_duration s;
     s_TraceID := s_TraceID s; s_SpanID := s_SpanID s;
     s_parentSpanID := s_parentSpanID s;
     s_Baggage := s_Baggage s; s_tags := s_tags s; s_lightstep := s_lightstep s;
     s_netTr := Some {| ntFamily := "tracing"; ntTitle := operationName;
                        ntMaxEvents := maxLogsPerSpan |};
     s_recordingGroup := s_recordingGroup s; s_recordingType := s_recordingType s |}.

(** [s.parentSpanID = parentCtx.SpanID] and the copy of the parent's
    baggage, made when the parent has any. *)
Definition linkParent (s : span) (parentCtx : spanContext) : span :=
  {| s_tracer := s_tracer s; s_operation := s_operation s;
     s_startTime := s_startTime s; s_duration := s_duration s;
     s_TraceID := s_TraceID s; s_SpanID := s_SpanID s;
     s_parentSpanID := SpanID parentCtx;
     s_Baggage := if (0 <? size (Baggage parentCtx))%nat
                  then Baggage parentCtx else s_Baggage s;
     s_tags := s_tags s; s_lightstep := s_lightstep s; s_netTr := s_netTr s;
     s_recordingGroup := s_recordingGroup s; s_recordingType := s_recordingType s |}.

(** Modelled from the spec: the method [span.SetTag] is declared outside
    tracer.go; by section 3 a span has [tags: mapping[string -> value]],
    in which [SetTag(k, v)] puts [v] under [k]. *)
Definition SetTag (s : span) (k : string) (v : TagValue) : span :=
  {| s_tracer := s_tracer s; s_operation := s_operation s;
     s_startTime := s_startTime s; s_duration := s_duration s;
     s_TraceID := s_TraceID s; s_SpanID := s_SpanID s;
     s_parentSpanID := s_parentSpanID s;
     s_Baggage := s_Baggage s; s_tags := <[k := v]> (s_tags s);
     s_lightstep := s_lightstep s; s_netTr := s_netTr s;
     s_recordingGroup := s_recordingGroup s; s_recordingType := s_recordingType s |}.

(** [for k, v := range m { s.SetTag(k, v) }]; the keys of a map are
    distinct, so the order of the range does not show. *)
Definition SetTags (s : span) (m : gmap string TagValue) : span :=
  map_fold (λ k v s, SetTag s k v) s m.

(** The part of StartSpan after the IDs are assigned: start recording if
    necessary, open the net trace, link the parent, set the tags given as
    options and, when a sink will show them, the baggage items as tags. *)
Definition decorate (netTrace usesBackend : bool) (operationName : string)
    (sso : StartSpanOptions) (parent : option (SpanReferenceType * spanContext))
    (rec : option groupRef * RecordingType) (s : span) : span :=
  let s := match rec.1 with
           | Some recordingGroup => enableRecording s recordingGroup rec.2
           | None => s
           end in
  let s := if netTrace then openNetTrace s operationName else s in
  let s := match parent with
           | Some (_, parentCtx) => linkParent s parentCtx
           | None => s
           end in
  let s := SetTags s (default ∅ (Tags sso)) in
  if netTrace || usesBackend
  then SetTags s (TagString <$> s_Baggage s)
  else s.

(** StartSpan is part of the opentracing.Tracer interface. *)
Definition StartSpan (cfg : Settings) (t : Tracer) (operationName : string)
    (opts : list StartSpanOption) : M Span :=
  if isNoopReference opts then mret (NoopSpanOf t) else
  let netTrace := enableNetTrace cfg in
  let lsTr := getLightstep cfg in
  if (length opts =? 0)%nat && negb netTrace && isNil lsTr
  then mret (NoopSpanOf t) else
  let sso := applyOptions opts in
  let recordable := existsb isRecordable opts in
  parent ← liftOutcome (findParent (References sso));
  rec ← match parent with
        | Some (_, parentCtx) => inheritRecording parentCtx
        | None => mret (None, NotRecording)
        end;
  let lsTr := stickyBackend parent lsTr in
  if negb recordable && isNil rec.1 && isNil lsTr && negb netTrace
  then mret (NoopSpanOf t) else
  startTime ← (if (StartTime sso =? 0)%N then timeNow else mret (StartTime sso));
  let s := newSpan t operationName startTime in
  ids ← match lsTr with
        | Some ls => shadowSpan ls operationName sso parent
        | None => ownIDs parent
        end;
  mret (RealSpan (decorate netTrace (negb (isNil lsTr)) operationName sso parent rec
                           (setIDs s ids))).

(** ** Sample inputs *)

Definition sampleTracer : Tracer := {| tracerAddr := 1 |}.

Definition sampleWorld : World :=
  {| clock := 100%N; randSource := λ n, N.of_nat (n + 11); randCalls := 0;
     groups := [[]; []; []; []]; shadowSpans := [] |}.

(** A parent context that is being recorded into group 3. *)
Definition recordedParent : spanContext :=
  {| TraceID := 5; SpanID := 7; Baggage := {[ "user" := "42" ]};
     recordingGroup := Some 3; recordingType := SnowballRecording;
     lightstep := None |}.

(** A parent context as Extract returns it, with the Snowball item. *)
Definition snowballParent : spanContext :=
  {| TraceID := 5; SpanID := 7; Baggage := {[ Snowball := "1" ]};
     recordingGroup := None; recordingType := NotRecording; lightstep := None |}.

(** The same with an empty value under the Snowball key. *)
Definition emptySnowballParent : spanContext :=
  {| TraceID := 5; SpanID := 7; Baggage := {[ Snowball := "" ]};
     recordingGroup := None; recordingType := NotRecording; lightstep := None |}.

(** A parent context without recording and without Snowball item. *)
Definition plainParent : spanContext :=
  {| TraceID := 5; SpanID := 7; Baggage := ∅;
     recordingGroup := None; recordingType := NotRecording; lightstep := None |}.

(** A parent context that has a shadow context in the backend. *)
Definition shadowedParent : spanContext :=
  {| TraceID := 5; SpanID := 7; Baggage := ∅;
     recordingGroup := None; recordingType := NotRecording; lightstep := Some 0 |}.

(** A backend that gives every shadow span the trace ID [0xa] and the
    span ID [0xb]. *)
Definition fixedBackend : Backend :=
  {| lsStartSpan := λ n _ _, n;
     lsSpanContext := λ sp, sp;
     lsInject := λ _, ([(fieldNameTraceID, "a"); (fieldNameSpanID, "b")], None);
     lsExtract := λ _ _, (Some 0, None) |}.

Definition backendOnly : Settings :=
  {| enableNetTrace := false; getLightstep := Some fixedBackend |}.

End SpanStart.

(** ** The context helpers *)

Module ContextHelpers.
Import GoStrings Strconv Tracing SpanStart.

(** A [context.Context], as far as the helpers look at it: the span that
    [opentracing.ContextWithSpan] stored in it, if any, and everything
    else it holds.  The spans are the ones of this package. *)
Record Context := {
  activeSpan : option Span;
  otherValues : list (string * string)
}.

(** [opentracing.SpanFromContext]; [None] is the nil span. *)
Definition SpanFromContext (ctx : Context) : option Span := activeSpan ctx.

(** [opentracing.ContextWithSpan]. *)
Definition ContextWithSpan (ctx : Context) (sp : Span) : Context :=
  {| activeSpan := Some sp; otherValues := otherValues ctx |}.

(** Modelled from the spec: [IsNoopSpan] is declared outside tracer.go; by
    section 3 the NoopSpan is the stand-in variant of a span. *)
Definition IsNoopSpan (sp : Span) : bool :=
  match sp with NoopSpanOf _ => true | RealSpan _ => false end.

(** Modelled from the spec: the method [Tracer()] of the two kinds of span
    is declared outside tracer.go; StartSpan stores the tracer in the
    field [tracer] of a span, and by section 3 the NoopSpan of a Tracer is
    bound back to it. *)
Definition spanTracer (sp : Span) : Tracer :=
  match sp with NoopSpanOf t => t | RealSpan s => s_tracer s end.

Section Helpers.

(** The settings that StartSpan reads. *)
Variable cfg : Settings.

(** The method [Context()] of a span is declared outside tracer.go and is
    left open. *)
Variable spanContextOf : Span → SpanContext.

(** The second component is the span returned, [None] for nil. *)
Definition ForkCtxSpan (ctx : Context) (opName : string) : M (Context * option Span) :=
  match SpanFromContext ctx with
  | Some sp =>
      if IsNoopSpan sp then mret (ctx, Some sp) else
      let tr := spanTracer sp in
      child ← StartSpan cfg tr opName [FollowsFrom (spanContextOf sp)];
      mret (ContextWithSpan ctx child, Some child)
  | None => mret (ctx, None)
  end.

Definition ChildSpan (ctx : Context) (opName : string) : M (Context * option Span) :=
  match SpanFromContext ctx with
  | None => mret (ctx, None)
  | Some sp =>
      if IsNoopSpan sp then mret (ctx, Some sp) else
      child ← StartSpan cfg (spanTracer sp) opName [ChildOf (spanContextOf sp)];
      mret (ContextWithSpan ctx child, Some child)
  end.

(** The closure returned is [sp.Finish] or [func() {}]: the second
    component is the span that the closure finishes, [None] for the
    closure that does nothing. *)
Definition EnsureContext (ctx : Context) (tracer : Tracer) (name : string)
  : M (Context * option Span) :=
  match SpanFromContext ctx with
  | None =>
      sp ← StartSpan cfg tracer name [];
      mret (ContextWithSpan ctx sp, Some sp)
  | Some _ => mret (ctx, None)
  end.

End Helpers.

(** ** Sample inputs *)

(** A span of the sample tracer, and a context that holds it. *)
Definition sampleSpan : span :=
  {| s_tracer := sampleTracer; s_operation := "request"; s_startTime := 90%N;
     s_duration := (-1)%Z; s_TraceID := 5; s_SpanID := 7; s_parentSpanID := 0;
     s_Baggage := {[ "user" := "42" ]}; s_tags := ∅; s_lightstep := None;
     s_netTr := None; s_recordingGroup := None; s_recordingType := NotRecording |}.

Definition sampleContext : Context :=
  {| activeSpan := Some (RealSpan sampleSpan); otherValues := [("deadline", "5s")] |}.

Definition emptyContext : Context :=
  {| activeSpan := None; otherValues := [("deadline", "5s")] |}.

(** A [Context()] for the samples: the IDs and the baggage of a span, and
    the no-op context for a no-op span. *)
Definition sampleContextOf (sp : Span) : SpanContext :=
  match sp with
  | NoopSpanOf _ => NoopCtx
  | RealSpan s =>
      SpanCtx {| TraceID := s_TraceID s; SpanID := s_SpanID s;
                 Baggage := s_Baggage s; recordingGroup := None;
                 recordingType := NotRecording; lightstep := None |}
  end.

End ContextHelpers.


(** ** Auxiliary notions for the properties *)

Module TracingAux.
Import GoStrings Strconv Tracing.

(** What the handler keeps true of the context it builds. *)
Definition wireContext (sc : spanContext) : Prop :=
  (TraceID sc < 2 ^ 64)%N ∧ (SpanID sc < 2 ^ 64)%N
  ∧ recordingGroup sc = None ∧ recordingType sc = NotRecording
  ∧ lightstep sc = None.

(** The entries a span context has on the wire: its baggage under the
    prefixed keys, the two IDs in hexadecimal and the sampled marker. *)
Definition wireMap (sc : spanContext) : gmap string string :=
  kmap (String.append prefixBaggage) (Baggage sc)
  ∪ <[fieldNameSampled := "true"]>
      (<[fieldNameSpanID := FormatUint (SpanID sc)]>
         (<[fieldNameTraceID := FormatUint (TraceID sc)]> ∅)).

(** The same as the sequence of [Set] calls Inject makes, the baggage in
    the order [l]. *)
Definition wirePairs (sc : spanContext) (l : list (string * string))
  : list (string * string) :=
  [(fieldNameTraceID, FormatUint (TraceID sc));
   (fieldNameSpanID, FormatUint (SpanID sc));
   (fieldNameSampled, "true")]
  ++ (prod_map (String.append prefixBaggage) id <$> l).

(** A second sample context, with baggage of its own. *)
Definition tenantContext : spanContext :=
  {| TraceID := 9; SpanID := 10; Baggage := {[ "tenant" := "7" ]};
     recordingGroup := None; recordingType := NotRecording; lightstep := None |}.

(** A header canonicalisation for the samples: the trace-ID key with
    capitals, every other key as it is. *)
Definition canonicalKey (k : string) : string :=
  if String.eqb k fieldNameTraceID then "Ot-Tracer-Traceid" else k.

End TracingAux.

Module SpanStartAux.
Import GoStrings Strconv Tracing SpanStart.

(** The stages of StartSpan after the scan of the references, named to
    state what the call does: the recording decision, the assignment of
    the IDs and the start time. *)
Definition recordingStage (parent : option (SpanReferenceType * spanContext))
  : M (option groupRef * RecordingType) :=
  match parent with
  | Some (_, parentCtx) => inheritRecording parentCtx
  | None => mret (None, NotRecording)
  end.

Definition idsStage (lsTr : option Backend) (operationName : string)
    (sso : StartSpanOptions) (parent : option (SpanReferenceType * spanContext))
  : M (option lsSpan * N * N) :=
  match lsTr with
  | Some ls => shadowSpan ls operationName sso parent
  | None => ownIDs parent
  end.

Definition startTimeOf (sso : StartSpanOptions) (w : World) : Time :=
  if (StartTime sso =? 0)%N then clock w else StartTime sso.

(** A span with the tags [m] set over its own. *)
Definition withTags (s : span) (m : gmap string TagValue) : span :=
  {| s_tracer := s_tracer s; s_operation := s_operation s;
     s_startTime := s_startTime s; s_duration := s_duration s;
     s_TraceID := s_TraceID s; s_SpanID := s_SpanID s;
     s_parentSpanID := s_parentSpanID s;
     s_Baggage := s_Baggage s; s_tags := m ∪ s_tags s;
     s_lightstep := s_lightstep s; s_netTr := s_netTr s;
     s_recordingGroup := s_recordingGroup s; s_recordingType := s_recordingType s |}.

(** A reference, an option and the collected options with every ChildOf
    reference turned into a FollowsFrom one. *)
Definition retypeKind (ty : SpanReferenceType) : SpanReferenceType :=
  match ty with ChildOfRef => FollowsFromRef | _ => ty end.

Definition retypeRef (r : SpanReference) : SpanReference :=
  {| RefType := retypeKind (RefType r); ReferencedContext := ReferencedContext r |}.

Definition asFollowsFrom (o : StartSpanOption) : StartSpanOption :=
  match o with
  | OptSpanReference r => OptSpanReference (retypeRef r)
  | _ => o
  end.

Definition retypeOptions (sso : StartSpanOptions) : StartSpanOptions :=
  {| References := retypeRef <$> References sso; StartTime := StartTime sso;
     Tags := Tags sso |}.

Definition retypeParent (parent : option (SpanReferenceType * spanContext))
  : option (SpanReferenceType * spanContext) :=
  match parent with
  | Some (ty, P) => Some (retypeKind ty, P)
  | None => None
  end.

(** Both IDs in the carrier fit in 64 bits. *)
Definition idsInRange (l : lightstepExtractIDsCarrier) : Prop :=
  (l_traceID l < 2 ^ 64)%N ∧ (l_spanID l < 2 ^ 64)%N.

(** Settings with the debug feed on and no backend. *)
Definition feedOnly : Settings :=
  {| enableNetTrace := true; getLightstep := None |}.

(** A backend that writes its keys with capitals. *)
Definition upperCaseBackend : Backend :=
  {| lsStartSpan := λ n _ _, n;
     lsSpanContext := λ sp, sp;
     lsInject := λ _, ([("Ot-Tracer-Traceid", "a"); ("Ot-Tracer-Spanid", "b")], None);
     lsExtract := λ _ _, (Some 0, None) |}.

End SpanStartAux.

(** * Properties *)

(** ** Hexadecimal round trip *)

Module StrconvFacts.
Import GoStrings Strconv.

Lemma cutoff16 : (maxUint64 / 16 + 1 = 2 ^ 60)%N.
Proof. reflexivity. Qed.

Lemma digitVal_digitChar (d : N) :
  (d < 16)%N → digitVal (digitChar d) = Some d.
Proof.
  intros Hd.
  destruct d as [|p]; [reflexivity|].
  do 4 (destruct p as [p|p|]; try reflexivity); exfalso; lia.
Qed.

Lemma formatBits_cons (fuel : nat) (u : N) (acc : string) :
  ∃ c s, formatBits fuel u acc = String c s.
Proof.
  revert u acc. induction fuel as [|fuel IH]; intros u acc; simpl.
  - eauto.
  - destruct (16 <=? u)%N; eauto.
Qed.

Lemma parseLoop_digit (d n : N) (s : string) :
  (d < 16)%N → (n * 16 + d < 2 ^ 64)%N →
  parseLoop 16 (maxUint64 / 16 + 1) maxUint64 (String (digitChar d) s) n
  = parseLoop 16 (maxUint64 / 16 + 1) maxUint64 s (n * 16 + d).
Proof.
  intros Hd Hn. cbn [parseLoop]. rewrite digitVal_digitChar by done.
  rewrite cutoff16.
  assert (Hmax : maxUint64 = (2 ^ 64 - 1)%N) by reflexivity.
  assert (H64 : (2 ^ 64 = 16 * 2 ^ 60)%N) by reflexivity.
  destruct (N.leb_spec 16 d); [lia|].
  destruct (N.leb_spec (2 ^ 60) n); [lia|].
  unfold wrap64. rewrite (N.mod_small (n * 16)) by lia.
  rewrite (N.mod_small (n * 16 + d)) by lia.
  destruct (N.ltb_spec (n * 16 + d) (n * 16)); [lia|].
  destruct (N.ltb_spec maxUint64 (n * 16 + d)); [lia|].
  reflexivity.
Qed.

Lemma parseLoop_formatBits (fuel : nat) (u : N) (acc : string) :
  (u < 2 ^ 64)%N → (u < 16 ^ N.of_nat (S fuel))%N →
  parseLoop 16 (maxUint64 / 16 + 1) maxUint64 (formatBits fuel u acc) 0
  = parseLoop 16 (maxUint64 / 16 + 1) maxUint64 acc u.
Proof.
  revert u acc. induction fuel as [|fuel IH]; intros u acc H64 Hfuel.
  - simpl formatBits. change (16 ^ N.of_nat 1)%N with 16%N in Hfuel.
    rewrite parseLoop_digit by lia. f_equal.
  - simpl formatBits. destruct (N.leb_spec 16 u) as [Hge|Hlt].
    + rewrite N.shiftr_div_pow2. change (2 ^ 4)%N with 16%N.
      change 15%N with (N.ones 4). rewrite N.land_ones. change (2 ^ 4)%N with 16%N.
      assert (Hdm := N.div_mod u 16 ltac:(lia)).
      assert (Hm := N.mod_lt u 16 ltac:(lia)).
      rewrite IH.
      * rewrite parseLoop_digit by lia. f_equal. lia.
      * apply N.Div0.div_lt_upper_bound. lia.
      * apply N.Div0.div_lt_upper_bound.
        rewrite <- N.pow_succ_r'. rewrite <- Nnat.Nat2N.inj_succ. exact Hfuel.
    + rewrite parseLoop_digit by lia. f_equal.
Qed.

Lemma ParseUint_FormatUint (u : N) :
  (u < 2 ^ 64)%N → ParseUint (FormatUint u) = (u, None).
Proof.
  intros Hu. unfold FormatUint, ParseUint.
  destruct (formatBits_cons 16 u "") as (c & s & Hs).
  rewrite Hs, <- Hs. rewrite parseLoop_formatBits; [reflexivity|done|].
  change (16 ^ N.of_nat 17)%N with (2 ^ 68)%N.
  eapply N.lt_trans; [exact Hu|]. reflexivity.
Qed.

End StrconvFacts.

(** ** Propagation *)

Module PropagationFacts.
Import GoStrings Strconv Tracing StrconvFacts.

Lemma substring_all (s : string) : String.substring 0 (String.length s) s = s.
Proof. induction s as [|c s IH]; simpl; [done|]. by rewrite IH. Qed.

Lemma HasPrefix_baggage (k : string) :
  HasPrefix (prefixBaggage ++ k) prefixBaggage = true.
Proof. unfold HasPrefix, prefixBaggage. cbv [String.append]. simpl. by destruct k. Qed.

Lemma TrimPrefix_baggage (k : string) :
  TrimPrefix (prefixBaggage ++ k) prefixBaggage = k.
Proof.
  unfold TrimPrefix. rewrite HasPrefix_baggage.
  unfold prefixBaggage. cbv [String.append]. simpl.
  rewrite Nat.sub_0_r. apply substring_all.
Qed.

Lemma baggage_key_inj (k1 k2 : string) :
  prefixBaggage ++ k1 = prefixBaggage ++ k2 → k1 = k2.
Proof.
  unfold prefixBaggage. cbv [String.append]. congruence.
Qed.

Lemma baggage_key_not_state (k : string) :
  prefixBaggage ++ k ≠ fieldNameTraceID
  ∧ prefixBaggage ++ k ≠ fieldNameSpanID
  ∧ prefixBaggage ++ k ≠ fieldNameSampled.
Proof.
  unfold prefixBaggage, fieldNameTraceID, fieldNameSpanID, fieldNameSampled,
    prefixTracerState.
  cbv [String.append]. repeat split; congruence.
Qed.

Lemma asciiLower_app (s1 s2 : string) :
  asciiLower (s1 ++ s2) = asciiLower s1 ++ asciiLower s2.
Proof. induction s1 as [|c s1 IH]; simpl; [done|]. by rewrite IH. Qed.

Lemma isASCII_app (s1 s2 : string) :
  isASCII (s1 ++ s2) = isASCII s1 && isASCII s2.
Proof.
  induction s1 as [|c s1 IH]; simpl; [done|].
  rewrite IH. by rewrite andb_assoc.
Qed.

(** A baggage key made of ASCII bytes none of which is an upper-case
    letter travels unchanged: its wire key is a fixed point of
    [ToLower]. *)
Lemma ToLower_baggage_key (unicodeLower : string → string) (k : string) :
  isASCII k = true → asciiLower k = k →
  ToLower unicodeLower (prefixBaggage ++ k) = prefixBaggage ++ k.
Proof.
  intros Ha Hl. unfold ToLower.
  rewrite isASCII_app, Ha. cbn [andb].
  change (isASCII prefixBaggage) with true. cbn match.
  rewrite asciiLower_app, Hl. reflexivity.
Qed.

Section Facts.
Variable unicodeLower : string → string.
Variable rangeOrder : ∀ V : Type, gmap string V → list (string * V).

Local Abbreviation handler := (extractHandler unicodeLower).

(** The handler's three kinds of keys. *)
Lemma handler_traceID (k v : string) (sc : spanContext) :
  ToLower unicodeLower k = fieldNameTraceID →
  handler k v sc =
    (setTraceID sc (ParseUint v).1,
     match (ParseUint v).2 with None => None | Some _ => Some ErrSpanContextCorrupted end).
Proof.
  intros Hk. unfold extractHandler. rewrite Hk. cbn [String.eqb].
  change (fieldNameTraceID =? fieldNameTraceID)%string with true. cbn match.
  by destruct (ParseUint v) as [n [e|]].
Qed.

Lemma handler_spanID (k v : string) (sc : spanContext) :
  ToLower unicodeLower k = fieldNameSpanID →
  handler k v sc =
    (setSpanID sc (ParseUint v).1,
     match (ParseUint v).2 with None => None | Some _ => Some ErrSpanContextCorrupted end).
Proof.
  intros Hk. unfold extractHandler. rewrite Hk.
  change (fieldNameSpanID =? fieldNameTraceID)%string with false.
  change (fieldNameSpanID =? fieldNameSpanID)%string with true. cbn match.
  by destruct (ParseUint v) as [n [e|]].
Qed.

Lemma handler_baggage (k v : string) (sc : spanContext) :
  ToLower unicodeLower k ≠ fieldNameTraceID →
  ToLower unicodeLower k ≠ fieldNameSpanID →
  HasPrefix (ToLower unicodeLower k) prefixBaggage = true →
  handler k v sc =
    (setBaggageItem sc (TrimPrefix (ToLower unicodeLower k) prefixBaggage) v, None).
Proof.
  intros H1 H2 H3. unfold extractHandler.
  apply String.eqb_neq in H1, H2. by rewrite H1, H2, H3.
Qed.

Lemma handler_ignored (k v : string) (sc : spanContext) :
  recognizedKey unicodeLower k = false → handler k v sc = (sc, None).
Proof.
  unfold recognizedKey, extractHandler. intros H.
  apply orb_false_iff in H as [H H3]. apply orb_false_iff in H as [H1 H2].
  by rewrite H1, H2, H3.
Qed.

Lemma handler_error (k v : string) (sc sc' : spanContext) (err : Error) :
  handler k v sc = (sc', Some err) → err = ErrSpanContextCorrupted.
Proof.
  unfold extractHandler.
  repeat case_match; intros; simplify_eq; done.
Qed.


Lemma ToLower_fieldNames :
  ToLower unicodeLower fieldNameTraceID = fieldNameTraceID
  ∧ ToLower unicodeLower fieldNameSpanID = fieldNameSpanID
  ∧ recognizedKey unicodeLower fieldNameSampled = false.
Proof. repeat split; reflexivity. Qed.

(** [ForeachKey] with the handler of Extract. *)
Lemma ForeachKey_error (l : list (string * string)) (sc sc' : spanContext) (err : Error) :
  ForeachKey l handler sc = (sc', Some err) → err = ErrSpanContextCorrupted.
Proof.
  revert sc. induction l as [|[k v] l IH]; intros sc; simpl; [done|].
  destruct (handler k v sc) as [sc1 [e|]] eqn:Hh.
  - intros [= <- <-]. by eapply handler_error.
  - apply IH.
Qed.

Lemma ForeachKey_corrupted (l : list (string * string)) (sc : spanContext) (k v : string) :
  (k, v) ∈ l →
  ToLower unicodeLower k = fieldNameTraceID ∨ ToLower unicodeLower k = fieldNameSpanID →
  (ParseUint v).2 ≠ None →
  (ForeachKey l handler sc).2 = Some ErrSpanContextCorrupted.
Proof.
  intros Hin Hk Hv. revert sc.
  induction l as [|[k' v'] l IH]; intros sc; [by apply elem_of_nil in Hin|].
  simpl. destruct (handler k' v' sc) as [sc1 [e|]] eqn:Hh.
  - simpl. f_equal. by eapply handler_error.
  - apply elem_of_cons in Hin as [[= <- <-]|Hin]; [|by apply IH].
    exfalso. destruct Hk as [Hk|Hk];
      [rewrite (handler_traceID _ _ _ Hk) in Hh
      |rewrite (handler_spanID _ _ _ Hk) in Hh];
      destruct (ParseUint v) as [n [e|]]; simplify_eq; done.
Qed.

Lemma ForeachKey_unrecognized (l : list (string * string)) (sc : spanContext) :
  (∀ k v, (k, v) ∈ l → recognizedKey unicodeLower k = false) →
  ForeachKey l handler sc = (sc, None).
Proof.
  induction l as [|[k v] l IH]; intros Hl; simpl; [done|].
  rewrite handler_ignored by (eapply Hl; left).
  apply IH. intros k' v' Hin. eapply Hl. by right.
Qed.

Lemma ForeachKey_filter (l : list (string * string)) (sc : spanContext) :
  ForeachKey (filter (λ kv, recognizedKey unicodeLower kv.1 = true) l) handler sc
  = ForeachKey l handler sc.
Proof.
  revert sc. induction l as [|[k v] l IH]; intros sc; [done|].
  destruct (recognizedKey unicodeLower k) eqn:Hr.
  - rewrite filter_cons_True by done. simpl.
    destruct (handler k v sc) as [sc1 [e|]]; [done|apply IH].
  - rewrite filter_cons_False by (simpl; congruence). simpl.
    rewrite handler_ignored by done. apply IH.
Qed.

Lemma ForeachKey_recase (f : string → string) (l : list (string * string))
    (sc : spanContext) :
  Forall (λ kv, ToLower unicodeLower (f kv.1) = ToLower unicodeLower kv.1) l →
  ForeachKey (prod_map f id <$> l) handler sc = ForeachKey l handler sc.
Proof.
  intros Hl. revert sc. induction Hl as [|[k v] l Hk _ IH]; intros sc; [done|].
  simpl in *.
  assert (handler (f k) v sc = handler k v sc) as ->
    by (unfold extractHandler; by rewrite Hk).
  destruct (handler k v sc) as [sc1 [e|]]; [done|apply IH].
Qed.

Lemma if_elem_cons_ne {A B} `{EqDecision A} (x y : A) (l : list A) (a b : B) :
  x ≠ y →
  (if decide (x ∈ y :: l) then a else b) = (if decide (x ∈ l) then a else b).
Proof.
  intros Hne. destruct (decide (x ∈ l)) as [Hin|Hin].
  - rewrite decide_True; [done|by right].
  - rewrite decide_False; [done|]. intros [?|?]%elem_of_cons; done.
Qed.

Lemma if_elem_cons_eq {A B} `{EqDecision A} (x : A) (l : list A) (a b : B) :
  (if decide (x ∈ x :: l) then a else b) = a.
Proof. rewrite decide_True; [done|by left]. Qed.

(** Reading back pairs that Inject wrote: every pair is accepted, the IDs
    are those written and the baggage is read from the prefixed keys. *)
Lemma ForeachKey_injected (T S : N) (B : gmap string string)
    (l : list (string * string)) (sc : spanContext) :
  (T < 2 ^ 64)%N → (S < 2 ^ 64)%N →
  (∀ k, is_Some (B !! k) →
        ToLower unicodeLower (prefixBaggage ++ k) = prefixBaggage ++ k) →
  Forall (injectedPair T S B) l →
  ∃ sc', ForeachKey l handler sc = (sc', None)
    ∧ TraceID sc' = (if decide (fieldNameTraceID ∈ l.*1) then T else TraceID sc)
    ∧ SpanID sc' = (if decide (fieldNameSpanID ∈ l.*1) then S else SpanID sc)
    ∧ ∀ k, Baggage sc' !! k =
           if decide (prefixBaggage ++ k ∈ l.*1) then B !! k else Baggage sc !! k.
Proof.
  intros HT HS Hlow Hl. revert sc.
  induction Hl as [|[key val] l Hkv _ IH]; intros sc.
  { exists sc. simpl. repeat split; try done. }
  destruct ToLower_fieldNames as (Ht & Hs & Hsampled).
  rewrite fmap_cons. cbn [fst ForeachKey].
  destruct Hkv as [[= -> ->]|[[= -> ->]|[[= -> ->]|(k0 & Hkey & HB)]]].
  - rewrite (handler_traceID _ _ _ Ht), ParseUint_FormatUint by done. simpl.
    destruct (IH (setTraceID sc T)) as (sc' & -> & H1 & H2 & H3).
    exists sc'. split; [done|]. rewrite ?if_elem_cons_eq.
    rewrite if_elem_cons_ne by done. repeat split.
    + rewrite H1. by destruct (decide (fieldNameTraceID ∈ l.*1)).
    + done.
    + intros k. rewrite if_elem_cons_ne; [apply H3|].
      apply baggage_key_not_state.
  - rewrite (handler_spanID _ _ _ Hs), ParseUint_FormatUint by done. simpl.
    destruct (IH (setSpanID sc S)) as (sc' & -> & H1 & H2 & H3).
    exists sc'. split; [done|]. rewrite ?if_elem_cons_eq.
    rewrite if_elem_cons_ne by done. repeat split.
    + done.
    + rewrite H2. by destruct (decide (fieldNameSpanID ∈ l.*1)).
    + intros k. rewrite if_elem_cons_ne; [apply H3|].
      apply baggage_key_not_state.
  - rewrite handler_ignored by done.
    destruct (IH sc) as (sc' & -> & H1 & H2 & H3).
    exists sc'. split; [done|].
    rewrite !if_elem_cons_ne by done. repeat split; try done.
    intros k. rewrite if_elem_cons_ne; [apply H3|].
    apply baggage_key_not_state.
  - simpl in Hkey, HB. subst key.
    destruct (baggage_key_not_state k0) as (N1 & N2 & N3).
    rewrite handler_baggage; rewrite ?Hlow by eauto;
      try done; [|apply HasPrefix_baggage].
    rewrite TrimPrefix_baggage.
    destruct (IH (setBaggageItem sc k0 val)) as (sc' & -> & H1 & H2 & H3).
    exists sc'. split; [done|].
    rewrite !if_elem_cons_ne by done. repeat split; try done.
    intros k. rewrite H3. simpl. destruct (decide (k = k0)) as [->|Hne].
    + rewrite if_elem_cons_eq, lookup_insert_eq, HB.
      by destruct (decide (prefixBaggage ++ k0 ∈ l.*1)).
    + rewrite lookup_insert_ne by done.
      rewrite (if_elem_cons_ne (prefixBaggage ++ k)); [done|].
      intros Heq. by apply baggage_key_inj in Heq.
Qed.


(** What Inject leaves in a text-map carrier. *)
Lemma Inject_fold_TextMap (m0 : gmap string string) (l : list (string * string)) :
  foldl (λ c kv, carrierSet c (prefixBaggage ++ kv.1) kv.2) (TextMapCarrier m0) l
  = TextMapCarrier (foldl (λ m kv, <[prefixBaggage ++ kv.1 := kv.2]> m) m0 l).
Proof. revert m0. induction l as [|kv l IH]; intros m0; simpl; [done|apply IH]. Qed.

Lemma baggage_fold_Some (l : list (string * string)) (m0 : gmap string string)
    (key val : string) :
  foldl (λ m kv, <[prefixBaggage ++ kv.1 := kv.2]> m) m0 l !! key = Some val →
  (∃ k, key = prefixBaggage ++ k ∧ (k, val) ∈ l) ∨ m0 !! key = Some val.
Proof.
  revert m0. induction l as [|[k v] l IH]; intros m0; simpl; [by right|].
  intros [(k' & -> & Hin)|Hm]%IH.
  - left. exists k'. split; [done|by right].
  - apply lookup_insert_Some in Hm as [[<- <-]|[_ Hm]]; [|by right].
    left. exists k. split; [done|by left].
Qed.

Lemma baggage_fold_keep (l : list (string * string)) (m0 : gmap string string)
    (key : string) :
  is_Some (m0 !! key) →
  is_Some (foldl (λ m kv, <[prefixBaggage ++ kv.1 := kv.2]> m) m0 l !! key).
Proof.
  revert m0. induction l as [|[k v] l IH]; intros m0 Hm; simpl; [done|].
  apply IH. rewrite lookup_insert_is_Some. destruct (decide (prefixBaggage ++ k = key)); auto.
Qed.

Lemma baggage_fold_elem (l : list (string * string)) (m0 : gmap string string)
    (k v : string) :
  (k, v) ∈ l →
  is_Some (foldl (λ m kv, <[prefixBaggage ++ kv.1 := kv.2]> m) m0 l
           !! (prefixBaggage ++ k)).
Proof.
  revert m0. induction l as [|[k' v'] l IH]; intros m0 Hin; [by apply elem_of_nil in Hin|].
  simpl. apply elem_of_cons in Hin as [[= <- <-]|Hin]; [|by apply IH].
  apply baggage_fold_keep. rewrite lookup_insert_eq. eauto.
Qed.

Lemma HasPrefix_TrimPrefix (p s : string) :
  HasPrefix s p = true → s = p ++ TrimPrefix s p.
Proof.
  intros H. unfold TrimPrefix. rewrite H. unfold HasPrefix in H.
  revert s H. induction p as [|c p IH]; intros s H.
  - simpl. by rewrite Nat.sub_0_r, substring_all.
  - destruct s as [|c' s]; [done|]. simpl in H.
    destruct (ascii_dec c c') as [<-|]; [|done].
    rewrite (IH s H) at 1. reflexivity.
Qed.

(** One call of the handler that returns no error, read field by field. *)
Lemma handler_reads (k v : string) (sc sc' : spanContext) :
  handler k v sc = (sc', None) →
  TraceID sc' = (if String.eqb (ToLower unicodeLower k) fieldNameTraceID
                 then (ParseUint v).1 else TraceID sc)
  ∧ SpanID sc' = (if String.eqb (ToLower unicodeLower k) fieldNameSpanID
                  then (ParseUint v).1 else SpanID sc)
  ∧ ∀ b, Baggage sc' !! b
         = (if String.eqb (ToLower unicodeLower k) (prefixBaggage ++ b)
            then Some v else Baggage sc !! b).
Proof.
  intros Hh.
  assert (Hnb : ∀ b, String.eqb fieldNameTraceID (prefixBaggage ++ b) = false
                     ∧ String.eqb fieldNameSpanID (prefixBaggage ++ b) = false).
  { intros b. destruct (baggage_key_not_state b) as (H1 & H2 & _).
    split; apply String.eqb_neq; congruence. }
  destruct (String.eqb_spec (ToLower unicodeLower k) fieldNameTraceID) as [Hk|Hk1].
  { rewrite (handler_traceID _ _ _ Hk) in Hh. injection Hh as <- _.
    rewrite Hk. split; [done|]. split; [done|]. intros b. by rewrite (proj1 (Hnb b)). }
  destruct (String.eqb_spec (ToLower unicodeLower k) fieldNameSpanID) as [Hk|Hk2].
  { rewrite (handler_spanID _ _ _ Hk) in Hh. injection Hh as <- _.
    rewrite Hk. split; [done|]. split; [done|]. intros b. by rewrite (proj2 (Hnb b)). }
  destruct (HasPrefix (ToLower unicodeLower k) prefixBaggage) eqn:Hp.
  - rewrite (handler_baggage _ _ _ Hk1 Hk2 Hp) in Hh. injection Hh as <-.
    split; [done|]. split; [done|]. intros b. simpl.
    destruct (String.eqb_spec (ToLower unicodeLower k) (prefixBaggage ++ b)) as [Hb|Hb].
    + rewrite Hb, TrimPrefix_baggage. apply lookup_insert_eq.
    + apply lookup_insert_ne. intros <-. apply Hb. by apply HasPrefix_TrimPrefix.
  - rewrite handler_ignored in Hh.
    2:{ unfold recognizedKey. apply String.eqb_neq in Hk1, Hk2. by rewrite Hk1, Hk2, Hp. }
    injection Hh as <-. split; [done|]. split; [done|]. intros b.
    destruct (String.eqb_spec (ToLower unicodeLower k) (prefixBaggage ++ b)) as [Hb|Hb];
      [|done].
    by rewrite Hb, HasPrefix_baggage in Hp.
Qed.

(** The iteration returns no error when every ID value parses. *)
Lemma ForeachKey_parses (l : list (string * string)) (sc : spanContext) :
  (∀ k v, (k, v) ∈ l →
     ToLower unicodeLower k = fieldNameTraceID ∨ ToLower unicodeLower k = fieldNameSpanID →
     (ParseUint v).2 = None) →
  (ForeachKey l handler sc).2 = None.
Proof.
  revert sc. induction l as [|[k v] l IH]; intros sc Hl; [done|]. simpl.
  destruct (handler k v sc) as [sc1 [e|]] eqn:Hh.
  - exfalso. unfold extractHandler in Hh.
    destruct (String.eqb_spec (ToLower unicodeLower k) fieldNameTraceID) as [Hk|_].
    { rewrite (surjective_pairing (ParseUint v)),
        (Hl k v ltac:(left) (or_introl Hk)) in Hh. done. }
    destruct (String.eqb_spec (ToLower unicodeLower k) fieldNameSpanID) as [Hk|_].
    { rewrite (surjective_pairing (ParseUint v)),
        (Hl k v ltac:(left) (or_intror Hk)) in Hh. done. }
    by destruct (HasPrefix _ _).
  - apply IH. intros k' v' Hin. apply Hl. by right.
Qed.

(** The context the iteration builds, read from the pairs. *)
Lemma ForeachKey_reads (l : list (string * string)) (sc sc' : spanContext)
    (tv sv : option string) (bv : string → option string) :
  ForeachKey l handler sc = (sc', None) →
  TraceID sc = match tv with Some v => (ParseUint v).1 | None => 0%N end →
  SpanID sc = match sv with Some v => (ParseUint v).1 | None => 0%N end →
  (∀ b, Baggage sc !! b = bv b) →
  TraceID sc'
  = match foldl (λ acc kv, if String.eqb (ToLower unicodeLower kv.1) fieldNameTraceID
                           then Some kv.2 else acc) tv l with
    | Some v => (ParseUint v).1 | None => 0%N end
  ∧ SpanID sc'
    = match foldl (λ acc kv, if String.eqb (ToLower unicodeLower kv.1) fieldNameSpanID
                             then Some kv.2 else acc) sv l with
      | Some v => (ParseUint v).1 | None => 0%N end
  ∧ ∀ b, Baggage sc' !! b
         = foldl (λ acc kv, if String.eqb (ToLower unicodeLower kv.1) (prefixBaggage ++ b)
                            then Some kv.2 else acc) (bv b) l.
Proof.
  revert sc tv sv bv. induction l as [|[k v] l IH]; intros sc tv sv bv; simpl.
  - intros [= <-]. done.
  - destruct (handler k v sc) as [sc1 [e|]] eqn:Hh; [done|].
    destruct (handler_reads _ _ _ _ Hh) as (HT & HS & HB).
    intros Hl Ht Hs Hb.
    apply (IH sc1 _ _
             (λ b, if String.eqb (ToLower unicodeLower k) (prefixBaggage ++ b)
                   then Some v else bv b) Hl).
    + rewrite HT. by destruct (String.eqb (ToLower unicodeLower k) fieldNameTraceID).
    + rewrite HS. by destruct (String.eqb (ToLower unicodeLower k) fieldNameSpanID).
    + intros b. rewrite HB, Hb. done.
Qed.

(** A pair whose key satisfies [p] gives [lastValue] a value. *)
Lemma lastValue_keep (p : string → bool) (l : list (string * string))
    (acc : option string) :
  is_Some acc → is_Some (foldl (λ acc kv, if p kv.1 then Some kv.2 else acc) acc l).
Proof.
  revert acc. induction l as [|[k v] l IH]; intros acc Hacc; simpl; [done|].
  apply IH. destruct (p k); eauto.
Qed.

Lemma lastValue_elem (p : string → bool) (l : list (string * string)) (k v : string) :
  (k, v) ∈ l → p k = true → is_Some (lastValue p l).
Proof.
  intros Hin Hp. unfold lastValue. generalize (@None string).
  induction l as [|[k' v'] l IH]; intros acc; [by apply elem_of_nil in Hin|].
  simpl. apply elem_of_cons in Hin as [[= <- <-]|Hin]; [|by apply IH].
  apply lastValue_keep. rewrite Hp. eauto.
Qed.

(** C2 (amended). For every readable carrier under a supported format,
    with [pairs] the pairs it yields. A trace-ID or span-ID value that
    fails hexadecimal parsing makes the whole call fail with the
    corrupted-context error. When every such value parses, the context
    [sc] that Extract builds has the trace ID and the span ID parsed from
    the last pair whose key reads, in lower case, as the field name (zero
    without one), and under each baggage key [b] the value of the last
    pair whose key reads, in lower case, as the baggage prefix followed
    by [b], so that every key with the baggage prefix has its entry, under
    its lower-cased suffix; Extract returns this context, and the no-op
    context when both IDs are zero. Keys count by their lower-case form only, and keys that
    are not recognized are ignored: while no backend reads the carrier
    too, rewriting the keys in a way that keeps their lower-case form, or
    dropping the unrecognized ones, changes nothing of what Extract
    returns. *)
Theorem Extract_key_handling (cfg : Settings) (format : Format) (carrier : Carrier)
    (pairs : list (string * string)) :
  supportedFormat format = true →
  asTextMapReader rangeOrder carrier = Some pairs →
  (∀ k v, (k, v) ∈ pairs →
     ToLower unicodeLower k = fieldNameTraceID ∨ ToLower unicodeLower k = fieldNameSpanID →
     (ParseUint v).2 ≠ None →
     Extract unicodeLower rangeOrder cfg format carrier
     = (NoopCtx, Some ErrSpanContextCorrupted))
  ∧ ((∀ k v, (k, v) ∈ pairs →
        ToLower unicodeLower k = fieldNameTraceID ∨ ToLower unicodeLower k = fieldNameSpanID →
        (ParseUint v).2 = None) →
     ∃ sc,
       TraceID sc = lastID unicodeLower fieldNameTraceID pairs
       ∧ SpanID sc = lastID unicodeLower fieldNameSpanID pairs
       ∧ (∀ b, Baggage sc !! b = lastBaggage unicodeLower b pairs)
       ∧ (∀ k v, (k, v) ∈ pairs →
            HasPrefix (ToLower unicodeLower k) prefixBaggage = true →
            is_Some (Baggage sc !! TrimPrefix (ToLower unicodeLower k) prefixBaggage))
       ∧ Extract unicodeLower rangeOrder cfg format carrier
         = if ((TraceID sc =? 0) && (SpanID sc =? 0))%N then (NoopCtx, None)
           else match getLightstep cfg with
                | None => (SpanCtx sc, None)
                | Some ls =>
                    match lsExtract ls format carrier with
                    | (_, Some err) => (NoopCtx, Some err)
                    | (l, None) => (SpanCtx (setLightstep sc l), None)
                    end
                end)
  ∧ (getLightstep cfg = None →
     (∀ f, Forall (λ kv, ToLower unicodeLower (f kv.1) = ToLower unicodeLower kv.1) pairs →
           Extract unicodeLower rangeOrder cfg format (ReaderOnly (prod_map f id <$> pairs))
           = Extract unicodeLower rangeOrder cfg format carrier)
     ∧ Extract unicodeLower rangeOrder cfg format
         (ReaderOnly (filter (λ kv, recognizedKey unicodeLower kv.1 = true) pairs))
       = Extract unicodeLower rangeOrder cfg format carrier).
Proof.
  intros Hf Hr. split; [|split].
  - intros k v Hin Hk Hv. unfold Extract. rewrite Hf, Hr. simpl.
    pose proof (ForeachKey_corrupted pairs zeroSpanContext k v Hin Hk Hv) as He.
    destruct (ForeachKey pairs handler zeroSpanContext) as [sc' [e|]];
      simpl in He; by simplify_eq.
  - intros Hok. pose proof (ForeachKey_parses pairs zeroSpanContext Hok) as He.
    destruct (ForeachKey pairs handler zeroSpanContext) as [sc e] eqn:Hfold.
    simpl in He. subst e. exists sc.
    destruct (ForeachKey_reads pairs zeroSpanContext sc None None (λ _, None) Hfold
                eq_refl eq_refl (λ b, lookup_empty b)) as (HT & HS & HB).
    split; [exact HT|]. split; [exact HS|]. split; [exact HB|]. split.
    { intros k v Hin Hp. rewrite HB.
      exact (lastValue_elem
               (λ k', String.eqb (ToLower unicodeLower k')
                        (prefixBaggage
                         ++ TrimPrefix (ToLower unicodeLower k) prefixBaggage))
               pairs k v Hin
               (proj2 (String.eqb_eq _ _) (HasPrefix_TrimPrefix _ _ Hp))). }
    unfold Extract. by rewrite Hf, Hr, Hfold.
  - intros Hls. split.
    + intros f Hl. unfold Extract. rewrite Hf, Hr, Hls. simpl.
      by rewrite (ForeachKey_recase f pairs _ Hl).
    + unfold Extract. rewrite Hf, Hr, Hls. simpl. by rewrite ForeachKey_filter.
Qed.

(** C3 (amended). Inject of the no-op span context writes nothing into
    the carrier and returns no error; Extract, under a supported format,
    of a readable carrier in which no key is recognized returns the no-op
    context and no error. *)
Theorem noop_context_propagation (cfg : Settings) (format format' : Format)
    (carrier carrier' : Carrier) (pairs : list (string * string)) :
  supportedFormat format' = true →
  asTextMapReader rangeOrder carrier' = Some pairs →
  Forall (λ kv, recognizedKey unicodeLower kv.1 = false) pairs →
  Inject rangeOrder NoopCtx format carrier = (carrier, None)
  ∧ Extract unicodeLower rangeOrder cfg format' carrier' = (NoopCtx, None).
Proof.
  intros Hf Hr Hp. split; [done|].
  unfold Extract. rewrite Hf, Hr. simpl.
  rewrite ForeachKey_unrecognized; [done|].
  intros k v Hin. rewrite Forall_forall in Hp. by apply (Hp (k, v)).
Qed.

(** C8. For a context other than the no-op one, Inject checks in this
    order: a format that is neither HTTPHeaders nor TextMap gives
    ErrUnsupportedFormat; else a carrier that is no TextMapWriter gives
    ErrInvalidCarrier; else a context that is not a spanContext gives
    ErrInvalidSpanContext. The carrier is returned as it was given in all
    three cases. *)
Theorem Inject_errors (osc : SpanContext) (format : Format) (carrier : Carrier) :
  osc ≠ NoopCtx →
  (format ≠ HTTPHeaders → format ≠ TextMap →
   Inject rangeOrder osc format carrier = (carrier, Some ErrUnsupportedFormat))
  ∧ (format = HTTPHeaders ∨ format = TextMap →
     isTextMapWriter carrier = false →
     Inject rangeOrder osc format carrier = (carrier, Some ErrInvalidCarrier))
  ∧ (format = HTTPHeaders ∨ format = TextMap →
     isTextMapWriter carrier = true →
     (∀ sc, osc ≠ SpanCtx sc) →
     Inject rangeOrder osc format carrier = (carrier, Some ErrInvalidSpanContext)).
Proof.
  intros Hosc. repeat split.
  - intros H1 H2. destruct osc, format; done.
  - intros Hf Hw. destruct osc; try done; destruct Hf as [-> | ->]; simpl; by rewrite Hw.
  - intros Hf Hw Hsc. destruct osc as [| |sc|]; try done;
      [|by destruct (Hsc sc)|]; destruct Hf as [-> | ->]; simpl; by rewrite Hw.
Qed.

(** C9. Whatever the format and the carrier, Extract returns a context
    that is not nil: the no-op context, with or without an error, or a
    span context without an error. *)
Theorem Extract_always_context (cfg : Settings) (format : Format) (carrier : Carrier) :
  (∃ err, Extract unicodeLower rangeOrder cfg format carrier = (NoopCtx, err))
  ∨ (∃ sc, Extract unicodeLower rangeOrder cfg format carrier = (SpanCtx sc, None)).
Proof.
  unfold Extract.
  destruct (supportedFormat format); simpl; [|by eauto].
  destruct (asTextMapReader rangeOrder carrier) as [pairs|]; [|by eauto].
  destruct (ForeachKey pairs handler zeroSpanContext) as [sc [e|]]; [by eauto|].
  destruct ((TraceID sc =? 0)%N && (SpanID sc =? 0)%N); [by eauto|].
  destruct (getLightstep cfg) as [ls|]; [|by eauto].
  destruct (lsExtract ls format carrier) as [l [e|]]; eauto.
Qed.

(** C10. With the no-op span context Inject returns no error and leaves
    the carrier alone whatever the format and the carrier, although the
    same format or carrier is refused for another context. *)
Theorem Inject_noop_first (format : Format) (carrier : Carrier) :
  Inject rangeOrder NoopCtx format carrier = (carrier, None)
  ∧ Inject rangeOrder NoopCtx Binary NotACarrier = (NotACarrier, None)
  ∧ Inject rangeOrder (SpanCtx zeroSpanContext) Binary carrier
    = (carrier, Some ErrUnsupportedFormat)
  ∧ Inject rangeOrder (SpanCtx zeroSpanContext) TextMap NotACarrier
    = (NotACarrier, Some ErrInvalidCarrier).
Proof. repeat split. Qed.

Section Order.
Hypothesis rangeOrder_perm :
  ∀ (V : Type) (m : gmap string V), rangeOrder V m ≡ₚ map_to_list m.

Lemma rangeOrder_elem {V} (m : gmap string V) (k : string) (v : V) :
  (k, v) ∈ rangeOrder V m ↔ m !! k = Some v.
Proof. rewrite rangeOrder_perm. apply elem_of_map_to_list. Qed.

Lemma rangeOrder_empty {V} : rangeOrder V ∅ = [].
Proof.
  apply Permutation_nil_r. rewrite rangeOrder_perm. by rewrite map_to_list_empty.
Qed.

Lemma Inject_TextMap_empty (sc : spanContext) (format : Format) :
  supportedFormat format = true →
  Inject rangeOrder (SpanCtx sc) format (TextMapCarrier ∅)
  = (TextMapCarrier (injectedMap rangeOrder sc), None).
Proof.
  intros Hf. unfold Inject. rewrite Hf. simpl. by rewrite Inject_fold_TextMap.
Qed.

Lemma injectedMap_pairs (sc : spanContext) (key val : string) :
  injectedMap rangeOrder sc !! key = Some val →
  injectedPair (TraceID sc) (SpanID sc) (Baggage sc) (key, val).
Proof.
  unfold injectedMap, injectedPair.
  intros [(k & -> & Hin)|Hm]%baggage_fold_Some.
  - right; right; right. exists k. split; [done|]. by apply rangeOrder_elem.
  - apply lookup_insert_Some in Hm as [[<- <-]|[_ Hm]]; [by auto|].
    apply lookup_insert_Some in Hm as [[<- <-]|[_ Hm]]; [by auto|].
    apply lookup_insert_Some in Hm as [[<- <-]|[_ Hm]]; [by auto|].
    by rewrite lookup_empty in Hm.
Qed.

Lemma injectedMap_ids (sc : spanContext) :
  is_Some (injectedMap rangeOrder sc !! fieldNameTraceID)
  ∧ is_Some (injectedMap rangeOrder sc !! fieldNameSpanID).
Proof.
  split; apply baggage_fold_keep.
  - rewrite lookup_insert_ne by done. rewrite lookup_insert_ne by done.
    rewrite lookup_insert_eq. eauto.
  - rewrite lookup_insert_ne by done. rewrite lookup_insert_eq. eauto.
Qed.

Lemma injectedMap_baggage (sc : spanContext) (k v : string) :
  Baggage sc !! k = Some v →
  is_Some (injectedMap rangeOrder sc !! (prefixBaggage ++ k)).
Proof. intros Hk. eapply baggage_fold_elem. by apply rangeOrder_elem. Qed.

Lemma elem_fst_rangeOrder {V} (m : gmap string V) (k : string) :
  k ∈ (rangeOrder V m).*1 ↔ is_Some (m !! k).
Proof.
  rewrite list_elem_of_fmap. split.
  - intros ([k' v] & -> & Hin). apply rangeOrder_elem in Hin. eauto.
  - intros [v Hv]. exists (k, v). split; [done|]. by apply rangeOrder_elem.
Qed.

(** C1 (amended). A span context that Inject accepts, written into an
    empty text-map carrier and read back by Extract while no external
    backend is configured, comes back with the same trace ID, span ID and
    baggage map, provided that each baggage key, prefixed, is unchanged by
    lower-casing, and that the context does not pair zero IDs with a
    non-empty baggage. The order in which maps are ranged over is
    arbitrary. *)
Theorem Extract_Inject_roundtrip (cfg : Settings) (C : SpanContext)
    (format format' : Format) (carrier : Carrier) :
  getLightstep cfg = None →
  Inject rangeOrder C format (TextMapCarrier ∅) = (carrier, None) →
  supportedFormat format' = true →
  (ctxTraceID C < 2 ^ 64)%N → (ctxSpanID C < 2 ^ 64)%N →
  (∀ k, is_Some (ctxBaggage C !! k) →
        ToLower unicodeLower (prefixBaggage ++ k) = prefixBaggage ++ k) →
  ctxTraceID C ≠ 0%N ∨ ctxSpanID C ≠ 0%N ∨ ctxBaggage C = ∅ →
  ∃ C', Extract unicodeLower rangeOrder cfg format' carrier = (C', None)
        ∧ ctxTraceID C' = ctxTraceID C
        ∧ ctxSpanID C' = ctxSpanID C
        ∧ ctxBaggage C' = ctxBaggage C.
Proof.
  intros Hls Hinj Hf' HT HS Hlow Hne.
  destruct C as [| |sc|impl].
  - unfold Inject in Hinj. destruct (supportedFormat format); simplify_eq/=.
  - simpl in Hinj. simplify_eq. exists NoopCtx.
    unfold Extract. rewrite Hf'. simpl. by rewrite rangeOrder_empty.
  - assert (Hf : supportedFormat format = true).
    { unfold Inject in Hinj. destruct (supportedFormat format); simplify_eq/=; done. }
    rewrite Inject_TextMap_empty in Hinj by done. simplify_eq. simpl in *.
    unfold Extract. rewrite Hf'. simpl.
    destruct (ForeachKey_injected (TraceID sc) (SpanID sc) (Baggage sc)
                (rangeOrder _ (injectedMap rangeOrder sc)) zeroSpanContext HT HS Hlow)
      as (sc' & -> & H1 & H2 & H3).
    { apply Forall_forall. intros [key val] Hin.
      apply injectedMap_pairs. by apply rangeOrder_elem. }
    destruct (injectedMap_ids sc) as [Ht Hs].
    rewrite decide_True in H1 by (by apply elem_fst_rangeOrder).
    rewrite decide_True in H2 by (by apply elem_fst_rangeOrder).
    assert (HB : Baggage sc' = Baggage sc).
    { apply map_eq. intros k. rewrite H3.
      destruct (Baggage sc !! k) as [v|] eqn:Hk.
      - rewrite decide_True; [done|].
        apply elem_fst_rangeOrder. by eapply injectedMap_baggage.
      - by destruct (decide _). }
    rewrite H1, H2.
    destruct ((TraceID sc =? 0)%N && (SpanID sc =? 0)%N) eqn:Hz.
    + apply andb_true_iff in Hz as [Hz1 Hz2].
      apply N.eqb_eq in Hz1, Hz2.
      exists NoopCtx. simpl. destruct Hne as [?|[?| ->]]; done.
    + rewrite Hls. exists (SpanCtx sc'). by simpl.
  - unfold Inject in Hinj. destruct (supportedFormat format); simplify_eq/=.
Qed.

End Order.
End Facts.

(** The round trip on the scenario of the spec: baggage [{"user": "42"}]. *)
Lemma Extract_Inject_roundtrip_witness :
  ∃ C', Extract asciiOnly listOrder noSinks TextMap
          (Inject listOrder (SpanCtx userContext) TextMap (TextMapCarrier ∅)).1
        = (C', None)
        ∧ ctxTraceID C' = 1%N ∧ ctxSpanID C' = 2%N
        ∧ ctxBaggage C' = {[ "user" := "42" ]}.
Proof.
  apply (Extract_Inject_roundtrip asciiOnly listOrder
           (λ V m, reflexivity _) noSinks (SpanCtx userContext) TextMap TextMap).
  - reflexivity.
  - vm_compute. reflexivity.
  - reflexivity.
  - reflexivity.
  - reflexivity.
  - intros k [v Hk].
    change (ctxBaggage (SpanCtx userContext))
      with ({[ "user" := "42" ]} : gmap string string) in Hk.
    apply lookup_singleton_Some in Hk as [<- _]. reflexivity.
  - left. discriminate.
Defined.

(** C1 is false as stated: a baggage key with an upper-case letter comes
    back in lower case, so the baggage map read back differs. *)
Lemma Extract_Inject_uppercase_baggage :
  (Inject listOrder (SpanCtx upperCaseContext) TextMap (TextMapCarrier ∅)).2 = None
  ∧ (Extract asciiOnly listOrder noSinks TextMap
       (Inject listOrder (SpanCtx upperCaseContext) TextMap (TextMapCarrier ∅)).1).2
    = None
  ∧ ctxBaggage (Extract asciiOnly listOrder noSinks TextMap
       (Inject listOrder (SpanCtx upperCaseContext) TextMap (TextMapCarrier ∅)).1).1
    !! "User" = None
  ∧ ctxBaggage (SpanCtx upperCaseContext) !! "User" = Some "42".
Proof. repeat split; vm_compute; reflexivity. Qed.

(** The other way the round trip loses baggage: a span context with both
    IDs zero is written out, and read back as the no-op context. *)
Example Extract_Inject_zero_ids_baggage :
  Extract asciiOnly listOrder noSinks TextMap
    (Inject listOrder (SpanCtx zeroIDsContext) TextMap (TextMapCarrier ∅)).1
  = (NoopCtx, None)
  ∧ ctxBaggage (SpanCtx zeroIDsContext) !! "user" = Some "42".
Proof. split; vm_compute; reflexivity. Qed.

(** A trace-ID key in mixed case with a value that is not hexadecimal,
    and a carrier that is read: its baggage key [ot-baggage-User] gives
    the entry [user]. *)
Lemma Extract_key_handling_witness :
  Extract asciiOnly listOrder noSinks TextMap corruptedCarrier
  = (NoopCtx, Some ErrSpanContextCorrupted)
  ∧ ∃ sc, Extract asciiOnly listOrder noSinks TextMap upperCaseCarrier = (SpanCtx sc, None)
          ∧ TraceID sc = 1%N ∧ SpanID sc = 2%N
          ∧ Baggage sc !! "user" = Some "42" ∧ Baggage sc !! "User" = None.
Proof.
  split.
  - apply (proj1 (Extract_key_handling asciiOnly listOrder noSinks TextMap
                    corruptedCarrier _ eq_refl eq_refl) "OT-Tracer-TraceID" "xyz").
    + left.
    + by left.
    + discriminate.
  - destruct (proj1 (proj2 (Extract_key_handling asciiOnly listOrder noSinks TextMap
                              upperCaseCarrier _ eq_refl eq_refl)))
      as (sc & HT & HS & HB & _ & HE).
    + intros k v Hin _.
      repeat (apply elem_of_cons in Hin as [[= -> ->]|Hin]; [reflexivity|]).
      by apply elem_of_nil in Hin.
    + exists sc. rewrite HE, HT, HS, !HB. repeat split; reflexivity.
Defined.

(** C2 is false as stated: the baggage entry read from the key
    [ot-baggage-User] is filed under [user], not under [User]. *)
Lemma Extract_baggage_key_lowercased :
  (Extract asciiOnly listOrder noSinks TextMap upperCaseCarrier).2 = None
  ∧ ctxBaggage (Extract asciiOnly listOrder noSinks TextMap upperCaseCarrier).1
    !! "User" = None
  ∧ ctxBaggage (Extract asciiOnly listOrder noSinks TextMap upperCaseCarrier).1
    !! "user" = Some "42".
Proof. repeat split; vm_compute; reflexivity. Qed.

(** The no-op context into a value that is no carrier, and a carrier with
    keys of other systems only. *)
Lemma noop_context_propagation_witness :
  Inject listOrder NoopCtx Binary NotACarrier = (NotACarrier, None)
  ∧ Extract asciiOnly listOrder noSinks TextMap unrelatedCarrier = (NoopCtx, None).
Proof.
  apply (noop_context_propagation asciiOnly listOrder noSinks Binary TextMap
           NotACarrier unrelatedCarrier _ eq_refl eq_refl).
  repeat constructor.
Defined.

(** C3 is false as stated: a span context whose trace ID and span ID are
    both zero is written out like any other. *)
Lemma Inject_zero_ids_writes :
  ctxTraceID (SpanCtx zeroSpanContext) = 0%N
  ∧ ctxSpanID (SpanCtx zeroSpanContext) = 0%N
  ∧ Inject listOrder (SpanCtx zeroSpanContext) TextMap (TextMapCarrier ∅)
    = (TextMapCarrier {[ "ot-tracer-traceid" := "0"; "ot-tracer-spanid" := "0";
                         "ot-tracer-sampled" := "true" ]}, None).
Proof. repeat split; vm_compute; reflexivity. Qed.

(** A context of another tracer, with a good format and a good carrier. *)
Lemma Inject_errors_witness :
  Inject listOrder (ForeignCtx 0) TextMap (TextMapCarrier ∅)
  = (TextMapCarrier ∅, Some ErrInvalidSpanContext).
Proof.
  pose proof (Inject_errors listOrder (ForeignCtx 0) TextMap (TextMapCarrier ∅)
                ltac:(discriminate)) as (_ & _ & H).
  apply H; [by right|reflexivity|discriminate].
Defined.

End PropagationFacts.

(** ** Span creation *)

Module SpanStartFacts.
Import GoStrings Strconv Tracing SpanStart.

(** A call that finds a parent took neither fast path. *)
Lemma findParent_Some_slow (opts : list StartSpanOption)
    (p : SpanReferenceType * spanContext) :
  findParent (References (applyOptions opts)) = Returned (Some p) →
  isNoopReference opts = false ∧ (length opts =? 0)%nat = false.
Proof.
  intros H. destruct opts as [|o [|o' opts]];
    [by simplify_eq/=| |by destruct o].
  destruct o as [[ty c]| | | |]; try done.
  destruct c; try done. cbn in H. destruct (isParentType ty); by simplify_eq/=.
Qed.

(** The scan returns when no reference carries a context of another
    implementation. *)
Lemma findParent_own (refs : list SpanReference) :
  Forall (λ r, ∀ impl, ReferencedContext r ≠ ForeignCtx impl) refs →
  ∃ parent, findParent refs = Returned parent.
Proof.
  induction 1 as [|r refs Hr _ IH]; simpl; [by eauto|].
  destruct (isParentType (RefType r)); simpl; [|done].
  destruct (ReferencedContext r) eqn:Hc; eauto. by destruct (Hr impl).
Qed.

(** The recording decision for a parent. *)
Lemma inheritRecording_inherited (P : spanContext) (g : groupRef) (w : World) :
  recordingGroup P = Some g →
  inheritRecording P w = Returned ((Some g, recordingType P), w).
Proof. intros H. unfold inheritRecording. by rewrite H. Qed.

Lemma inheritRecording_snowball (P : spanContext) (w : World) :
  recordingGroup P = None → hasSnowball P = true →
  ∃ w', inheritRecording P w = Returned ((Some (length (groups w)), SnowballRecording), w')
        ∧ groups w' = (groups w ++ [[]])%list
        ∧ shadowSpans w' = shadowSpans w.
Proof.
  intros H1 H2. unfold inheritRecording. rewrite H1, H2.
  eexists. split; [reflexivity|done].
Qed.

Lemma inheritRecording_none (P : spanContext) (w : World) :
  recordingGroup P = None → hasSnowball P = false →
  inheritRecording P w = Returned ((None, NotRecording), w).
Proof. intros H1 H2. unfold inheritRecording. by rewrite H1, H2. Qed.

Lemma inheritRecording_returns (P : spanContext) (w : World) :
  ∃ rec w', inheritRecording P w = Returned (rec, w')
            ∧ shadowSpans w' = shadowSpans w.
Proof.
  unfold inheritRecording.
  destruct (recordingGroup P); [by eauto|].
  destruct (hasSnowball P); by eauto.
Qed.

(** The IDs of a span that has a parent and no shadow span. *)
Lemma ownIDs_parent (ty : SpanReferenceType) (P : spanContext) (w : World) :
  ∃ spanID w', ownIDs (Some (ty, P)) w = Returned ((None, TraceID P, spanID), w')
               ∧ groups w' = groups w ∧ shadowSpans w' = shadowSpans w.
Proof. unfold ownIDs. eexists _, _. split; [reflexivity|done]. Qed.

(** A shadow span is only returned with the trace ID of the parent. *)
Lemma shadowSpan_parent (ls : Backend) (op : string) (sso : StartSpanOptions)
    (ty : SpanReferenceType) (P : spanContext) (w w' : World)
    (ids : option lsSpan * N * N) :
  shadowSpan ls op sso (Some (ty, P)) w = Returned (ids, w') →
  ids.1.2 = TraceID P ∧ groups w' = groups w.
Proof.
  unfold shadowSpan, mbind, M_bind, mret, M_ret, panic, liftOutcome, backendStartSpan.
  destruct (lightstep P); [|done].
  destruct (getLightstepSpanIDs _ _) as [[tid sid]|]; [|done]. simpl.
  destruct (N.eqb_spec tid (TraceID P)); simpl; [|done].
  intros [= <- <-]. done.
Qed.

Lemma shadowSpan_mismatch (ls : Backend) (op : string) (sso : StartSpanOptions)
    (ty : SpanReferenceType) (P : spanContext) (l : lsContext) (w : World)
    (tid sid : N) :
  lightstep P = Some l →
  getLightstepSpanIDs ls (lsSpanContext ls
    (lsStartSpan ls (length (shadowSpans w)) op
                 (replicatedOptions sso ++ [LsReference ty l])))
  = Returned (tid, sid) →
  tid ≠ TraceID P →
  shadowSpan ls op sso (Some (ty, P)) w
  = Panicked "TraceID doesn't match between parent and child spans".
Proof.
  intros Hl Hids Hne.
  unfold shadowSpan, mbind, M_bind, mret, M_ret, panic, liftOutcome, backendStartSpan.
  rewrite Hl. simpl. rewrite Hids. simpl.
  by destruct (N.eqb_spec tid (TraceID P)).
Qed.


(** Setting tags changes the tags only, and [decorate] leaves the IDs and
    the shadow span as they are. *)
Lemma SetTags_frame (s : span) (m : gmap string TagValue) :
  s_TraceID (SetTags s m) = s_TraceID s
  ∧ s_parentSpanID (SetTags s m) = s_parentSpanID s
  ∧ s_Baggage (SetTags s m) = s_Baggage s
  ∧ s_lightstep (SetTags s m) = s_lightstep s
  ∧ s_recordingGroup (SetTags s m) = s_recordingGroup s
  ∧ s_recordingType (SetTags s m) = s_recordingType s.
Proof.
  unfold SetTags.
  apply (map_fold_weak_ind (λ r _,
    s_TraceID r = s_TraceID s ∧ s_parentSpanID r = s_parentSpanID s
    ∧ s_Baggage r = s_Baggage s ∧ s_lightstep r = s_lightstep s
    ∧ s_recordingGroup r = s_recordingGroup s
    ∧ s_recordingType r = s_recordingType s)); [done|].
  intros i x m' r _ H. exact H.
Qed.

Lemma SetTags_TraceID s m : s_TraceID (SetTags s m) = s_TraceID s.
Proof. apply SetTags_frame. Qed.
Lemma SetTags_parentSpanID s m : s_parentSpanID (SetTags s m) = s_parentSpanID s.
Proof. apply SetTags_frame. Qed.
Lemma SetTags_lightstep s m : s_lightstep (SetTags s m) = s_lightstep s.
Proof. apply SetTags_frame. Qed.
Lemma SetTags_recordingGroup s m : s_recordingGroup (SetTags s m) = s_recordingGroup s.
Proof. apply SetTags_frame. Qed.
Lemma SetTags_recordingType s m : s_recordingType (SetTags s m) = s_recordingType s.
Proof. apply SetTags_frame. Qed.

Ltac decorate_field :=
  unfold decorate; cbn [fst snd];
  destruct (_ || _);
  rewrite ?SetTags_TraceID, ?SetTags_parentSpanID, ?SetTags_lightstep,
    ?SetTags_recordingGroup, ?SetTags_recordingType;
  repeat match goal with
         | |- context [if ?b then _ else _] => destruct b
         | |- context [match ?o with Some _ => _ | None => _ end] => destruct o
         | |- context [let (_, _) := ?p in _] => destruct p
         end;
  reflexivity.

Lemma decorate_frame (netTrace usesBackend : bool) (op : string)
    (sso : StartSpanOptions) (parent : option (SpanReferenceType * spanContext))
    (rec : option groupRef * RecordingType) (s : span) :
  s_TraceID (decorate netTrace usesBackend op sso parent rec s) = s_TraceID s
  ∧ s_lightstep (decorate netTrace usesBackend op sso parent rec s) = s_lightstep s
  ∧ (∀ ty P, parent = Some (ty, P) →
       s_parentSpanID (decorate netTrace usesBackend op sso parent rec s) = SpanID P)
  ∧ (∀ g, rec.1 = Some g →
       s_recordingGroup (decorate netTrace usesBackend op sso parent rec s) = Some g
       ∧ s_recordingType (decorate netTrace usesBackend op sso parent rec s) = rec.2).
Proof.
  split; [|split; [|split]].
  - decorate_field.
  - decorate_field.
  - intros ty P ->. decorate_field.
  - intros g Hg. destruct rec as [r1 r2]. simpl in Hg. subst r1.
    split; decorate_field.
Qed.

Local Opaque inheritRecording shadowSpan ownIDs decorate.

Ltac unfold_StartSpan :=
  unfold StartSpan, mbind, M_bind, mret, M_ret, liftOutcome, timeNow.

(** C4. When the scan of the references of a StartSpan call finds the
    parent context [P], every span the call returns has the trace ID of
    [P] and the span ID of [P] as its parent span ID; and when the
    external backend is in use for the span and reports a trace ID other
    than that of [P] for the shadow span, the call panics. *)
Theorem StartSpan_parent_ids (cfg : Settings) (t : Tracer) (op : string)
    (opts : list StartSpanOption) (w : World)
    (ty : SpanReferenceType) (P : spanContext) :
  findParent (References (applyOptions opts)) = Returned (Some (ty, P)) →
  (∀ s w', StartSpan cfg t op opts w = Returned (RealSpan s, w') →
           s_TraceID s = TraceID P ∧ s_parentSpanID s = SpanID P)
  ∧ (∀ ls l tid sid,
       getLightstep cfg = Some ls → lightstep P = Some l →
       getLightstepSpanIDs ls (lsSpanContext ls
         (lsStartSpan ls (length (shadowSpans w)) op
            (replicatedOptions (applyOptions opts) ++ [LsReference ty l])))
       = Returned (tid, sid) →
       tid ≠ TraceID P →
       StartSpan cfg t op opts w
       = Panicked "TraceID doesn't match between parent and child spans").
Proof.
  intros Hfind. destruct (findParent_Some_slow _ _ Hfind) as [Hf1 Hf2].
  split.
  - intros s w'. unfold_StartSpan. rewrite Hf1, Hf2, Hfind. cbn [andb].
    destruct (inheritRecording_returns P w) as (rec & w1 & -> & _).
    destruct (_ && _ && _ && _); [done|].
    destruct (StartTime (applyOptions opts) =? 0)%N; cbn beta iota;
      destruct (stickyBackend (Some (ty, P)) (getLightstep cfg)) as [ls|].
    1,3: destruct (shadowSpan ls op (applyOptions opts) (Some (ty, P)) w1)
           as [[ids w3]|] eqn:Hsh; [|done];
         apply shadowSpan_parent in Hsh as [Hid _]; intros [= <- <-];
         match goal with |- context [decorate ?a ?b ?c ?d ?e ?f ?g] =>
           destruct (decorate_frame a b c d e f g) as (-> & _ & Hp & _) end;
         by rewrite (Hp ty P).
    all: destruct (ownIDs_parent ty P w1) as (spanID & w3 & -> & _);
         intros [= <- <-];
         match goal with |- context [decorate ?a ?b ?c ?d ?e ?f ?g] =>
           destruct (decorate_frame a b c d e f g) as (-> & _ & Hp & _) end;
         by rewrite (Hp ty P).
  - intros ls l tid sid Hls Hl Hids Hne.
    unfold_StartSpan. rewrite Hf1, Hf2, Hfind. cbn [andb].
    destruct (inheritRecording_returns P w) as (rec & w1 & -> & Hsh).
    unfold stickyBackend. rewrite Hl, Hls. cbn [isNil andb negb].
    rewrite !andb_false_r. cbn [andb].
    destruct (StartTime (applyOptions opts) =? 0)%N; cbn beta iota;
      rewrite (shadowSpan_mismatch ls op _ ty P l w1 tid sid); try done;
      by rewrite Hsh.
Qed.

(** A call whose scan panics took neither fast path. *)
Lemma findParent_Panicked_slow (opts : list StartSpanOption) (msg : string) :
  findParent (References (applyOptions opts)) = Panicked msg →
  isNoopReference opts = false ∧ (length opts =? 0)%nat = false.
Proof.
  intros H. destruct opts as [|o [|o' opts]];
    [by simplify_eq/=| |by destruct o].
  destruct o as [[ty c]| | | |]; try done.
  destruct c; try done. cbn in H. destruct (isParentType ty); by simplify_eq/=.
Qed.

(** C5 (amended). For a StartSpan call made while the debug feed is
    disabled, no external backend is configured and the Recordable option
    is absent: when the scan for the parent returns, and the parent found
    (if any) has neither a recording group nor a non-empty Snowball
    baggage item, the call returns the no-op span preallocated in the
    Tracer and allocates nothing, the world is as before; the only other
    calls are those in which the scan panics, at the type assertion on the
    first reference that can be a parent, and these panic. *)
Theorem StartSpan_noop_singleton (cfg : Settings) (t : Tracer) (op : string)
    (opts : list StartSpanOption) (w : World) :
  enableNetTrace cfg = false →
  getLightstep cfg = None →
  existsb isRecordable opts = false →
  (∀ parent, findParent (References (applyOptions opts)) = Returned parent →
     (∀ ty P, parent = Some (ty, P) →
              recordingGroup P = None ∧ hasSnowball P = false) →
     StartSpan cfg t op opts w = Returned (NoopSpanOf t, w))
  ∧ (∀ msg, findParent (References (applyOptions opts)) = Panicked msg →
       StartSpan cfg t op opts w = Panicked msg).
Proof.
  intros Hnet Hls Hrec. split.
  - intros parent Hfind Hpar. unfold_StartSpan.
    destruct (isNoopReference opts); [done|].
    rewrite Hnet, Hls, Hrec. cbn [negb isNil andb].
    destruct (length opts =? 0)%nat; [done|]. cbn [andb].
    rewrite Hfind. destruct parent as [[ty P]|]; [|done].
    destruct (Hpar ty P eq_refl) as [H1 H2].
    rewrite (inheritRecording_none P w H1 H2). cbn [fst isNil andb].
    unfold stickyBackend. by destruct (isNil (lightstep P)).
  - intros msg Hfind. destruct (findParent_Panicked_slow _ _ Hfind) as [Hfast Hlen].
    unfold_StartSpan. by rewrite Hfast, Hlen, Hfind.
Qed.

(** C6 (amended). When the scan finds the parent context [P]: if [P] has
    a recording group, the span returned is bound to that group with the
    recording type of [P] and no group is allocated; if [P] has none and
    its baggage has a non-empty value under the Snowball key, a new group
    is allocated and the span returned is bound to it with
    SnowballRecording. In both cases a span is returned unless the call
    panics, which only happens when the external backend is in use for
    the span. *)
Theorem StartSpan_recording (cfg : Settings) (t : Tracer) (op : string)
    (opts : list StartSpanOption) (w : World)
    (ty : SpanReferenceType) (P : spanContext) :
  findParent (References (applyOptions opts)) = Returned (Some (ty, P)) →
  (∀ g, recordingGroup P = Some g →
     (∃ s w', StartSpan cfg t op opts w = Returned (RealSpan s, w')
              ∧ s_recordingGroup s = Some g
              ∧ s_recordingType s = recordingType P
              ∧ groups w' = groups w)
     ∨ (∃ msg, StartSpan cfg t op opts w = Panicked msg
               ∧ stickyBackend (Some (ty, P)) (getLightstep cfg) ≠ None))
  ∧ (recordingGroup P = None → hasSnowball P = true →
     (∃ s w', StartSpan cfg t op opts w = Returned (RealSpan s, w')
              ∧ s_recordingGroup s = Some (length (groups w))
              ∧ s_recordingType s = SnowballRecording
              ∧ groups w' = (groups w ++ [[]])%list)
     ∨ (∃ msg, StartSpan cfg t op opts w = Panicked msg
               ∧ stickyBackend (Some (ty, P)) (getLightstep cfg) ≠ None)).
Proof.
  intros Hfind. destruct (findParent_Some_slow _ _ Hfind) as [Hf1 Hf2].
  assert (Hgen : ∀ g rt w1,
    inheritRecording P w = Returned ((Some g, rt), w1) →
    (∃ s w', StartSpan cfg t op opts w = Returned (RealSpan s, w')
             ∧ s_recordingGroup s = Some g ∧ s_recordingType s = rt
             ∧ groups w' = groups w1)
    ∨ (∃ msg, StartSpan cfg t op opts w = Panicked msg
              ∧ stickyBackend (Some (ty, P)) (getLightstep cfg) ≠ None)).
  { intros g rt w1 Hrec. unfold_StartSpan. rewrite Hf1, Hf2, Hfind. cbn [andb].
    rewrite Hrec. cbn [fst snd isNil andb]. rewrite andb_false_r. cbn [andb].
    destruct (StartTime (applyOptions opts) =? 0)%N; cbn beta iota;
      destruct (stickyBackend (Some (ty, P)) (getLightstep cfg)) as [ls|].
    1,3: destruct (shadowSpan ls op (applyOptions opts) (Some (ty, P)) w1)
           as [[ids w3]|] eqn:Hsh;
         [apply shadowSpan_parent in Hsh as [_ Hg]; left|right; eauto].
    3,4: destruct (ownIDs_parent ty P w1) as (spanID & w3 & -> & Hg & _); left.
    all: eexists _, _; (split; [reflexivity|]);
         match goal with |- context [decorate ?a ?b ?c ?d ?e ?f ?g] =>
           destruct (decorate_frame a b c d e f g) as (_ & _ & _ & Hr) end;
         destruct (Hr g eq_refl) as [-> ->]; done. }
  split.
  - intros g Hg.
    destruct (Hgen g (recordingType P) w (inheritRecording_inherited P g w Hg))
      as [?|?]; auto.
  - intros H1 H2.
    destruct (inheritRecording_snowball P w H1 H2) as (w1 & Hrec & Hg & _).
    destruct (Hgen _ _ _ Hrec) as [(s & w' & ? & ? & ? & Hg')|?]; [|auto].
    left. exists s, w'. rewrite Hg', Hg. auto.
Qed.

(** C7. When the scan finds a parent context [P] that has no lightstep
    context, StartSpan returns, no shadow span has been started in the
    backend, and a span returned has no shadow span, whatever backend is
    configured. *)
Theorem StartSpan_backend_sticky (cfg : Settings) (t : Tracer) (op : string)
    (opts : list StartSpanOption) (w : World)
    (ty : SpanReferenceType) (P : spanContext) :
  findParent (References (applyOptions opts)) = Returned (Some (ty, P)) →
  lightstep P = None →
  ∃ sp w', StartSpan cfg t op opts w = Returned (sp, w')
           ∧ shadowSpans w' = shadowSpans w
           ∧ ∀ s, sp = RealSpan s → s_lightstep s = None.
Proof.
  intros Hfind Hl. destruct (findParent_Some_slow _ _ Hfind) as [Hf1 Hf2].
  unfold_StartSpan. rewrite Hf1, Hf2, Hfind. cbn [andb].
  destruct (inheritRecording_returns P w) as (rec & w1 & -> & Hsh).
  unfold stickyBackend. rewrite Hl. cbn [isNil].
  destruct (_ && _ && _ && _).
  { exists (NoopSpanOf t), w1. repeat split; [done|]. by intros s [=]. }
  destruct (StartTime (applyOptions opts) =? 0)%N; cbn beta iota;
    destruct (ownIDs_parent ty P w1) as (spanID & w3 & -> & _ & Hsh3);
    eexists _, _; (split; [reflexivity|]); (split; [congruence|]);
    intros s [= <-];
    match goal with |- context [decorate ?a ?b ?c ?d ?e ?f ?g] =>
      destruct (decorate_frame a b c d e f g) as (_ & -> & _) end;
    done.
Qed.

(** A child of a recorded parent, started with every sink off. *)
Lemma StartSpan_parent_ids_witness :
  match StartSpan noSinks sampleTracer "op" [ChildOf (SpanCtx recordedParent)]
                  sampleWorld with
  | Returned (RealSpan s, _) => s_TraceID s = 5%N ∧ s_parentSpanID s = 7%N
  | _ => False
  end.
Proof.
  destruct (StartSpan noSinks sampleTracer "op" [ChildOf (SpanCtx recordedParent)]
                      sampleWorld) as [[[t'|s] w']|msg] eqn:E;
    try (vm_compute in E; discriminate).
  exact (proj1 (StartSpan_parent_ids noSinks sampleTracer "op"
                  [ChildOf (SpanCtx recordedParent)] sampleWorld
                  ChildOfRef recordedParent eq_refl) s w' E).
Defined.

(** The backend answers with trace ID [0xa] for a child of a parent whose
    trace ID is 5. *)
Example StartSpan_mismatch_panics :
  StartSpan backendOnly sampleTracer "op" [ChildOf (SpanCtx shadowedParent)]
            sampleWorld
  = Panicked "TraceID doesn't match between parent and child spans".
Proof. vm_compute. reflexivity. Qed.

(** A child of a plain parent, started with every sink off; the second
    reference, to a context of another tracer, is never looked at. *)
Lemma StartSpan_noop_singleton_witness :
  StartSpan noSinks sampleTracer "op"
    [ChildOf (SpanCtx plainParent); ChildOf (ForeignCtx 0)] sampleWorld
  = Returned (NoopSpanOf sampleTracer, sampleWorld).
Proof.
  apply (proj1 (StartSpan_noop_singleton noSinks sampleTracer "op"
                  [ChildOf (SpanCtx plainParent); ChildOf (ForeignCtx 0)]
                  sampleWorld eq_refl eq_refl eq_refl)
               (Some (ChildOfRef, plainParent)) eq_refl).
  intros ty P [= <- <-]. split; reflexivity.
Defined.

(** C5 is false as stated: with every sink off, a reference to a context
    of another tracer makes the call panic at the type assertion. *)
Lemma StartSpan_foreign_context_panics :
  StartSpan noSinks sampleTracer "op" [ChildOf (ForeignCtx 0)] sampleWorld
  = Panicked "interface conversion".
Proof. vm_compute. reflexivity. Qed.

(** A child of a parent that carries the Snowball item: the new group is
    the fifth of the heap. *)
Lemma StartSpan_recording_witness :
  (∃ s w', StartSpan noSinks sampleTracer "op" [ChildOf (SpanCtx snowballParent)]
                     sampleWorld = Returned (RealSpan s, w')
           ∧ s_recordingGroup s = Some 4
           ∧ s_recordingType s = SnowballRecording
           ∧ groups w' = [[]; []; []; []; []])
  ∨ (∃ msg, StartSpan noSinks sampleTracer "op" [ChildOf (SpanCtx snowballParent)]
                      sampleWorld = Panicked msg
            ∧ stickyBackend (Some (ChildOfRef, snowballParent)) None ≠ None).
Proof.
  exact (proj2 (StartSpan_recording noSinks sampleTracer "op"
                  [ChildOf (SpanCtx snowballParent)] sampleWorld
                  ChildOfRef snowballParent eq_refl) eq_refl eq_refl).
Defined.

(** The same child, run: it is bound to the new group 4 with
    SnowballRecording; and so is a child started from the context that
    Extract reads from a carrier the parent was injected into. *)
Example StartSpan_snowball_child :
  match StartSpan noSinks sampleTracer "op" [ChildOf (SpanCtx snowballParent)]
                  sampleWorld with
  | Returned (RealSpan s, w') =>
      s_recordingGroup s = Some 4 ∧ s_recordingType s = SnowballRecording
      ∧ length (groups w') = 5
  | _ => False
  end.
Proof. vm_compute. repeat split; reflexivity. Qed.

Example StartSpan_snowball_across_carrier :
  match StartSpan noSinks sampleTracer "op"
          [ChildOf (Extract asciiOnly listOrder noSinks TextMap
                      (Inject listOrder (SpanCtx snowballParent) TextMap
                              (TextMapCarrier ∅)).1).1]
          sampleWorld with
  | Returned (RealSpan s, _) =>
      s_TraceID s = 5%N ∧ s_parentSpanID s = 7%N
      ∧ s_recordingType s = SnowballRecording
  | _ => False
  end.
Proof. vm_compute. repeat split; reflexivity. Qed.

(** C6 is false as stated: a parent whose baggage has the Snowball key
    with an empty value starts no recording; with every sink off the child
    is the no-op span and no group is allocated. *)
Lemma StartSpan_empty_snowball_value :
  Baggage emptySnowballParent !! Snowball = Some ""
  ∧ StartSpan noSinks sampleTracer "op" [ChildOf (SpanCtx emptySnowballParent)]
              sampleWorld
    = Returned (NoopSpanOf sampleTracer, sampleWorld).
Proof. split; vm_compute; reflexivity. Qed.

(** A backend is configured, the parent has no shadow context. *)
Lemma StartSpan_backend_sticky_witness :
  ∃ sp w', StartSpan backendOnly sampleTracer "op"
                     [ChildOf (SpanCtx plainParent); Recordable] sampleWorld
           = Returned (sp, w')
           ∧ shadowSpans w' = []
           ∧ ∀ s, sp = RealSpan s → s_lightstep s = None.
Proof.
  exact (StartSpan_backend_sticky backendOnly sampleTracer "op"
           [ChildOf (SpanCtx plainParent); Recordable] sampleWorld
           ChildOfRef plainParent eq_refl eq_refl).
Defined.

End SpanStartFacts.

(** ** More on propagation *)

Module PropagationExtras.
Import GoStrings Strconv Tracing StrconvFacts PropagationFacts.
Import TracingAux.

(** A value [ParseUint] accepts fits in 64 bits. *)
Lemma parseLoop_bound (s : string) (n r : N) :
  parseLoop 16 (maxUint64 / 16 + 1) maxUint64 s n = (r, None) →
  (n ≤ maxUint64)%N → (r ≤ maxUint64)%N.
Proof.
  revert n. induction s as [|c s IH]; intros n; simpl.
  - by intros [= <-].
  - destruct (digitVal c) as [d|]; [|done].
    destruct (16 <=? d)%N; [done|].
    destruct (maxUint64 / 16 + 1 <=? n)%N; [done|].
    destruct (_ || _) eqn:Hor; [done|].
    intros Hr _. apply (IH _ Hr).
    apply orb_false_iff in Hor as [_ Hmax]. by apply N.ltb_ge in Hmax.
Qed.

Lemma ParseUint_bound (v : string) (n : N) :
  ParseUint v = (n, None) → (n < 2 ^ 64)%N.
Proof.
  unfold ParseUint. destruct v as [|c v]; [done|].
  intros H%parseLoop_bound; [|done].
  revert H. unfold maxUint64. lia.
Qed.

Section Extras.
Variable unicodeLower : string → string.
Variable rangeOrder : ∀ V : Type, gmap string V → list (string * V).

Local Abbreviation handler := (extractHandler unicodeLower).
Local Abbreviation isTraceKey k := (ToLower unicodeLower k = fieldNameTraceID).
Local Abbreviation isSpanKey k := (ToLower unicodeLower k = fieldNameSpanID).

Lemma handler_wireContext (k v : string) (sc sc' : spanContext) :
  wireContext sc → handler k v sc = (sc', None) → wireContext sc'.
Proof.
  intros (H1 & H2 & H3 & H4 & H5). unfold extractHandler.
  destruct (_ =? _)%string.
  { destruct (ParseUint v) as [n [e|]] eqn:Hp; intros [= <-].
    repeat split; try done. by eapply ParseUint_bound. }
  destruct (_ =? _)%string.
  { destruct (ParseUint v) as [n [e|]] eqn:Hp; intros [= <-].
    repeat split; try done. by eapply ParseUint_bound. }
  destruct (HasPrefix _ _); intros [= <-]; by repeat split.
Qed.

Lemma ForeachKey_wireContext (l : list (string * string)) (sc sc' : spanContext) :
  wireContext sc → ForeachKey l handler sc = (sc', None) → wireContext sc'.
Proof.
  revert sc. induction l as [|[k v] l IH]; intros sc Hsc; simpl.
  - by intros [= <-].
  - destruct (handler k v sc) as [sc1 [e|]] eqn:Hh; [done|].
    apply IH. by eapply handler_wireContext.
Qed.

(** The shape of every successful return of Extract with a span context. *)
Lemma Extract_SpanCtx_inv (cfg : Settings) (format : Format) (carrier : Carrier)
    (sc : spanContext) (err : option Error) :
  Extract unicodeLower rangeOrder cfg format carrier = (SpanCtx sc, err) →
  err = None
  ∧ ∃ pairs sc0,
      asTextMapReader rangeOrder carrier = Some pairs
      ∧ ForeachKey pairs handler zeroSpanContext = (sc0, None)
      ∧ ((TraceID sc0 =? 0) && (SpanID sc0 =? 0))%N = false
      ∧ TraceID sc = TraceID sc0 ∧ SpanID sc = SpanID sc0
      ∧ Baggage sc = Baggage sc0
      ∧ recordingGroup sc = recordingGroup sc0
      ∧ recordingType sc = recordingType sc0
      ∧ (getLightstep cfg = None → lightstep sc = lightstep sc0).
Proof.
  unfold Extract. destruct (supportedFormat format); [|done]. simpl.
  destruct (asTextMapReader rangeOrder carrier) as [pairs|]; [|done].
  destruct (ForeachKey pairs handler zeroSpanContext) as [sc0 [e|]] eqn:Hf; [done|].
  destruct (_ && _) eqn:Hz; [done|].
  destruct (getLightstep cfg) as [ls|].
  - destruct (lsExtract ls format carrier) as [l [e|]]; [done|].
    intros [= <- <-]. split; [done|]. exists pairs, sc0. by repeat split.
  - intros [= <- <-]. split; [done|]. exists pairs, sc0. by repeat split.
Qed.

(** X1. A span context returned by Extract comes without an error, has a
    trace ID or a span ID other than zero, and both IDs fit in 64 bits. *)
Theorem Extract_ids_nonzero_bounded (cfg : Settings) (format : Format)
    (carrier : Carrier) (sc : spanContext) (err : option Error) :
  Extract unicodeLower rangeOrder cfg format carrier = (SpanCtx sc, err) →
  err = None
  ∧ (TraceID sc ≠ 0%N ∨ SpanID sc ≠ 0%N)
  ∧ (TraceID sc < 2 ^ 64)%N ∧ (SpanID sc < 2 ^ 64)%N.
Proof.
  intros (-> & pairs & sc0 & _ & Hf & Hz & -> & -> & _)%Extract_SpanCtx_inv.
  apply ForeachKey_wireContext in Hf as (H1 & H2 & _); [|by repeat split].
  repeat split; try done.
  apply andb_false_iff in Hz as [Hz|Hz]; apply N.eqb_neq in Hz; auto.
Qed.

(** X2. A span context returned by Extract is bound to no recording
    group, and has a shadow context only if a backend is configured. *)
Theorem Extract_no_recording_group (cfg : Settings) (format : Format)
    (carrier : Carrier) (sc : spanContext) (err : option Error) :
  Extract unicodeLower rangeOrder cfg format carrier = (SpanCtx sc, err) →
  recordingGroup sc = None ∧ recordingType sc = NotRecording
  ∧ (getLightstep cfg = None → lightstep sc = None).
Proof.
  intros (_ & pairs & sc0 & _ & Hf & _ & _ & _ & _ & -> & -> & Hl)%Extract_SpanCtx_inv.
  apply ForeachKey_wireContext in Hf as (_ & _ & H3 & H4 & H5); [|by repeat split].
  repeat split; try done. intros Hls. by rewrite Hl.
Qed.

(** Where an error of the iteration comes from. *)
Lemma ForeachKey_error_source (l : list (string * string)) (sc sc' : spanContext)
    (err : Error) :
  ForeachKey l handler sc = (sc', Some err) →
  ∃ k v, (k, v) ∈ l ∧ (isTraceKey k ∨ isSpanKey k) ∧ (ParseUint v).2 ≠ None.
Proof.
  revert sc. induction l as [|[k v] l IH]; intros sc; simpl; [done|].
  destruct (handler k v sc) as [sc1 [e|]] eqn:Hh.
  - intros _. exists k, v. split; [by left|].
    revert Hh. unfold extractHandler.
    destruct (String.eqb (ToLower unicodeLower k) fieldNameTraceID) eqn:H1.
    { apply String.eqb_eq in H1.
      destruct (ParseUint v) as [n [e'|]]; [|done]. intros _. by split; [left|]. }
    destruct (String.eqb (ToLower unicodeLower k) fieldNameSpanID) eqn:H2.
    { apply String.eqb_eq in H2.
      destruct (ParseUint v) as [n [e'|]]; [|done]. intros _. by split; [right|]. }
    destruct (HasPrefix _ _); intros; simplify_eq.
  - intros (k' & v' & Hin & ?)%IH. exists k', v'. split; [by right|done].
Qed.

(** X3. While no backend is configured Extract has three errors, each
    with its cause: the format is not supported; or it is and the carrier
    cannot be read; or both are fine and some trace-ID or span-ID key of
    the carrier has a value that is not a 64-bit hexadecimal number. *)
Theorem Extract_error_cause (cfg : Settings) (format : Format)
    (carrier : Carrier) (C : SpanContext) (err : Error) :
  getLightstep cfg = None →
  Extract unicodeLower rangeOrder cfg format carrier = (C, Some err) →
  (err = ErrUnsupportedFormat ∧ supportedFormat format = false)
  ∨ (err = ErrInvalidCarrier ∧ supportedFormat format = true
     ∧ asTextMapReader rangeOrder carrier = None)
  ∨ (err = ErrSpanContextCorrupted ∧ supportedFormat format = true
     ∧ ∃ pairs k v, asTextMapReader rangeOrder carrier = Some pairs
         ∧ (k, v) ∈ pairs ∧ (isTraceKey k ∨ isSpanKey k)
         ∧ (ParseUint v).2 ≠ None).
Proof.
  intros Hls. unfold Extract.
  destruct (supportedFormat format); simpl; [|intros [= <- <-]; by left].
  destruct (asTextMapReader rangeOrder carrier) as [pairs|];
    [|intros [= <- <-]; right; by left].
  destruct (ForeachKey pairs handler zeroSpanContext) as [sc0 [e|]] eqn:Hf.
  - intros [= <- <-]. right; right.
    rewrite (ForeachKey_error _ _ _ _ _ Hf).
    apply ForeachKey_error_source in Hf as (k & v & ? & ? & ?).
    split; [done|]. split; [done|]. by exists pairs, k, v.
  - destruct (_ && _); [done|]. by rewrite Hls.
Qed.

(** Changing the case of the keys does not change what is read. *)
(** X4. While no backend is configured, Extract returns the same for a
    carrier and for the carrier with its keys rewritten, pair by pair, by
    any function that keeps the lower-case form of each key (as the
    canonical form of HTTP header names does). *)
Theorem Extract_recase (cfg : Settings) (format : Format)
    (f : string → string) (pairs : list (string * string)) :
  getLightstep cfg = None →
  Forall (λ kv, ToLower unicodeLower (f kv.1) = ToLower unicodeLower kv.1) pairs →
  Extract unicodeLower rangeOrder cfg format (ReaderOnly (prod_map f id <$> pairs))
  = Extract unicodeLower rangeOrder cfg format (ReaderOnly pairs).
Proof.
  intros Hls Hf. unfold Extract. destruct (supportedFormat format); [|done].
  simpl. rewrite (ForeachKey_recase unicodeLower f pairs _ Hf).
  destruct (ForeachKey pairs handler zeroSpanContext) as [sc [e|]]; [done|].
  destruct (_ && _); [done|]. by rewrite Hls.
Qed.

(** Without ID keys the IDs stay as they are. *)
Lemma ForeachKey_no_ids (l : list (string * string)) (sc : spanContext) :
  Forall (λ kv, ¬ isTraceKey kv.1 ∧ ¬ isSpanKey kv.1) l →
  ∃ sc', ForeachKey l handler sc = (sc', None)
         ∧ TraceID sc' = TraceID sc ∧ SpanID sc' = SpanID sc.
Proof.
  intros Hl. revert sc. induction Hl as [|[k v] l [H1 H2] _ IH]; intros sc.
  { by exists sc. }
  simpl in *. unfold extractHandler at 1.
  apply String.eqb_neq in H1, H2. rewrite H1, H2.
  destruct (HasPrefix _ _).
  - destruct (IH (setBaggageItem sc (TrimPrefix (ToLower unicodeLower k) prefixBaggage) v))
      as (sc' & -> & ? & ?). by exists sc'.
  - apply IH.
Qed.

(** X5. Baggage alone makes no context: under a supported format, a
    readable carrier in which no key reads as the trace-ID or the span-ID
    key gives the no-op context and no error, whatever baggage keys it
    has. *)
Theorem Extract_without_ids (cfg : Settings) (format : Format) (carrier : Carrier)
    (pairs : list (string * string)) :
  supportedFormat format = true →
  asTextMapReader rangeOrder carrier = Some pairs →
  Forall (λ kv, ¬ isTraceKey kv.1 ∧ ¬ isSpanKey kv.1) pairs →
  Extract unicodeLower rangeOrder cfg format carrier = (NoopCtx, None).
Proof.
  intros Hf Hr Hp. unfold Extract. rewrite Hf, Hr. simpl.
  destruct (ForeachKey_no_ids pairs zeroSpanContext Hp) as (sc' & -> & -> & ->).
  done.
Qed.

(** Reading pairs that Inject wrote, however they reach the reader. *)
Lemma Extract_injected (cfg : Settings) (format : Format) (carrier : Carrier)
    (T S : N) (B : gmap string string) (l : list (string * string)) :
  asTextMapReader rangeOrder carrier = Some l →
  getLightstep cfg = None → supportedFormat format = true →
  (T < 2 ^ 64)%N → (S < 2 ^ 64)%N → T ≠ 0%N ∨ S ≠ 0%N →
  (∀ k, is_Some (B !! k) →
        ToLower unicodeLower (prefixBaggage ++ k) = prefixBaggage ++ k) →
  Forall (injectedPair T S B) l →
  fieldNameTraceID ∈ l.*1 → fieldNameSpanID ∈ l.*1 →
  (∀ k, is_Some (B !! k) → prefixBaggage ++ k ∈ l.*1) →
  ∃ sc', Extract unicodeLower rangeOrder cfg format carrier = (SpanCtx sc', None)
         ∧ TraceID sc' = T ∧ SpanID sc' = S ∧ Baggage sc' = B.
Proof.
  intros Hr Hls Hf HT HS Hne Hlow Hl Ht Hs Hb.
  unfold Extract. rewrite Hf, Hr. simpl.
  destruct (ForeachKey_injected unicodeLower T S B l zeroSpanContext HT HS Hlow Hl)
    as (sc' & -> & H1 & H2 & H3).
  rewrite decide_True in H1 by done. rewrite decide_True in H2 by done.
  rewrite H1, H2.
  assert (((T =? 0) && (S =? 0))%N = false) as ->.
  { apply andb_false_iff. destruct Hne; [left|right]; by apply N.eqb_neq. }
  rewrite Hls. exists sc'. repeat split; try done.
  apply map_eq. intros k. rewrite H3.
  destruct (B !! k) as [v|] eqn:Hk.
  - rewrite decide_True; [done|]. apply Hb. by rewrite Hk.
  - by destruct (decide _).
Qed.

Lemma Inject_fold_Writer (w : list (string * string)) (l : list (string * string)) :
  foldl (λ c kv, carrierSet c (prefixBaggage ++ kv.1) kv.2) (WriterOnly w) l
  = WriterOnly (w ++ (prod_map (String.append prefixBaggage) id <$> l)).
Proof.
  revert w. induction l as [|[k v] l IH]; intros w; simpl.
  - by rewrite app_nil_r.
  - rewrite IH. by rewrite <- app_assoc.
Qed.

Lemma baggage_fold_other (l : list (string * string)) (m0 : gmap string string)
    (key : string) :
  (∀ k v, (k, v) ∈ l → key ≠ prefixBaggage ++ k) →
  foldl (λ m kv, <[prefixBaggage ++ kv.1 := kv.2]> m) m0 l !! key = m0 !! key.
Proof.
  revert m0. induction l as [|[k v] l IH]; intros m0 Hl; simpl; [done|].
  rewrite IH by (intros k' v' ?; apply (Hl k' v'); by right).
  rewrite lookup_insert_ne; [done|]. intros Heq. by apply (Hl k v); [left|].
Qed.

Lemma baggage_fold_lookup (l : list (string * string)) (m0 : gmap string string)
    (k v : string) :
  NoDup l.*1 → (k, v) ∈ l →
  foldl (λ m kv, <[prefixBaggage ++ kv.1 := kv.2]> m) m0 l
  !! (prefixBaggage ++ k) = Some v.
Proof.
  revert m0. induction l as [|[k' v'] l IH]; intros m0 Hnd Hin;
    [by apply elem_of_nil in Hin|].
  apply NoDup_cons in Hnd as [Hk' Hnd]. simpl.
  apply elem_of_cons in Hin as [[= <- <-]|Hin]; [|by apply IH].
  rewrite baggage_fold_other; [by rewrite lookup_insert_eq|].
  intros k2 v2 Hin Heq. apply baggage_key_inj in Heq as <-.
  apply Hk'. apply list_elem_of_fmap. by exists (k, v2).
Qed.

#[local] Instance baggage_key_Inj : Inj (=) (=) (String.append prefixBaggage).
Proof. intros k1 k2. apply baggage_key_inj. Qed.

Lemma wireMap_pairs (sc : spanContext) (key val : string) :
  wireMap sc !! key = Some val →
  injectedPair (TraceID sc) (SpanID sc) (Baggage sc) (key, val).
Proof.
  unfold wireMap, injectedPair. intros [Hk|[_ Hi]]%lookup_union_Some_raw.
  - apply lookup_kmap_Some in Hk as (k & -> & Hk); [|apply _].
    right; right; right. by exists k.
  - apply lookup_insert_Some in Hi as [[<- <-]|[_ Hi]]; [by auto|].
    apply lookup_insert_Some in Hi as [[<- <-]|[_ Hi]]; [by auto|].
    apply lookup_insert_Some in Hi as [[<- <-]|[_ Hi]]; [by auto|].
    by rewrite lookup_empty in Hi.
Qed.

Lemma wireMap_ids (sc : spanContext) :
  wireMap sc !! fieldNameTraceID = Some (FormatUint (TraceID sc))
  ∧ wireMap sc !! fieldNameSpanID = Some (FormatUint (SpanID sc))
  ∧ wireMap sc !! fieldNameSampled = Some "true".
Proof.
  unfold wireMap. repeat split; rewrite lookup_union_r.
  2,4,6: apply lookup_kmap_None; [apply _|]; intros k Hk;
    by destruct (baggage_key_not_state k) as (? & ? & ?).
  - rewrite lookup_insert_ne by done. rewrite lookup_insert_ne by done.
    by rewrite lookup_insert_eq.
  - rewrite lookup_insert_ne by done. by rewrite lookup_insert_eq.
  - by rewrite lookup_insert_eq.
Qed.

Lemma wireMap_baggage (sc : spanContext) (k : string) :
  wireMap sc !! (prefixBaggage ++ k) = Baggage sc !! k.
Proof.
  unfold wireMap. rewrite lookup_union.
  rewrite (lookup_kmap (String.append prefixBaggage)).
  destruct (baggage_key_not_state k) as (? & ? & ?).
  rewrite !lookup_insert_ne by done. rewrite lookup_empty.
  by destruct (Baggage sc !! k).
Qed.

Section Order.
Hypothesis rangeOrder_perm :
  ∀ (V : Type) (m : gmap string V), rangeOrder V m ≡ₚ map_to_list m.

Lemma rangeOrder_NoDup {V} (m : gmap string V) : NoDup (rangeOrder V m).*1.
Proof. rewrite rangeOrder_perm. apply NoDup_fst_map_to_list. Qed.

(** Inject into a text-map carrier, in closed form. *)
Lemma Inject_TextMap_closed (sc : spanContext) (format : Format)
    (m0 : gmap string string) :
  supportedFormat format = true →
  Inject rangeOrder (SpanCtx sc) format (TextMapCarrier m0)
  = (TextMapCarrier (wireMap sc ∪ m0), None).
Proof.
  intros Hf. unfold Inject. rewrite Hf. simpl. rewrite Inject_fold_TextMap.
  f_equal. f_equal. apply map_eq. intros key.
  unfold wireMap. rewrite <- (assoc_L (∪)), lookup_union.
  destruct (kmap (String.append prefixBaggage) (Baggage sc) !! key) as [v|] eqn:Hk.
  - apply lookup_kmap_Some in Hk as (k & -> & Hk); [|apply _].
    rewrite (baggage_fold_lookup _ _ k v); [|apply rangeOrder_NoDup|].
    + match goal with |- _ = _ ∪ ?o => by destruct o end.
    + by apply (rangeOrder_elem rangeOrder rangeOrder_perm).
  - rewrite baggage_fold_other.
    + rewrite (left_id_L None _). rewrite <- !insert_union_l.
      by rewrite (left_id_L ∅ _).
    + intros k v Hin ->.
      apply (rangeOrder_elem rangeOrder rangeOrder_perm) in Hin.
      rewrite (lookup_kmap (String.append prefixBaggage)) in Hk. congruence.
Qed.

(** X6. Under a supported format, Inject of a span context into a
    text-map carrier succeeds, sets every entry of the context (baggage
    under prefixed keys, the two IDs, the sampled marker) and leaves every
    other key of the carrier with the value it had. *)
Theorem Inject_TextMap_frame (sc : spanContext) (format : Format)
    (m0 : gmap string string) :
  supportedFormat format = true →
  ∃ m', Inject rangeOrder (SpanCtx sc) format (TextMapCarrier m0)
        = (TextMapCarrier m', None)
        ∧ m' !! fieldNameTraceID = Some (FormatUint (TraceID sc))
        ∧ m' !! fieldNameSpanID = Some (FormatUint (SpanID sc))
        ∧ m' !! fieldNameSampled = Some "true"
        ∧ (∀ k v, Baggage sc !! k = Some v → m' !! (prefixBaggage ++ k) = Some v)
        ∧ (∀ key, wireMap sc !! key = None → m' !! key = m0 !! key).
Proof.
  intros Hf. exists (wireMap sc ∪ m0).
  split; [by apply Inject_TextMap_closed|].
  destruct (wireMap_ids sc) as (H1 & H2 & H3).
  repeat split.
  - by apply lookup_union_Some_l.
  - by apply lookup_union_Some_l.
  - by apply lookup_union_Some_l.
  - intros k v Hk. apply lookup_union_Some_l. by rewrite wireMap_baggage.
  - intros key Hk. by apply lookup_union_r.
Qed.

(** X7. Injecting the same span context a second time into a text-map
    carrier changes nothing. *)
Theorem Inject_idempotent (sc : spanContext) (format : Format)
    (m0 : gmap string string) (carrier : Carrier) :
  Inject rangeOrder (SpanCtx sc) format (TextMapCarrier m0) = (carrier, None) →
  Inject rangeOrder (SpanCtx sc) format carrier = (carrier, None).
Proof.
  intros Hinj.
  assert (Hf : supportedFormat format = true).
  { unfold Inject in Hinj. destruct (supportedFormat format); simplify_eq/=; done. }
  rewrite Inject_TextMap_closed in Hinj by done. simplify_eq.
  rewrite Inject_TextMap_closed by done.
  by rewrite (assoc_L (∪)), (idemp_L (∪) (wireMap sc)).
Qed.

Lemma wirePairs_injected (sc : spanContext) (l : list (string * string)) :
  (∀ k v, (k, v) ∈ l → Baggage sc !! k = Some v) →
  Forall (injectedPair (TraceID sc) (SpanID sc) (Baggage sc)) (wirePairs sc l).
Proof.
  intros Hl. unfold wirePairs, injectedPair.
  repeat (apply Forall_cons; split; [by auto|]).
  apply Forall_forall. intros [key val] ([k v] & [= -> ->] & Hin)%list_elem_of_fmap.
  right; right; right. exists k. split; [done|]. by apply Hl.
Qed.

(** X8. The round trip over a transport: when Inject of a span context [sc]
    into an empty write-only carrier made the calls [w], Extract from a
    carrier that yields the pairs of [w] in any order returns the trace ID,
    span ID and baggage of [sc], provided no backend is configured, the
    IDs are not both zero and the prefixed baggage keys are unchanged by
    lower-casing. *)
Theorem Inject_Writer_Extract_Reader (cfg : Settings) (sc : spanContext)
    (format format' : Format) (w l : list (string * string)) :
  getLightstep cfg = None → supportedFormat format' = true →
  Inject rangeOrder (SpanCtx sc) format (WriterOnly []) = (WriterOnly w, None) →
  l ≡ₚ w →
  (TraceID sc < 2 ^ 64)%N → (SpanID sc < 2 ^ 64)%N →
  TraceID sc ≠ 0%N ∨ SpanID sc ≠ 0%N →
  (∀ k, is_Some (Baggage sc !! k) →
        ToLower unicodeLower (prefixBaggage ++ k) = prefixBaggage ++ k) →
  ∃ sc', Extract unicodeLower rangeOrder cfg format' (ReaderOnly l) = (SpanCtx sc', None)
         ∧ TraceID sc' = TraceID sc ∧ SpanID sc' = SpanID sc
         ∧ Baggage sc' = Baggage sc.
Proof.
  intros Hls Hf' Hinj Hperm HT HS Hne Hlow.
  assert (Hw : w = wirePairs sc (rangeOrder _ (Baggage sc))).
  { unfold Inject in Hinj. destruct (supportedFormat format); [|done].
    simpl in Hinj. rewrite Inject_fold_Writer in Hinj. by simplify_eq. }
  apply (Extract_injected _ _ _ _ _ _ l); try done.
  - rewrite Hperm, Hw. apply wirePairs_injected.
    intros k v. apply (rangeOrder_elem rangeOrder rangeOrder_perm).
  - rewrite Hperm, Hw. apply list_elem_of_fmap.
    exists (fieldNameTraceID, FormatUint (TraceID sc)). split; [done|]. by left.
  - rewrite Hperm, Hw. apply list_elem_of_fmap.
    exists (fieldNameSpanID, FormatUint (SpanID sc)). split; [done|].
    right; by left.
  - intros k [v Hk]. rewrite Hperm, Hw. apply list_elem_of_fmap.
    exists (prefixBaggage ++ k, v). split; [done|].
    unfold wirePairs. do 3 right. apply list_elem_of_fmap.
    exists (k, v). split; [done|].
    by apply (rangeOrder_elem rangeOrder rangeOrder_perm).
Qed.

(** X9. Inject does not clear a carrier: after span context [c1] and then
    [c2] were injected into the same text-map carrier, Extract returns the
    IDs of [c2] and the baggage of [c2] together with every baggage item
    of [c1] that [c2] does not override. *)
Theorem Inject_twice_Extract (cfg : Settings) (c1 c2 : spanContext)
    (format : Format) (car1 car2 : Carrier) :
  getLightstep cfg = None →
  Inject rangeOrder (SpanCtx c1) format (TextMapCarrier ∅) = (car1, None) →
  Inject rangeOrder (SpanCtx c2) format car1 = (car2, None) →
  (TraceID c2 < 2 ^ 64)%N → (SpanID c2 < 2 ^ 64)%N →
  TraceID c2 ≠ 0%N ∨ SpanID c2 ≠ 0%N →
  (∀ k, is_Some ((Baggage c2 ∪ Baggage c1) !! k) →
        ToLower unicodeLower (prefixBaggage ++ k) = prefixBaggage ++ k) →
  ∃ sc', Extract unicodeLower rangeOrder cfg format car2 = (SpanCtx sc', None)
         ∧ TraceID sc' = TraceID c2 ∧ SpanID sc' = SpanID c2
         ∧ Baggage sc' = Baggage c2 ∪ Baggage c1.
Proof.
  intros Hls Hinj1 Hinj2 HT HS Hne Hlow.
  assert (Hf : supportedFormat format = true).
  { unfold Inject in Hinj1. destruct (supportedFormat format); simplify_eq/=; done. }
  rewrite Inject_TextMap_closed in Hinj1 by done. simplify_eq.
  rewrite Inject_TextMap_closed in Hinj2 by done. simplify_eq.
  rewrite (right_id_L ∅ _).
  set (m := wireMap c2 ∪ wireMap c1).
  destruct (wireMap_ids c2) as (Ht & Hs & Hsm).
  assert (Hm : ∀ key val, m !! key = Some val →
            injectedPair (TraceID c2) (SpanID c2) (Baggage c2 ∪ Baggage c1) (key, val)).
  { intros key val [H2|[H2 H1]]%lookup_union_Some_raw.
    - apply wireMap_pairs in H2 as [?|[?|[?|(k & ? & Hk)]]]; unfold injectedPair; auto.
      do 3 right. exists k. split; [done|]. by apply lookup_union_Some_l.
    - apply wireMap_pairs in H1 as [[= -> ->]|[[= -> ->]|[[= -> ->]|(k & Hkey & Hk)]]];
        try congruence.
      simpl in Hkey, Hk. subst key. rewrite wireMap_baggage in H2.
      unfold injectedPair. do 3 right. exists k. split; [done|].
      simpl. by rewrite lookup_union_r. }
  apply (Extract_injected _ _ _ _ _ _ (rangeOrder _ m)); try done.
  - apply Forall_forall. intros [key val] Hin. apply Hm.
    by apply (rangeOrder_elem rangeOrder rangeOrder_perm).
  - apply (elem_fst_rangeOrder rangeOrder rangeOrder_perm).
    exists (FormatUint (TraceID c2)). by apply lookup_union_Some_l.
  - apply (elem_fst_rangeOrder rangeOrder rangeOrder_perm).
    exists (FormatUint (SpanID c2)). by apply lookup_union_Some_l.
  - intros k [v Hk]. apply (elem_fst_rangeOrder rangeOrder rangeOrder_perm).
    exists v. apply lookup_union_Some_raw in Hk as [Hk|[Hk2 Hk1]].
    + apply lookup_union_Some_l. by rewrite wireMap_baggage.
    + unfold m. rewrite lookup_union_r by (by rewrite wireMap_baggage).
      by rewrite wireMap_baggage.
Qed.

End Order.
End Extras.

(** *** The properties on sample carriers *)

(** The carrier with the keys [ot-tracer-traceid], [ot-tracer-spanid] and
    [ot-baggage-User]. *)
Lemma Extract_ids_nonzero_bounded_witness :
  ∃ sc err,
    Extract asciiOnly listOrder noSinks TextMap upperCaseCarrier = (SpanCtx sc, err)
    ∧ err = None
    ∧ (TraceID sc ≠ 0%N ∨ SpanID sc ≠ 0%N)
    ∧ (TraceID sc < 2 ^ 64)%N ∧ (SpanID sc < 2 ^ 64)%N.
Proof.
  eexists _, _. split; [vm_compute; reflexivity|].
  apply (Extract_ids_nonzero_bounded asciiOnly listOrder noSinks TextMap
           upperCaseCarrier).
  vm_compute. reflexivity.
Defined.

Lemma Extract_no_recording_group_witness :
  ∃ sc err,
    Extract asciiOnly listOrder noSinks TextMap upperCaseCarrier = (SpanCtx sc, err)
    ∧ recordingGroup sc = None ∧ recordingType sc = NotRecording
    ∧ (getLightstep noSinks = None → lightstep sc = None).
Proof.
  eexists _, _. split; [vm_compute; reflexivity|].
  apply (Extract_no_recording_group asciiOnly listOrder noSinks TextMap
           upperCaseCarrier _ None).
  vm_compute. reflexivity.
Defined.

(** The carrier whose trace ID is [xyz]. *)
Lemma Extract_error_cause_witness :
  ∃ k v, (k, v) ∈ [("OT-Tracer-TraceID", "xyz"); ("ot-tracer-spanid", "2")]
         ∧ (ParseUint v).2 ≠ None.
Proof.
  destruct (Extract_error_cause asciiOnly listOrder noSinks TextMap corruptedCarrier
              NoopCtx ErrSpanContextCorrupted eq_refl eq_refl)
    as [[H _]|[[H _]|(_ & _ & pairs & k & v & Hp & Hin & _ & Hv)]];
    [discriminate..|].
  injection Hp as <-. eauto.
Defined.

(** The trace-ID key in the form of a canonical HTTP header name. *)
Lemma Extract_recase_witness :
  Extract asciiOnly listOrder noSinks TextMap
    (ReaderOnly [("Ot-Tracer-Traceid", "1"); ("ot-tracer-spanid", "2");
                 ("ot-baggage-user", "42")])
  = Extract asciiOnly listOrder noSinks TextMap
      (ReaderOnly [("ot-tracer-traceid", "1"); ("ot-tracer-spanid", "2");
                   ("ot-baggage-user", "42")]).
Proof.
  apply (Extract_recase asciiOnly listOrder noSinks TextMap canonicalKey
           [("ot-tracer-traceid", "1"); ("ot-tracer-spanid", "2");
            ("ot-baggage-user", "42")] eq_refl).
  repeat constructor.
Defined.

(** A carrier with baggage and no ID. *)
Lemma Extract_without_ids_witness :
  Extract asciiOnly listOrder noSinks TextMap
    (ReaderOnly [("ot-baggage-user", "42"); ("ot-tracer-sampled", "true")])
  = (NoopCtx, None).
Proof.
  apply (Extract_without_ids asciiOnly listOrder noSinks TextMap
           (ReaderOnly [("ot-baggage-user", "42"); ("ot-tracer-sampled", "true")])
           [("ot-baggage-user", "42"); ("ot-tracer-sampled", "true")]
           eq_refl eq_refl).
  repeat constructor; intros H; vm_compute in H; discriminate.
Defined.

(** A carrier that already holds a key of another system. *)
Lemma Inject_TextMap_frame_witness :
  ∃ m', Inject listOrder (SpanCtx userContext) TextMap
          (TextMapCarrier {[ "x-request-id" := "7" ]})
        = (TextMapCarrier m', None)
        ∧ m' !! "ot-baggage-user" = Some "42"
        ∧ m' !! "x-request-id" = Some "7".
Proof.
  destruct (Inject_TextMap_frame listOrder (λ V m, reflexivity _) userContext
              TextMap {[ "x-request-id" := "7" ]} eq_refl)
    as (m' & H & _ & _ & _ & Hbag & Hframe).
  exists m'. split; [exact H|]. split.
  - apply (Hbag "user" "42"). reflexivity.
  - rewrite Hframe; [reflexivity|]. vm_compute. reflexivity.
Defined.

Lemma Inject_idempotent_witness :
  Inject listOrder (SpanCtx userContext) TextMap
    (Inject listOrder (SpanCtx userContext) TextMap (TextMapCarrier ∅)).1
  = ((Inject listOrder (SpanCtx userContext) TextMap (TextMapCarrier ∅)).1, None).
Proof.
  apply (Inject_idempotent listOrder (λ V m, reflexivity _) userContext TextMap ∅).
  vm_compute. reflexivity.
Defined.

(** The pairs written for the sample context, read back in the reverse
    order. *)
Lemma Inject_Writer_Extract_Reader_witness :
  ∃ sc', Extract asciiOnly listOrder noSinks TextMap
           (ReaderOnly (reverse (wirePairs userContext [("user", "42")])))
         = (SpanCtx sc', None)
         ∧ TraceID sc' = 1%N ∧ SpanID sc' = 2%N
         ∧ Baggage sc' = {[ "user" := "42" ]}.
Proof.
  apply (Inject_Writer_Extract_Reader asciiOnly listOrder (λ V m, reflexivity _)
           noSinks userContext TextMap TextMap
           (wirePairs userContext [("user", "42")])).
  - reflexivity.
  - reflexivity.
  - vm_compute. reflexivity.
  - apply reverse_Permutation.
  - reflexivity.
  - reflexivity.
  - left. discriminate.
  - intros k [v Hk].
    change (Baggage userContext) with ({[ "user" := "42" ]} : gmap string string) in Hk.
    apply lookup_singleton_Some in Hk as [<- _]. reflexivity.
Defined.

(** The sample context and then the second one into the same carrier. *)
Lemma Inject_twice_Extract_witness :
  ∃ sc', Extract asciiOnly listOrder noSinks TextMap
           (Inject listOrder (SpanCtx tenantContext) TextMap
              (Inject listOrder (SpanCtx userContext) TextMap (TextMapCarrier ∅)).1).1
         = (SpanCtx sc', None)
         ∧ TraceID sc' = 9%N ∧ SpanID sc' = 10%N
         ∧ Baggage sc' = {[ "tenant" := "7" ]} ∪ {[ "user" := "42" ]}.
Proof.
  apply (Inject_twice_Extract asciiOnly listOrder (λ V m, reflexivity _)
           noSinks userContext tenantContext TextMap
           (Inject listOrder (SpanCtx userContext) TextMap (TextMapCarrier ∅)).1).
  - reflexivity.
  - vm_compute. reflexivity.
  - vm_compute. reflexivity.
  - reflexivity.
  - reflexivity.
  - left. discriminate.
  - intros k [v Hk].
    change (Baggage tenantContext) with ({[ "tenant" := "7" ]} : gmap string string) in Hk.
    change (Baggage userContext) with ({[ "user" := "42" ]} : gmap string string) in Hk.
    apply lookup_union_Some_raw in Hk as [Hk|[_ Hk]];
      apply lookup_singleton_Some in Hk as [<- _]; reflexivity.
Defined.

End PropagationExtras.

(** ** More on span creation *)

Module SpanStartExtras.
Import GoStrings Strconv Tracing SpanStart StrconvFacts PropagationFacts.
Import TracingAux PropagationExtras SpanStartAux.

(** *** The carrier that reads the IDs of a shadow span *)

Lemma idsCarrierSetAll_range (pairs : list (string * string))
    (l l' : lightstepExtractIDsCarrier) :
  idsInRange l → idsCarrierSetAll l pairs = Returned l' → idsInRange l'.
Proof.
  revert l. induction pairs as [|[k v] pairs IH]; intros l Hl; simpl.
  - by intros [= <-].
  - destruct (idsCarrierSet l k v) as [l1|] eqn:Hs; [|done].
    apply IH. revert Hs. unfold idsCarrierSet. destruct Hl as [H1 H2].
    repeat case_match; intros; simplify_eq; split; simpl; try done;
      by eapply ParseUint_bound.
Qed.

Lemma getLightstepSpanIDs_ids (ls : Backend) (spanCtx : lsContext)
    (traceID spanID : N) :
  getLightstepSpanIDs ls spanCtx = Returned (traceID, spanID) →
  traceID ≠ 0%N ∧ spanID ≠ 0%N ∧ (traceID < 2 ^ 64)%N ∧ (spanID < 2 ^ 64)%N.
Proof.
  unfold getLightstepSpanIDs. destruct (lsInject ls spanCtx) as [pairs err].
  destruct (idsCarrierSetAll _ pairs) as [carrier|] eqn:Hc; [|done].
  apply idsCarrierSetAll_range in Hc as [H1 H2]; [|by split].
  destruct err; [done|].
  destruct (_ || _) eqn:Hz; [done|]. intros [= <- <-].
  apply orb_false_iff in Hz as [Ht Hs]. apply N.eqb_neq in Ht, Hs. done.
Qed.

(** X10. getLightstepSpanIDs returns only when the backend reported no
    error, and then both IDs are other than zero and fit in 64 bits. *)
Theorem getLightstepSpanIDs_nonzero (ls : Backend) (spanCtx : lsContext)
    (traceID spanID : N) :
  getLightstepSpanIDs ls spanCtx = Returned (traceID, spanID) →
  (lsInject ls spanCtx).2 = None
  ∧ traceID ≠ 0%N ∧ spanID ≠ 0%N ∧ (traceID < 2 ^ 64)%N ∧ (spanID < 2 ^ 64)%N.
Proof.
  intros Hret. split; [|by apply (getLightstepSpanIDs_ids ls spanCtx)].
  revert Hret. unfold getLightstepSpanIDs.
  destruct (lsInject ls spanCtx) as [pairs [e|]]; [|done].
  by destruct (idsCarrierSetAll _ pairs).
Qed.

Lemma idsCarrierSetAll_no_trace (pairs : list (string * string))
    (l l' : lightstepExtractIDsCarrier) :
  Forall (λ kv, kv.1 ≠ fieldNameTraceID) pairs →
  idsCarrierSetAll l pairs = Returned l' → l_traceID l' = l_traceID l.
Proof.
  intros Hp. revert l. induction Hp as [|[k v] pairs Hk _ IH]; intros l; simpl.
  - by intros [= <-].
  - destruct (idsCarrierSet l k v) as [l1|] eqn:Hs; [|done].
    intros ->%IH. revert Hs. unfold idsCarrierSet.
    apply String.eqb_neq in Hk. simpl in Hk. rewrite Hk.
    repeat case_match; intros; by simplify_eq.
Qed.

Lemma idsCarrierSetAll_no_span (pairs : list (string * string))
    (l l' : lightstepExtractIDsCarrier) :
  Forall (λ kv, kv.1 ≠ fieldNameSpanID) pairs →
  idsCarrierSetAll l pairs = Returned l' → l_spanID l' = l_spanID l.
Proof.
  intros Hp. revert l. induction Hp as [|[k v] pairs Hk _ IH]; intros l; simpl.
  - by intros [= <-].
  - destruct (idsCarrierSet l k v) as [l1|] eqn:Hs; [|done].
    intros ->%IH. revert Hs. unfold idsCarrierSet.
    apply String.eqb_neq in Hk. simpl in Hk. rewrite Hk.
    repeat case_match; intros; by simplify_eq.
Qed.

(** X11. getLightstepSpanIDs compares keys as they are written: when the
    backend sets no pair under exactly [ot-tracer-traceid], or none under
    exactly [ot-tracer-spanid], the call panics, whatever other keys (in
    another case, say) it sets. *)
Theorem getLightstepSpanIDs_exact_keys (ls : Backend) (spanCtx : lsContext) :
  Forall (λ kv, kv.1 ≠ fieldNameTraceID) (lsInject ls spanCtx).1
  ∨ Forall (λ kv, kv.1 ≠ fieldNameSpanID) (lsInject ls spanCtx).1 →
  ∃ msg, getLightstepSpanIDs ls spanCtx = Panicked msg.
Proof.
  intros Hk. unfold getLightstepSpanIDs.
  destruct (lsInject ls spanCtx) as [pairs err]. simpl in Hk.
  destruct (idsCarrierSetAll _ pairs) as [carrier|] eqn:Hc; [|by eauto].
  destruct err; [by eauto|].
  assert (l_traceID carrier = 0%N ∨ l_spanID carrier = 0%N) as Hz.
  { destruct Hk as [Hk|Hk];
      [left; by rewrite (idsCarrierSetAll_no_trace _ _ _ Hk Hc)
      |right; by rewrite (idsCarrierSetAll_no_span _ _ _ Hk Hc)]. }
  assert ((l_traceID carrier =? 0)%N || (l_spanID carrier =? 0)%N = true) as ->.
  { apply orb_true_iff. destruct Hz as [-> | ->]; auto. }
  eauto.
Qed.

Lemma idsCarrierSetAll_wellformed (T S : N) (pairs : list (string * string))
    (l : lightstepExtractIDsCarrier) :
  (T < 2 ^ 64)%N → (S < 2 ^ 64)%N →
  Forall (λ kv, (kv.1 = fieldNameTraceID → kv.2 = FormatUint T)
                ∧ (kv.1 = fieldNameSpanID → kv.2 = FormatUint S)) pairs →
  ∃ l', idsCarrierSetAll l pairs = Returned l'
        ∧ l_traceID l' = (if decide (fieldNameTraceID ∈ pairs.*1) then T else l_traceID l)
        ∧ l_spanID l' = (if decide (fieldNameSpanID ∈ pairs.*1) then S else l_spanID l).
Proof.
  intros HT HS Hp. revert l.
  induction Hp as [|[k v] pairs [H1 H2] _ IH]; intros l.
  { by exists l. }
  rewrite fmap_cons. cbn [fst idsCarrierSetAll]. simpl in H1, H2.
  unfold idsCarrierSet.
  destruct (String.eqb_spec k fieldNameTraceID) as [->|Hk1].
  { rewrite H1 by done. rewrite ParseUint_FormatUint by done.
    destruct (IH {| l_traceID := T; l_spanID := l_spanID l |}) as (l' & -> & Ht & Hs).
    exists l'. split; [done|]. rewrite if_elem_cons_eq.
    rewrite if_elem_cons_ne by done. split; [|done].
    rewrite Ht. by destruct (decide (fieldNameTraceID ∈ pairs.*1)). }
  destruct (String.eqb_spec k fieldNameSpanID) as [->|Hk2].
  { rewrite H2 by done. rewrite ParseUint_FormatUint by done.
    destruct (IH {| l_traceID := l_traceID l; l_spanID := S |}) as (l' & -> & Ht & Hs).
    exists l'. split; [done|]. rewrite if_elem_cons_eq.
    rewrite if_elem_cons_ne by done. split; [done|].
    rewrite Hs. by destruct (decide (fieldNameSpanID ∈ pairs.*1)). }
  destruct (IH l) as (l' & -> & Ht & Hs).
  exists l'. split; [done|]. by rewrite !if_elem_cons_ne by done.
Qed.

(** X12. getLightstepSpanIDs reads back the IDs a backend writes in the
    format of this tracer: when the backend sets the trace ID [T] and the
    span ID [S], both other than zero, as hexadecimal under the two field
    names, reports no error and sets whatever else under other keys, the
    call returns [(T, S)]. *)
Theorem getLightstepSpanIDs_reads (ls : Backend) (spanCtx : lsContext) (T S : N)
    (pairs : list (string * string)) :
  lsInject ls spanCtx = (pairs, None) →
  (T < 2 ^ 64)%N → (S < 2 ^ 64)%N → T ≠ 0%N → S ≠ 0%N →
  Forall (λ kv, (kv.1 = fieldNameTraceID → kv.2 = FormatUint T)
                ∧ (kv.1 = fieldNameSpanID → kv.2 = FormatUint S)) pairs →
  fieldNameTraceID ∈ pairs.*1 → fieldNameSpanID ∈ pairs.*1 →
  getLightstepSpanIDs ls spanCtx = Returned (T, S).
Proof.
  intros Hi HT HS HT0 HS0 Hp Ht Hs. unfold getLightstepSpanIDs. rewrite Hi.
  destruct (idsCarrierSetAll_wellformed T S pairs
              {| l_traceID := 0; l_spanID := 0 |} HT HS Hp) as (l' & -> & -> & ->).
  rewrite !decide_True by done.
  apply N.eqb_neq in HT0, HS0. by rewrite HT0, HS0.
Qed.

(** *** StartSpan, stage by stage *)

Lemma SetTags_withTags (s : span) (m : gmap string TagValue) :
  SetTags s m = withTags s m.
Proof.
  unfold SetTags.
  apply (map_fold_weak_ind (λ r m, r = withTags s m)).
  - unfold withTags. rewrite (left_id_L ∅ _). by destruct s.
  - intros i x m' r _ ->. unfold SetTag, withTags. simpl.
    by rewrite insert_union_l.
Qed.

Lemma StartSpan_stages (cfg : Settings) (t : Tracer) (op : string)
    (opts : list StartSpanOption) (w : World)
    (parent : option (SpanReferenceType * spanContext)) :
  isNoopReference opts = false →
  findParent (References (applyOptions opts)) = Returned parent →
  StartSpan cfg t op opts w =
    if (length opts =? 0)%nat && negb (enableNetTrace cfg) && isNil (getLightstep cfg)
    then Returned (NoopSpanOf t, w)
    else
      match recordingStage parent w with
      | Panicked msg => Panicked msg
      | Returned (rec, w1) =>
          let lsTr := stickyBackend parent (getLightstep cfg) in
          if negb (existsb isRecordable opts) && isNil rec.1 && isNil lsTr
             && negb (enableNetTrace cfg)
          then Returned (NoopSpanOf t, w1)
          else
            match idsStage lsTr op (applyOptions opts) parent w1 with
            | Panicked msg => Panicked msg
            | Returned (ids, w2) =>
                Returned
                  (RealSpan
                     (decorate (enableNetTrace cfg) (negb (isNil lsTr)) op
                        (applyOptions opts) parent rec
                        (setIDs (newSpan t op (startTimeOf (applyOptions opts) w1)) ids)),
                   w2)
            end
      end.
Proof.
  intros H1 H2. unfold StartSpan, recordingStage, idsStage, startTimeOf,
    mbind, M_bind, mret, M_ret, liftOutcome, timeNow.
  rewrite H1, H2.
  destruct (_ && _ && _); [done|]. simpl.
  destruct parent as [[ty P]|].
  - destruct (inheritRecording P w) as [[rec w1]|]; [|done].
    destruct (_ && _ && _ && _); [done|].
    by destruct (StartTime (applyOptions opts) =? 0)%N.
  - destruct (_ && _ && _ && _); [done|].
    by destruct (StartTime (applyOptions opts) =? 0)%N.
Qed.

Lemma StartSpan_returns_scan (cfg : Settings) (t : Tracer) (op : string)
    (opts : list StartSpanOption) (w w' : World) (s : span) :
  StartSpan cfg t op opts w = Returned (RealSpan s, w') →
  isNoopReference opts = false
  ∧ ∃ parent, findParent (References (applyOptions opts)) = Returned parent.
Proof.
  unfold StartSpan, mbind, M_bind, mret, M_ret, liftOutcome.
  destruct (isNoopReference opts); [done|].
  destruct (_ && _ && _); [done|].
  destruct (findParent _) as [parent|]; [|done]. eauto.
Qed.

(** The recording stage returns, and only allocates for a Snowball
    parent. *)
Lemma recordingStage_spec (parent : option (SpanReferenceType * spanContext))
    (w : World) :
  (recordingStage parent w = Returned ((None, NotRecording), w)
   ∧ ∀ ty P, parent = Some (ty, P) → recordingGroup P = None ∧ hasSnowball P = false)
  ∨ (∃ ty P g, parent = Some (ty, P) ∧ recordingGroup P = Some g
       ∧ recordingStage parent w = Returned ((Some g, recordingType P), w))
  ∨ (∃ ty P, parent = Some (ty, P) ∧ recordingGroup P = None ∧ hasSnowball P = true
       ∧ recordingStage parent w
         = Returned ((Some (length (groups w)), SnowballRecording),
                     {| clock := clock w; randSource := randSource w;
                        randCalls := randCalls w; groups := groups w ++ [[]];
                        shadowSpans := shadowSpans w |})).
Proof.
  destruct parent as [[ty P]|]; simpl.
  - unfold inheritRecording.
    destruct (recordingGroup P) as [g|] eqn:Hg.
    { right; left. by exists ty, P, g. }
    destruct (hasSnowball P) eqn:Hs.
    { right; right. by exists ty, P. }
    left. split; [done|]. by intros ty' P' [= <- <-].
  - left. split; [done|]. by intros.
Qed.

(** Our own IDs: one random number with a parent, two without. *)
Lemma ownIDs_spec (parent : option (SpanReferenceType * spanContext)) (w : World) :
  ownIDs parent w =
    Returned ((None,
               match parent with
               | Some (_, P) => TraceID P
               | None => randSource w (S (randCalls w))
               end,
               randSource w (randCalls w)),
              {| clock := clock w; randSource := randSource w;
                 randCalls := match parent with
                              | Some _ => S (randCalls w)
                              | None => S (S (randCalls w))
                              end;
                 groups := groups w; shadowSpans := shadowSpans w |}).
Proof. by destruct parent as [[ty P]|]. Qed.

(** The shadow span: one is started, and its IDs are the ones read
    back. *)
Lemma shadowSpan_spec (ls : Backend) (op : string) (sso : StartSpanOptions)
    (parent : option (SpanReferenceType * spanContext)) (w w' : World)
    (ids : option lsSpan * N * N) :
  shadowSpan ls op sso parent w = Returned (ids, w') →
  ∃ lsOpts,
    ids.1.1 = Some (lsStartSpan ls (length (shadowSpans w)) op lsOpts)
    ∧ getLightstepSpanIDs ls (lsSpanContext ls
        (lsStartSpan ls (length (shadowSpans w)) op lsOpts)) = Returned (ids.1.2, ids.2)
    ∧ w' = {| clock := clock w; randSource := randSource w;
              randCalls := randCalls w; groups := groups w;
              shadowSpans := shadowSpans w ++ [(op, lsOpts)] |}.
Proof.
  unfold shadowSpan, mbind, M_bind, mret, M_ret, panic, liftOutcome, backendStartSpan.
  destruct parent as [[ty P]|].
  - destruct (lightstep P) as [l|]; [|done].
    destruct (getLightstepSpanIDs _ _) as [[tid sid]|] eqn:Hids; [|done]. simpl.
    destruct (negb _); [done|]. intros [= <- <-]. eauto.
  - destruct (getLightstepSpanIDs _ _) as [[tid sid]|] eqn:Hids; [|done]. simpl.
    intros [= <- <-]. eauto.
Qed.

(** X13. When the scan of the references returns, StartSpan returns the
    no-op span (always the one of its Tracer) in exactly two cases: the
    only option is a reference to the no-op context; or the Recordable
    option is absent, the debug feed is off, no backend is in use for the
    span, and the parent found, if any, has neither a recording group nor
    the Snowball item. *)
Theorem StartSpan_noop_iff (cfg : Settings) (t : Tracer) (op : string)
    (opts : list StartSpanOption) (w : World)
    (parent : option (SpanReferenceType * spanContext)) :
  findParent (References (applyOptions opts)) = Returned parent →
  (∃ t' w', StartSpan cfg t op opts w = Returned (NoopSpanOf t', w'))
  ↔ (isNoopReference opts = true
     ∨ (existsb isRecordable opts = false
        ∧ enableNetTrace cfg = false
        ∧ stickyBackend parent (getLightstep cfg) = None
        ∧ ∀ ty P, parent = Some (ty, P) →
            recordingGroup P = None ∧ hasSnowball P = false)).
Proof.
  intros Hscan. destruct (isNoopReference opts) eqn:Hfast.
  { split; [by left|]. intros _. exists t, w. unfold StartSpan. by rewrite Hfast. }
  rewrite (StartSpan_stages cfg t op opts w parent Hfast Hscan).
  split.
  - intros (t' & w' & Hret). right.
    destruct (_ && _ && _) eqn:Hfast2.
    { apply andb_true_iff in Hfast2 as [Hfast2 Hls].
      apply andb_true_iff in Hfast2 as [Hlen Hnet].
      destruct opts; [|done]. simpl in Hscan. simplify_eq.
      destruct (enableNetTrace cfg); [done|].
      destruct (getLightstep cfg); [done|]. by repeat split. }
    destruct (recordingStage_spec parent w)
      as [[Hrec Hp]|[(ty & P & g & -> & Hg & Hrec)|(ty & P & -> & Hg & Hs & Hrec)]];
      rewrite Hrec in Hret; cbn [fst snd isNil] in Hret;
      rewrite ?andb_false_r in Hret; cbn [andb] in Hret.
    + destruct (existsb isRecordable opts); cbn [negb andb] in Hret.
      { by destruct (idsStage _ _ _ _ _) as [[? ?]|]. }
      destruct (stickyBackend parent (getLightstep cfg)); cbn [isNil andb] in Hret.
      { by destruct (idsStage _ _ _ _ _) as [[? ?]|]. }
      destruct (enableNetTrace cfg); cbn [negb] in Hret.
      { by destruct (idsStage _ _ _ _ _) as [[? ?]|]. }
      do 3 (split; [done|]). exact Hp.
    + by destruct (idsStage _ _ _ _ _) as [[? ?]|].
    + by destruct (idsStage _ _ _ _ _) as [[? ?]|].
  - intros [?|(Hr & Hnet & Hls & Hp)]; [done|].
    destruct (_ && _ && _); [by eauto|].
    destruct (recordingStage_spec parent w)
      as [[Hrec _]|[(ty & P & g & -> & Hg & _)|(ty & P & -> & Hg & Hs & _)]].
    + rewrite Hrec. cbn [fst snd isNil]. rewrite Hr, Hnet, Hls. simpl. eauto.
    + destruct (Hp ty P eq_refl). congruence.
    + destruct (Hp ty P eq_refl). congruence.
Qed.

Lemma decorate_fields (netTrace usesBackend : bool) (op : string)
    (sso : StartSpanOptions) (parent : option (SpanReferenceType * spanContext))
    (rec : option groupRef * RecordingType) (s : span) :
  let s' := decorate netTrace usesBackend op sso parent rec s in
  s_tracer s' = s_tracer s ∧ s_operation s' = s_operation s
  ∧ s_startTime s' = s_startTime s ∧ s_duration s' = s_duration s
  ∧ s_TraceID s' = s_TraceID s ∧ s_SpanID s' = s_SpanID s
  ∧ s_lightstep s' = s_lightstep s
  ∧ s_parentSpanID s' = match parent with
                        | Some (_, P) => SpanID P
                        | None => s_parentSpanID s
                        end
  ∧ s_Baggage s' = match parent with
                   | Some (_, P) =>
                       if (0 <? size (Baggage P))%nat then Baggage P else s_Baggage s
                   | None => s_Baggage s
                   end
  ∧ s_netTr s' = (if netTrace
                  then Some {| ntFamily := "tracing"; ntTitle := op;
                               ntMaxEvents := maxLogsPerSpan |}
                  else s_netTr s)
  ∧ s_recordingGroup s' = match rec.1 with
                          | Some g => Some g
                          | None => s_recordingGroup s
                          end
  ∧ s_recordingType s' = match rec.1 with
                         | Some _ => rec.2
                         | None => s_recordingType s
                         end
  ∧ s_tags s' = (if netTrace || usesBackend
                 then (TagString <$> s_Baggage s') ∪ (default ∅ (Tags sso) ∪ s_tags s)
                 else default ∅ (Tags sso) ∪ s_tags s).
Proof.
  unfold decorate. rewrite !SetTags_withTags.
  destruct netTrace, usesBackend, parent as [[ty P]|], rec as [[g|] rt];
    cbn -[union]; rewrite ?SetTags_withTags; repeat split; reflexivity.
Qed.

(** What a call that returns a span went through. *)
Lemma StartSpan_real_inv (cfg : Settings) (t : Tracer) (op : string)
    (opts : list StartSpanOption) (w w' : World) (s : span)
    (parent : option (SpanReferenceType * spanContext)) :
  findParent (References (applyOptions opts)) = Returned parent →
  StartSpan cfg t op opts w = Returned (RealSpan s, w') →
  ∃ rec w1 ids,
    recordingStage parent w = Returned (rec, w1)
    ∧ idsStage (stickyBackend parent (getLightstep cfg)) op (applyOptions opts)
               parent w1 = Returned (ids, w')
    ∧ s = decorate (enableNetTrace cfg)
            (negb (isNil (stickyBackend parent (getLightstep cfg)))) op
            (applyOptions opts) parent rec
            (setIDs (newSpan t op (startTimeOf (applyOptions opts) w1)) ids).
Proof.
  intros Hscan Hret.
  destruct (StartSpan_returns_scan _ _ _ _ _ _ _ Hret) as [Hfast _].
  rewrite (StartSpan_stages cfg t op opts w parent Hfast Hscan) in Hret.
  destruct (_ && _ && _); [done|].
  destruct (recordingStage parent w) as [[rec w1]|]; [|done].
  cbn zeta in Hret. destruct (_ && _ && _ && _); [done|].
  destruct (idsStage _ _ _ _ _) as [[ids w2]|] eqn:Hids; [|done].
  injection Hret as <- <-. by exists rec, w1, ids.
Qed.

Lemma stickyBackend_None (parent : option (SpanReferenceType * spanContext)) :
  stickyBackend parent None = None.
Proof. destruct parent as [[ty P]|]; simpl; [by destruct (isNil _)|done]. Qed.

Lemma recordingStage_returns (parent : option (SpanReferenceType * spanContext))
    (w : World) :
  ∃ rec w1, recordingStage parent w = Returned (rec, w1)
    ∧ clock w1 = clock w ∧ randSource w1 = randSource w
    ∧ randCalls w1 = randCalls w ∧ shadowSpans w1 = shadowSpans w
    ∧ (groups w1 = groups w ∨ groups w1 = (groups w ++ [[]])%list).
Proof.
  destruct (recordingStage_spec parent w)
    as [[Hrec _]|[(ty & P & g & _ & _ & Hrec)|(ty & P & _ & _ & _ & Hrec)]];
    rewrite Hrec; eexists _, _; (split; [reflexivity|]); simpl; auto 10.
Qed.

(** X14. While no backend is configured, StartSpan returns for every
    list of options whose references carry only nil, no-op or span
    contexts of this tracer: it does not panic, and it starts no shadow
    span. *)
Theorem StartSpan_returns (cfg : Settings) (t : Tracer) (op : string)
    (opts : list StartSpanOption) (w : World) :
  getLightstep cfg = None →
  Forall (λ r, ∀ impl, ReferencedContext r ≠ ForeignCtx impl)
         (References (applyOptions opts)) →
  ∃ sp w', StartSpan cfg t op opts w = Returned (sp, w')
           ∧ shadowSpans w' = shadowSpans w.
Proof.
  intros Hls Hown.
  destruct (isNoopReference opts) eqn:Hfast.
  { exists (NoopSpanOf t), w. unfold StartSpan. by rewrite Hfast. }
  destruct (SpanStartFacts.findParent_own _ Hown) as [parent Hscan].
  rewrite (StartSpan_stages cfg t op opts w parent Hfast Hscan).
  destruct (_ && _ && _); [by eauto|].
  destruct (recordingStage_returns parent w) as (rec & w1 & -> & _ & _ & _ & Hsh & _).
  cbn zeta. rewrite Hls, stickyBackend_None.
  destruct (_ && _ && _ && _); [by eauto|].
  unfold idsStage. rewrite ownIDs_spec. eexists _, _. split; [reflexivity|done].
Qed.

(** X15. The Recordable option forces a span: a call with it among its
    options never returns the no-op span. *)
Theorem StartSpan_Recordable (cfg : Settings) (t t' : Tracer) (op : string)
    (opts : list StartSpanOption) (w w' : World) :
  existsb isRecordable opts = true →
  StartSpan cfg t op opts w ≠ Returned (NoopSpanOf t', w').
Proof.
  intros Hrec Hret.
  assert (Hfast : isNoopReference opts = false).
  { destruct opts as [|o [|o' opts]]; [done| |by destruct o].
    destruct o; try done. }
  assert ((length opts =? 0)%nat = false) as Hlen by (by destruct opts).
  destruct (findParent (References (applyOptions opts))) as [parent|msg] eqn:Hscan.
  - rewrite (StartSpan_stages cfg t op opts w parent Hfast Hscan) in Hret.
    rewrite Hlen in Hret. cbn [andb] in Hret.
    destruct (recordingStage parent w) as [[rec w1]|]; [|done].
    rewrite Hrec in Hret. cbn [negb andb] in Hret.
    by destruct (idsStage _ _ _ _ _) as [[? ?]|].
  - unfold StartSpan, mbind, M_bind, liftOutcome in Hret.
    rewrite Hfast, Hscan, Hlen in Hret. done.
Qed.

(** X16. A span that has no shadow span in the backend gets a random
    span ID; its trace ID is that of the parent found, or a second random
    number when there is none; its parent span ID is the span ID of the
    parent, or zero. The call draws exactly these random numbers. *)
Theorem StartSpan_own_ids (cfg : Settings) (t : Tracer) (op : string)
    (opts : list StartSpanOption) (w w' : World) (s : span)
    (parent : option (SpanReferenceType * spanContext)) :
  findParent (References (applyOptions opts)) = Returned parent →
  stickyBackend parent (getLightstep cfg) = None →
  StartSpan cfg t op opts w = Returned (RealSpan s, w') →
  s_lightstep s = None
  ∧ s_SpanID s = randSource w (randCalls w)
  ∧ s_TraceID s = match parent with
                  | Some (_, P) => TraceID P
                  | None => randSource w (S (randCalls w))
                  end
  ∧ s_parentSpanID s = match parent with
                       | Some (_, P) => SpanID P
                       | None => 0%N
                       end
  ∧ randCalls w' = match parent with
                   | Some _ => S (randCalls w)
                   | None => S (S (randCalls w))
                   end.
Proof.
  intros Hscan Hls Hret.
  destruct (StartSpan_real_inv _ _ _ _ _ _ _ _ Hscan Hret)
    as (rec & w1 & ids & Hrec & Hids & ->).
  destruct (recordingStage_returns parent w)
    as (rec' & w1' & Hrec' & _ & Hsrc & Hcalls & _).
  rewrite Hrec in Hrec'. injection Hrec' as <- <-.
  rewrite Hls in Hids. unfold idsStage in Hids. rewrite ownIDs_spec in Hids.
  injection Hids as <- <-.
  match goal with |- context [decorate ?a ?b ?c ?d ?e ?f ?g] =>
    destruct (decorate_fields a b c d e f g)
      as (_ & _ & _ & _ & HT & HS & HL & HP & _) end.
  rewrite HT, HS, HL, HP. simpl. rewrite Hsrc, Hcalls.
  by destruct parent as [[ty P]|].
Qed.

(** X17. A span StartSpan returns has the baggage of the parent found,
    and no baggage when there is none. *)
Theorem StartSpan_baggage (cfg : Settings) (t : Tracer) (op : string)
    (opts : list StartSpanOption) (w w' : World) (s : span)
    (parent : option (SpanReferenceType * spanContext)) :
  findParent (References (applyOptions opts)) = Returned parent →
  StartSpan cfg t op opts w = Returned (RealSpan s, w') →
  s_Baggage s = match parent with
                | Some (_, P) => Baggage P
                | None => ∅
                end.
Proof.
  intros Hscan Hret.
  destruct (StartSpan_real_inv _ _ _ _ _ _ _ _ Hscan Hret)
    as (rec & w1 & ids & _ & _ & ->).
  match goal with |- context [decorate ?a ?b ?c ?d ?e ?f ?g] =>
    destruct (decorate_fields a b c d e f g)
      as (_ & _ & _ & _ & _ & _ & _ & _ & HB & _) end.
  rewrite HB. destruct parent as [[ty P]|]; [|done]. simpl.
  destruct (0 <? size (Baggage P))%nat eqn:Hsz; [done|].
  apply Nat.ltb_ge in Hsz. symmetry. apply map_size_empty_iff. lia.
Qed.

Lemma idsStage_shadow (lsTr : option Backend) (op : string) (sso : StartSpanOptions)
    (parent : option (SpanReferenceType * spanContext)) (w w' : World)
    (ids : option lsSpan * N * N) :
  idsStage lsTr op sso parent w = Returned (ids, w') →
  (lsTr = None ∧ ids.1.1 = None ∧ shadowSpans w' = shadowSpans w
   ∧ groups w' = groups w ∧ clock w' = clock w ∧ randSource w' = randSource w
   ∧ (randCalls w < randCalls w' ≤ randCalls w + 2)%nat)
  ∨ (∃ ls lsOpts, lsTr = Some ls
       ∧ ids.1.1 = Some (lsStartSpan ls (length (shadowSpans w)) op lsOpts)
       ∧ getLightstepSpanIDs ls (lsSpanContext ls
           (lsStartSpan ls (length (shadowSpans w)) op lsOpts))
         = Returned (ids.1.2, ids.2)
       ∧ shadowSpans w' = (shadowSpans w ++ [(op, lsOpts)])%list
       ∧ groups w' = groups w ∧ clock w' = clock w ∧ randSource w' = randSource w
       ∧ randCalls w' = randCalls w).
Proof.
  destruct lsTr as [ls|]; simpl.
  - intros (lsOpts & H1 & H2 & ->)%shadowSpan_spec. right.
    exists ls, lsOpts. by repeat split.
  - rewrite ownIDs_spec. intros [= <- <-]. left. simpl.
    repeat split; try done; destruct parent; lia.
Qed.

(** X18. A span StartSpan returns with a shadow span has a trace ID and a
    span ID other than zero, both in 64 bits, and the call started exactly
    one shadow span in the backend, under the operation name of the
    span. *)
Theorem StartSpan_shadow_ids (cfg : Settings) (t : Tracer) (op : string)
    (opts : list StartSpanOption) (w w' : World) (s : span) (sp : lsSpan) :
  StartSpan cfg t op opts w = Returned (RealSpan s, w') →
  s_lightstep s = Some sp →
  s_TraceID s ≠ 0%N ∧ s_SpanID s ≠ 0%N
  ∧ (s_TraceID s < 2 ^ 64)%N ∧ (s_SpanID s < 2 ^ 64)%N
  ∧ ∃ lsOpts, shadowSpans w' = (shadowSpans w ++ [(op, lsOpts)])%list.
Proof.
  intros Hret Hsp.
  destruct (StartSpan_returns_scan _ _ _ _ _ _ _ Hret) as [_ [parent Hscan]].
  destruct (StartSpan_real_inv _ _ _ _ _ _ _ _ Hscan Hret)
    as (rec & w1 & ids & Hrec & Hids & ->).
  destruct (recordingStage_returns parent w)
    as (rec' & w1' & Hrec' & _ & _ & _ & Hsh & _).
  rewrite Hrec in Hrec'. injection Hrec' as <- <-.
  revert Hsp.
  match goal with |- context [decorate ?a ?b ?c ?d ?e ?f ?g] =>
    destruct (decorate_fields a b c d e f g)
      as (_ & _ & _ & _ & HT & HS & HL & _) end.
  rewrite HT, HS, HL. simpl. intros Hsp.
  apply idsStage_shadow in Hids
    as [(_ & Hn & _)|(ls & lsOpts & _ & _ & Hg & Hw & _)]; [congruence|].
  apply getLightstepSpanIDs_ids in Hg as (? & ? & ? & ?).
  repeat split; try done. exists lsOpts. by rewrite Hw, Hsh.
Qed.

(** X19. The tags of a span StartSpan returns: when the debug feed is on
    or the span has a shadow span, every baggage item is a tag of the
    span, as a string; any other key has the tag given for it in the
    options, if any; and when neither sink is in use the tags are exactly
    those of the options. *)
Theorem StartSpan_tags (cfg : Settings) (t : Tracer) (op : string)
    (opts : list StartSpanOption) (w w' : World) (s : span) :
  StartSpan cfg t op opts w = Returned (RealSpan s, w') →
  (enableNetTrace cfg = true ∨ s_lightstep s ≠ None →
   ∀ k v, s_Baggage s !! k = Some v → s_tags s !! k = Some (TagString v))
  ∧ (∀ k, s_Baggage s !! k = None →
          s_tags s !! k = default ∅ (Tags (applyOptions opts)) !! k)
  ∧ (enableNetTrace cfg = false → s_lightstep s = None →
     s_tags s = default ∅ (Tags (applyOptions opts))).
Proof.
  intros Hret.
  destruct (StartSpan_returns_scan _ _ _ _ _ _ _ Hret) as [_ [parent Hscan]].
  destruct (StartSpan_real_inv _ _ _ _ _ _ _ _ Hscan Hret)
    as (rec & w1 & ids & _ & Hids & ->).
  match goal with |- context [decorate ?a ?b ?c ?d ?e ?f ?g] =>
    destruct (decorate_fields a b c d e f g)
      as (_ & _ & _ & _ & _ & _ & HL & _ & _ & _ & _ & _ & Htags) end.
  rewrite HL, Htags. simpl.
  rewrite !(right_id_L (∅ : gmap string TagValue) (∪)).
  assert (Hub : isNil (stickyBackend parent (getLightstep cfg)) = isNil ids.1.1).
  { apply idsStage_shadow in Hids
      as [(-> & -> & _)|(ls & lsOpts & -> & -> & _)]; done. }
  rewrite Hub.
  split; [|split].
  - intros Hsink k v Hk.
    assert (enableNetTrace cfg || negb (isNil ids.1.1) = true) as ->.
    { destruct Hsink as [->|Hl]; [done|]. destruct ids.1.1; [|done].
      by rewrite orb_true_r. }
    apply lookup_union_Some_l. by rewrite lookup_fmap, Hk.
  - intros k Hk. destruct (enableNetTrace cfg || negb (isNil ids.1.1)); [|done].
    rewrite lookup_union_r; [done|]. by rewrite lookup_fmap, Hk.
  - intros -> ->. done.
Qed.

(** X20. The fields StartSpan fixes on a span it returns: its tracer and
    operation name, the duration [-1], the start time given as an option
    or else the time of the call, and a net-trace handle exactly when the
    debug feed is on, titled with the operation and limited to
    maxLogsPerSpan events. *)
Theorem StartSpan_fixed_fields (cfg : Settings) (t : Tracer) (op : string)
    (opts : list StartSpanOption) (w w' : World) (s : span) :
  StartSpan cfg t op opts w = Returned (RealSpan s, w') →
  s_tracer s = t ∧ s_operation s = op ∧ s_duration s = (-1)%Z
  ∧ s_startTime s = (if (StartTime (applyOptions opts) =? 0)%N
                     then clock w else StartTime (applyOptions opts))
  ∧ s_netTr s = (if enableNetTrace cfg
                 then Some {| ntFamily := "tracing"; ntTitle := op;
                              ntMaxEvents := 1000 |}
                 else None).
Proof.
  intros Hret.
  destruct (StartSpan_returns_scan _ _ _ _ _ _ _ Hret) as [_ [parent Hscan]].
  destruct (StartSpan_real_inv _ _ _ _ _ _ _ _ Hscan Hret)
    as (rec & w1 & ids & Hrec & _ & ->).
  destruct (recordingStage_returns parent w)
    as (rec' & w1' & Hrec' & Hclock & _).
  rewrite Hrec in Hrec'. injection Hrec' as <- <-.
  match goal with |- context [decorate ?a ?b ?c ?d ?e ?f ?g] =>
    destruct (decorate_fields a b c d e f g)
      as (H1 & H2 & H3 & H4 & _ & _ & _ & _ & _ & H5 & _) end.
  rewrite H1, H2, H3, H4, H5. simpl. unfold startTimeOf. by rewrite Hclock.
Qed.

(** X21. A span StartSpan returns is bound to a recording group only
    through its parent: the group is the one of the parent found, with
    the parent's recording type, or a group allocated by the call for a
    parent with the Snowball item; a span without parent is bound to
    none. *)
Theorem StartSpan_recording_source (cfg : Settings) (t : Tracer) (op : string)
    (opts : list StartSpanOption) (w w' : World) (s : span) (g : groupRef) :
  StartSpan cfg t op opts w = Returned (RealSpan s, w') →
  s_recordingGroup s = Some g →
  ∃ ty P, findParent (References (applyOptions opts)) = Returned (Some (ty, P))
    ∧ ((recordingGroup P = Some g ∧ s_recordingType s = recordingType P)
       ∨ (recordingGroup P = None ∧ hasSnowball P = true
          ∧ g = length (groups w) ∧ s_recordingType s = SnowballRecording)).
Proof.
  intros Hret.
  destruct (StartSpan_returns_scan _ _ _ _ _ _ _ Hret) as [_ [parent Hscan]].
  destruct (StartSpan_real_inv _ _ _ _ _ _ _ _ Hscan Hret)
    as (rec & w1 & ids & Hrec & _ & ->).
  match goal with |- context [decorate ?a ?b ?c ?d ?e ?f ?g] =>
    destruct (decorate_fields a b c d e f g)
      as (_ & _ & _ & _ & _ & _ & _ & _ & _ & _ & HG & HR & _) end.
  rewrite HG, HR. simpl.
  destruct (recordingStage_spec parent w)
    as [[Hrec' _]|[(ty & P & g' & -> & Hg & Hrec')|(ty & P & -> & Hg & Hs & Hrec')]];
    rewrite Hrec in Hrec'; injection Hrec' as -> ->; simpl; [done|..];
    intros [= <-]; exists ty, P; (split; [done|]); auto.
Qed.

(** X22. A StartSpan call that returns has drawn at most two random
    numbers, allocated at most one recording group, empty, after the
    existing ones, and started at most one shadow span, under the
    operation name of the call; when it returns the no-op span it has
    done none of these. *)
Theorem StartSpan_effects (cfg : Settings) (t : Tracer) (op : string)
    (opts : list StartSpanOption) (w w' : World) (sp : Span) :
  StartSpan cfg t op opts w = Returned (sp, w') →
  (randCalls w ≤ randCalls w' ≤ randCalls w + 2)%nat
  ∧ (groups w' = groups w ∨ groups w' = (groups w ++ [[]])%list)
  ∧ (shadowSpans w' = shadowSpans w
     ∨ ∃ lsOpts, shadowSpans w' = (shadowSpans w ++ [(op, lsOpts)])%list)
  ∧ (∀ t', sp = NoopSpanOf t' →
       randCalls w' = randCalls w ∧ groups w' = groups w
       ∧ shadowSpans w' = shadowSpans w).
Proof.
  intros Hret.
  assert (Hsame : w' = w →
            (randCalls w ≤ randCalls w' ≤ randCalls w + 2)%nat
            ∧ (groups w' = groups w ∨ groups w' = (groups w ++ [[]])%list)
            ∧ (shadowSpans w' = shadowSpans w
               ∨ ∃ lsOpts, shadowSpans w' = (shadowSpans w ++ [(op, lsOpts)])%list)
            ∧ (∀ t', sp = NoopSpanOf t' →
                 randCalls w' = randCalls w ∧ groups w' = groups w
                 ∧ shadowSpans w' = shadowSpans w)).
  { intros ->. repeat split; auto; lia. }
  destruct (isNoopReference opts) eqn:Hfast.
  { unfold StartSpan in Hret. rewrite Hfast in Hret. injection Hret as <- <-. auto. }
  destruct (findParent (References (applyOptions opts))) as [parent|msg] eqn:Hscan.
  2:{ unfold StartSpan, mbind, M_bind, liftOutcome in Hret.
      rewrite Hfast, Hscan in Hret.
      destruct (_ && _ && _); [|done]. injection Hret as <- <-. auto. }
  rewrite (StartSpan_stages cfg t op opts w parent Hfast Hscan) in Hret.
  destruct (_ && _ && _); [injection Hret as <- <-; auto|].
  destruct (recordingStage_returns parent w)
    as (rec & w1 & Hrec & Hc & Hr & Hn & Hsh & Hg).
  rewrite Hrec in Hret. cbn zeta in Hret.
  destruct (negb (existsb isRecordable opts) && isNil rec.1
            && isNil (stickyBackend parent (getLightstep cfg))
            && negb (enableNetTrace cfg)) eqn:Hshort.
  { injection Hret as <- <-. apply Hsame.
    apply andb_true_iff in Hshort as [Hshort _].
    apply andb_true_iff in Hshort as [Hshort _].
    apply andb_true_iff in Hshort as [_ Hnil].
    destruct (recordingStage_spec parent w)
      as [[Hrec' _]|[(ty & P & g & _ & _ & Hrec')|(ty & P & _ & _ & _ & Hrec')]];
      rewrite Hrec in Hrec'; injection Hrec' as -> ->; done. }
  destruct (idsStage _ _ _ _ _) as [[ids w2]|] eqn:Hids; [|done].
  injection Hret as <- <-.
  apply idsStage_shadow in Hids
    as [(_ & _ & Hsh2 & Hg2 & Hc2 & Hr2 & Hn2)
       |(ls & lsOpts & _ & _ & _ & Hsh2 & Hg2 & Hc2 & Hr2 & Hn2)];
    rewrite Hg2, Hsh2, Hsh; repeat split; eauto; try lia; done.
Qed.

(** *** The type of the parent reference *)

Lemma Apply_retype (o : StartSpanOption) (sso : StartSpanOptions) :
  Apply (asFollowsFrom o) (retypeOptions sso) = retypeOptions (Apply o sso).
Proof.
  destruct o; try done. unfold retypeOptions. simpl. by rewrite fmap_app.
Qed.

Lemma applyOptions_retype (opts : list StartSpanOption) :
  applyOptions (asFollowsFrom <$> opts) = retypeOptions (applyOptions opts).
Proof.
  unfold applyOptions.
  change {| References := []; StartTime := 0%N; Tags := None |}
    with (retypeOptions {| References := []; StartTime := 0%N; Tags := None |}) at 1.
  generalize {| References := []; StartTime := 0%N; Tags := None |}.
  induction opts as [|o opts IH]; intros sso; simpl; [done|].
  by rewrite Apply_retype, IH.
Qed.

Lemma findParent_retype (refs : list SpanReference) :
  findParent (retypeRef <$> refs) =
    match findParent refs with
    | Returned parent => Returned (retypeParent parent)
    | Panicked msg => Panicked msg
    end.
Proof.
  induction refs as [|[ty c] refs IH]; simpl; [done|].
  assert (isParentType (retypeKind ty) = isParentType ty) as -> by (by destruct ty).
  destruct (isParentType ty); simpl; [|done]. by destruct c.
Qed.

Lemma options_retype (opts : list StartSpanOption) :
  isNoopReference (asFollowsFrom <$> opts) = isNoopReference opts
  ∧ existsb isRecordable (asFollowsFrom <$> opts) = existsb isRecordable opts
  ∧ length (asFollowsFrom <$> opts) = length opts.
Proof.
  split; [|split].
  - destruct opts as [|o [|o' opts]]; [done| |by destruct o].
    by destruct o.
  - induction opts as [|o opts IH]; [done|]. rewrite fmap_cons.
    cbn [existsb]. rewrite IH. by destruct o.
  - apply length_fmap.
Qed.

(** X23. While no backend is configured, StartSpan does not look at the
    type of a parent reference: turning every ChildOf reference of the
    options into a FollowsFrom reference changes neither what the call
    returns nor what it leaves behind. *)
Theorem StartSpan_reference_type (cfg : Settings) (t : Tracer) (op : string)
    (opts : list StartSpanOption) (w : World) :
  getLightstep cfg = None →
  StartSpan cfg t op (asFollowsFrom <$> opts) w = StartSpan cfg t op opts w.
Proof.
  intros Hls.
  destruct (options_retype opts) as (Hfast & Hrec & Hlen).
  destruct (isNoopReference opts) eqn:Hnoop.
  { unfold StartSpan. by rewrite Hfast, Hnoop. }
  destruct (findParent (References (applyOptions opts))) as [parent|msg] eqn:Hscan.
  - assert (Hscan' : findParent (References (applyOptions (asFollowsFrom <$> opts)))
                     = Returned (retypeParent parent)).
    { rewrite applyOptions_retype. simpl. by rewrite findParent_retype, Hscan. }
    rewrite (StartSpan_stages cfg t op _ w _ Hfast Hscan').
    rewrite (StartSpan_stages cfg t op opts w parent Hnoop Hscan).
    rewrite Hrec, Hlen, Hls, !stickyBackend_None, applyOptions_retype.
    destruct (_ && _ && _); [done|].
    assert (recordingStage (retypeParent parent) w = recordingStage parent w) as ->
      by (by destruct parent as [[ty P]|]).
    destruct (recordingStage parent w) as [[rec w1]|]; [|done]. cbn zeta.
    destruct (_ && _ && _ && _); [done|].
    unfold idsStage. rewrite !ownIDs_spec.
    destruct parent as [[ty P]|]; reflexivity.
  - unfold StartSpan, mbind, M_bind, liftOutcome.
    rewrite Hfast, Hnoop, Hlen, Hls, applyOptions_retype.
    change (References (retypeOptions (applyOptions opts)))
      with (retypeRef <$> References (applyOptions opts)).
    rewrite findParent_retype, Hscan. by destruct (_ && _ && _).
Qed.

(** *** The properties on sample calls *)

(** The sample backend sets the trace ID [a] and the span ID [b]. *)
Lemma getLightstepSpanIDs_nonzero_witness :
  (lsInject fixedBackend 0).2 = None
  ∧ 10%N ≠ 0%N ∧ 11%N ≠ 0%N ∧ (10 < 2 ^ 64)%N ∧ (11 < 2 ^ 64)%N.
Proof.
  apply (getLightstepSpanIDs_nonzero fixedBackend 0 10 11).
  vm_compute. reflexivity.
Defined.

Lemma getLightstepSpanIDs_exact_keys_witness :
  ∃ msg, getLightstepSpanIDs upperCaseBackend 0 = Panicked msg.
Proof.
  apply getLightstepSpanIDs_exact_keys. left.
  repeat constructor; discriminate.
Defined.

Lemma getLightstepSpanIDs_reads_witness :
  getLightstepSpanIDs fixedBackend 0 = Returned (10%N, 11%N).
Proof.
  apply (getLightstepSpanIDs_reads fixedBackend 0 10 11
           [(fieldNameTraceID, "a"); (fieldNameSpanID, "b")] eq_refl).
  - reflexivity.
  - reflexivity.
  - discriminate.
  - discriminate.
  - repeat constructor; simpl; first [reflexivity | discriminate].
  - vm_compute. left.
  - vm_compute. right. left.
Defined.

(** A child of a plain parent, with every sink off. *)
Lemma StartSpan_noop_iff_witness :
  ∃ t' w', StartSpan noSinks sampleTracer "op" [ChildOf (SpanCtx plainParent)]
             sampleWorld = Returned (NoopSpanOf t', w').
Proof.
  apply (proj2 (StartSpan_noop_iff noSinks sampleTracer "op"
                  [ChildOf (SpanCtx plainParent)] sampleWorld
                  (Some (ChildOfRef, plainParent)) eq_refl)).
  right. split; [reflexivity|]. split; [reflexivity|]. split; [reflexivity|].
  intros ty P' [= <- <-]. split; reflexivity.
Defined.

Lemma StartSpan_returns_witness :
  ∃ sp w', StartSpan noSinks sampleTracer "op" [ChildOf (SpanCtx recordedParent)]
             sampleWorld = Returned (sp, w')
           ∧ shadowSpans w' = shadowSpans sampleWorld.
Proof.
  apply (StartSpan_returns noSinks sampleTracer "op"
           [ChildOf (SpanCtx recordedParent)] sampleWorld eq_refl).
  repeat constructor. discriminate.
Defined.

Lemma StartSpan_Recordable_witness :
  StartSpan noSinks sampleTracer "op" [Recordable] sampleWorld
  ≠ Returned (NoopSpanOf sampleTracer, sampleWorld).
Proof. apply StartSpan_Recordable. reflexivity. Defined.

(** A child of the recorded parent, with every sink off. *)
Lemma StartSpan_own_ids_witness :
  match StartSpan noSinks sampleTracer "op" [ChildOf (SpanCtx recordedParent)]
                  sampleWorld with
  | Returned (RealSpan s, w') =>
      s_SpanID s = 11%N ∧ s_TraceID s = 5%N ∧ s_parentSpanID s = 7%N
      ∧ randCalls w' = 1
  | _ => False
  end.
Proof.
  destruct (StartSpan noSinks sampleTracer "op" [ChildOf (SpanCtx recordedParent)]
                      sampleWorld) as [[[t'|s] w']|msg] eqn:E;
    try (vm_compute in E; discriminate).
  destruct (StartSpan_own_ids noSinks sampleTracer "op"
              [ChildOf (SpanCtx recordedParent)] sampleWorld w' s
              (Some (ChildOfRef, recordedParent)) eq_refl eq_refl E)
    as (_ & H1 & H2 & H3 & H4).
  by rewrite H1, H2, H3, H4.
Defined.

Lemma StartSpan_baggage_witness :
  match StartSpan noSinks sampleTracer "op" [ChildOf (SpanCtx recordedParent)]
                  sampleWorld with
  | Returned (RealSpan s, _) => s_Baggage s = {[ "user" := "42" ]}
  | _ => False
  end.
Proof.
  destruct (StartSpan noSinks sampleTracer "op" [ChildOf (SpanCtx recordedParent)]
                      sampleWorld) as [[[t'|s] w']|msg] eqn:E;
    try (vm_compute in E; discriminate).
  exact (StartSpan_baggage noSinks sampleTracer "op"
           [ChildOf (SpanCtx recordedParent)] sampleWorld w' s
           (Some (ChildOfRef, recordedParent)) eq_refl E).
Defined.

(** A root span with the sample backend configured. *)
Lemma StartSpan_shadow_ids_witness :
  match StartSpan backendOnly sampleTracer "op" [] sampleWorld with
  | Returned (RealSpan s, w') =>
      s_TraceID s ≠ 0%N ∧ s_SpanID s ≠ 0%N
      ∧ ∃ lsOpts, shadowSpans w' = [("op", lsOpts)]
  | _ => False
  end.
Proof.
  destruct (StartSpan backendOnly sampleTracer "op" [] sampleWorld)
    as [[[t'|s] w']|msg] eqn:E; try (vm_compute in E; discriminate).
  assert (Hls : s_lightstep s = Some 0) by (vm_compute in E; by injection E as <- _).
  destruct (StartSpan_shadow_ids backendOnly sampleTracer "op" [] sampleWorld w' s 0
              E Hls) as (H1 & H2 & _ & _ & H3).
  done.
Defined.

(** A child of the recorded parent with one tag, the debug feed on. *)
Lemma StartSpan_tags_witness :
  match StartSpan feedOnly sampleTracer "op"
          [ChildOf (SpanCtx recordedParent); OptTag "k" (TagString "v")]
          sampleWorld with
  | Returned (RealSpan s, _) =>
      (∀ k v, s_Baggage s !! k = Some v → s_tags s !! k = Some (TagString v))
      ∧ (s_Baggage s !! "k" = None → s_tags s !! "k" = Some (TagString "v"))
  | _ => False
  end.
Proof.
  destruct (StartSpan feedOnly sampleTracer "op"
              [ChildOf (SpanCtx recordedParent); OptTag "k" (TagString "v")]
              sampleWorld) as [[[t'|s] w']|msg] eqn:E;
    try (vm_compute in E; discriminate).
  destruct (StartSpan_tags feedOnly sampleTracer "op"
              [ChildOf (SpanCtx recordedParent); OptTag "k" (TagString "v")]
              sampleWorld w' s E) as (H1 & H2 & _).
  split; [apply H1; by left|]. intros Hk. rewrite (H2 _ Hk). reflexivity.
Defined.

Lemma StartSpan_fixed_fields_witness :
  match StartSpan feedOnly sampleTracer "op" [OptStartTime 42%N] sampleWorld with
  | Returned (RealSpan s, _) =>
      s_tracer s = sampleTracer ∧ s_operation s = "op" ∧ s_duration s = (-1)%Z
      ∧ s_startTime s = 42%N
      ∧ s_netTr s = Some {| ntFamily := "tracing"; ntTitle := "op";
                            ntMaxEvents := 1000 |}
  | _ => False
  end.
Proof.
  destruct (StartSpan feedOnly sampleTracer "op" [OptStartTime 42%N] sampleWorld)
    as [[[t'|s] w']|msg] eqn:E; try (vm_compute in E; discriminate).
  exact (StartSpan_fixed_fields feedOnly sampleTracer "op" [OptStartTime 42%N]
           sampleWorld w' s E).
Defined.

(** A child of the recorded parent is bound to the parent's group 3. *)
Lemma StartSpan_recording_source_witness :
  match StartSpan noSinks sampleTracer "op" [ChildOf (SpanCtx recordedParent)]
                  sampleWorld with
  | Returned (RealSpan s, _) =>
      ∃ ty P, findParent (References (applyOptions [ChildOf (SpanCtx recordedParent)]))
              = Returned (Some (ty, P))
        ∧ ((recordingGroup P = Some 3 ∧ s_recordingType s = recordingType P)
           ∨ (recordingGroup P = None ∧ hasSnowball P = true
              ∧ 3 = length (groups sampleWorld)
              ∧ s_recordingType s = SnowballRecording))
  | _ => False
  end.
Proof.
  destruct (StartSpan noSinks sampleTracer "op" [ChildOf (SpanCtx recordedParent)]
                      sampleWorld) as [[[t'|s] w']|msg] eqn:E;
    try (vm_compute in E; discriminate).
  apply (StartSpan_recording_source noSinks sampleTracer "op"
           [ChildOf (SpanCtx recordedParent)] sampleWorld w' s 3 E).
  vm_compute in E. by injection E as <- _.
Defined.

(** A child of the parent with the Snowball item. *)
Lemma StartSpan_effects_witness :
  match StartSpan noSinks sampleTracer "op" [ChildOf (SpanCtx snowballParent)]
                  sampleWorld with
  | Returned (_, w') =>
      (0 ≤ randCalls w' ≤ 2)%nat
      ∧ (groups w' = groups sampleWorld
         ∨ groups w' = (groups sampleWorld ++ [[]])%list)
      ∧ (shadowSpans w' = []
         ∨ ∃ lsOpts, shadowSpans w' = [("op", lsOpts)])
  | _ => False
  end.
Proof.
  destruct (StartSpan noSinks sampleTracer "op" [ChildOf (SpanCtx snowballParent)]
                      sampleWorld) as [[sp w']|msg] eqn:E;
    try (vm_compute in E; discriminate).
  destruct (StartSpan_effects noSinks sampleTracer "op"
              [ChildOf (SpanCtx snowballParent)] sampleWorld w' sp E)
    as (H1 & H2 & H3 & _).
  done.
Defined.

Lemma StartSpan_reference_type_witness :
  StartSpan noSinks sampleTracer "op" [FollowsFrom (SpanCtx recordedParent)]
            sampleWorld
  = StartSpan noSinks sampleTracer "op" [ChildOf (SpanCtx recordedParent)]
              sampleWorld.
Proof.
  exact (StartSpan_reference_type noSinks sampleTracer "op"
           [ChildOf (SpanCtx recordedParent)] sampleWorld eq_refl).
Defined.

End SpanStartExtras.

(** ** Properties of the context helpers *)

Module ContextExtras.
Import GoStrings Strconv Tracing SpanStart StrconvFacts PropagationFacts.
Import TracingAux SpanStartAux SpanStartExtras ContextHelpers.

(** A span started with one reference of a parent type to a context of
    this package. *)
Lemma StartSpan_of_parent (cfg : Settings) (t : Tracer) (op : string)
    (ty : SpanReferenceType) (P : spanContext) (w w' : World) (c : span) :
  isParentType ty = true →
  StartSpan cfg t op
    [OptSpanReference {| RefType := ty; ReferencedContext := SpanCtx P |}] w
    = Returned (RealSpan c, w') →
  s_tracer c = t ∧ s_operation c = op ∧ s_TraceID c = TraceID P
  ∧ s_parentSpanID c = SpanID P ∧ s_Baggage c = Baggage P.
Proof.
  intros Hty Hret.
  assert (Hscan : findParent (References (applyOptions
            [OptSpanReference {| RefType := ty; ReferencedContext := SpanCtx P |}]))
          = Returned (Some (ty, P))).
  { cbn. by rewrite Hty. }
  destruct (StartSpan_real_inv _ _ _ _ _ _ _ _ Hscan Hret)
    as (rec & w1 & ids & _ & Hids & ->).
  match goal with |- context [decorate ?a ?b ?c ?d ?e ?f ?g] =>
    destruct (decorate_fields a b c d e f g)
      as (H1 & H2 & _ & _ & HT & _ & _ & HP & HB & _) end.
  rewrite H1, H2, HT, HP, HB. simpl. repeat split.
  - unfold idsStage in Hids.
    destruct (stickyBackend _ _) as [ls|].
    + by destruct (SpanStartFacts.shadowSpan_parent _ _ _ _ _ _ _ _ Hids).
    + rewrite ownIDs_spec in Hids. by injection Hids as <- _.
  - destruct (0 <? size (Baggage P))%nat eqn:Hsz; [done|].
    apply Nat.ltb_ge in Hsz. symmetry. apply map_size_empty_iff. lia.
Qed.

Section Helpers.

Variable cfg : Settings.
Variable spanContextOf : Span → SpanContext.

(** X24. While no backend is configured, ForkCtxSpan and ChildSpan are the
    same function: they return the same context and span and leave the
    same state behind, whatever the context holds. *)
Theorem ForkCtxSpan_ChildSpan (ctx : Context) (opName : string) (w : World) :
  getLightstep cfg = None →
  ForkCtxSpan cfg spanContextOf ctx opName w
  = ChildSpan cfg spanContextOf ctx opName w.
Proof.
  intros Hls. unfold ForkCtxSpan, ChildSpan.
  destruct (SpanFromContext ctx) as [sp|]; [|done].
  destruct (IsNoopSpan sp); [done|].
  unfold mbind, M_bind. cbn zeta.
  assert (StartSpan cfg (spanTracer sp) opName [FollowsFrom (spanContextOf sp)] w
          = StartSpan cfg (spanTracer sp) opName [ChildOf (spanContextOf sp)] w) as ->;
    [|done].
  destruct (spanContextOf sp) as [| |P|impl];
    [unfold StartSpan; by rewrite Hls..| |unfold StartSpan; by rewrite Hls].
  rewrite (StartSpan_stages cfg _ opName [FollowsFrom (SpanCtx P)] w
             (Some (FollowsFromRef, P)) eq_refl eq_refl).
  rewrite (StartSpan_stages cfg _ opName [ChildOf (SpanCtx P)] w
             (Some (ChildOfRef, P)) eq_refl eq_refl).
  rewrite Hls, !stickyBackend_None. reflexivity.
Qed.

(** X25. A real span that ChildSpan or ForkCtxSpan returns for a span
    whose context is one of this package is what the returned context
    holds; it has the tracer of the span in the context given, the given
    operation name, and the trace ID, the span ID (as parent span ID) and
    the baggage of that span's context. Everything else in the context is
    kept. *)
Theorem helper_span_linked (ctx ctx' : Context) (opName : string) (w w' : World)
    (sp : Span) (P : spanContext) (c : span) :
  SpanFromContext ctx = Some sp →
  spanContextOf sp = SpanCtx P →
  ChildSpan cfg spanContextOf ctx opName w = Returned ((ctx', Some (RealSpan c)), w')
  ∨ ForkCtxSpan cfg spanContextOf ctx opName w
    = Returned ((ctx', Some (RealSpan c)), w') →
  IsNoopSpan sp = false
  ∧ SpanFromContext ctx' = Some (RealSpan c)
  ∧ otherValues ctx' = otherValues ctx
  ∧ s_tracer c = spanTracer sp ∧ s_operation c = opName
  ∧ s_TraceID c = TraceID P ∧ s_parentSpanID c = SpanID P
  ∧ s_Baggage c = Baggage P.
Proof.
  intros Hsp HP Hret.
  unfold ChildSpan, ForkCtxSpan, ChildOf, FollowsFrom in Hret.
  rewrite Hsp, HP in Hret.
  destruct (IsNoopSpan sp) eqn:Hnoop.
  { destruct sp as [t|s]; [|done].
    destruct Hret as [Hret|Hret]; by injection Hret. }
  split; [done|].
  unfold mbind, M_bind, mret, M_ret in Hret. cbn zeta in Hret.
  destruct Hret as [Hret|Hret].
  - destruct (StartSpan _ _ _ _ w) as [[child w1]|] eqn:Hstart; [|done].
    injection Hret as <- -> <-.
    split; [done|]. split; [done|].
    by apply (StartSpan_of_parent _ _ _ ChildOfRef _ _ _ _ eq_refl Hstart).
  - destruct (StartSpan _ _ _ _ w) as [[child w1]|] eqn:Hstart; [|done].
    injection Hret as <- -> <-.
    split; [done|]. split; [done|].
    by apply (StartSpan_of_parent _ _ _ FollowsFromRef _ _ _ _ eq_refl Hstart).
Qed.

(** X26. While no backend is configured, EnsureContext returns, and the
    context it returns holds a span and keeps everything else. A context
    that holds a span is returned as it is, with the closure that does
    nothing and no effect. Otherwise the closure finishes the span of the
    returned context: with the debug feed off that is the no-op span of
    the tracer given and nothing else happens, with the debug feed on it
    is a root span of that tracer, named as asked, with two fresh random
    IDs. *)
Theorem EnsureContext_spec (ctx : Context) (tracer : Tracer) (name : string)
    (w : World) :
  getLightstep cfg = None →
  ∃ ctx' fin w',
    EnsureContext cfg ctx tracer name w = Returned ((ctx', fin), w')
    ∧ is_Some (SpanFromContext ctx')
    ∧ otherValues ctx' = otherValues ctx
    ∧ match SpanFromContext ctx with
      | Some _ => ctx' = ctx ∧ fin = None ∧ w' = w
      | None =>
          fin = SpanFromContext ctx'
          ∧ if enableNetTrace cfg
            then ∃ s, fin = Some (RealSpan s)
                      ∧ s_tracer s = tracer ∧ s_operation s = name
                      ∧ s_parentSpanID s = 0%N
                      ∧ s_SpanID s = randSource w (randCalls w)
                      ∧ s_TraceID s = randSource w (S (randCalls w))
                      ∧ randCalls w' = S (S (randCalls w))
            else fin = Some (NoopSpanOf tracer) ∧ w' = w
      end.
Proof.
  intros Hls. unfold EnsureContext.
  destruct (SpanFromContext ctx) as [sp|] eqn:Hsp.
  { exists ctx, None, w. rewrite Hsp. by eauto. }
  unfold mbind, M_bind, mret, M_ret.
  rewrite (StartSpan_stages cfg tracer name [] w None eq_refl eq_refl), Hls.
  destruct (enableNetTrace cfg) eqn:Hnet; simpl.
  - eexists _, _, _. split; [reflexivity|].
    split; [by eauto|]. split; [done|]. split; [done|].
    eexists. split; [reflexivity|].
    match goal with |- context [decorate ?a ?b ?c ?d ?e ?f ?g] =>
      destruct (decorate_fields a b c d e f g)
        as (H1 & H2 & _ & _ & HT & HS & _ & HP & _) end.
    by rewrite H1, H2, HT, HS, HP.
  - eexists _, _, _. split; [reflexivity|]. by eauto.
Qed.

End Helpers.

(** *** The helpers on sample contexts *)

Lemma ForkCtxSpan_ChildSpan_witness :
  ForkCtxSpan feedOnly sampleContextOf sampleContext "task" sampleWorld
  = ChildSpan feedOnly sampleContextOf sampleContext "task" sampleWorld.
Proof. apply ForkCtxSpan_ChildSpan. reflexivity. Defined.

(** A child of the sample span, with the debug feed on. *)
Lemma helper_span_linked_witness :
  match ChildSpan feedOnly sampleContextOf sampleContext "task" sampleWorld with
  | Returned ((ctx', Some (RealSpan c)), _) =>
      SpanFromContext ctx' = Some (RealSpan c)
      ∧ otherValues ctx' = [("deadline", "5s")]
      ∧ s_tracer c = sampleTracer ∧ s_operation c = "task"
      ∧ s_TraceID c = 5%N ∧ s_parentSpanID c = 7%N
      ∧ s_Baggage c = {[ "user" := "42" ]}
  | _ => False
  end.
Proof.
  destruct (ChildSpan feedOnly sampleContextOf sampleContext "task" sampleWorld)
    as [[[ctx' [[t'|c]|]] w']|msg] eqn:E; try (vm_compute in E; discriminate).
  exact (proj2 (helper_span_linked feedOnly sampleContextOf sampleContext ctx' "task"
                  sampleWorld w' (RealSpan sampleSpan)
                  {| TraceID := 5; SpanID := 7; Baggage := {[ "user" := "42" ]};
                     recordingGroup := None; recordingType := NotRecording;
                     lightstep := None |} c eq_refl eq_refl (or_introl E))).
Defined.

(** A context without span, with every sink off. *)
Lemma EnsureContext_spec_witness :
  ∃ ctx' fin w',
    EnsureContext noSinks emptyContext sampleTracer "request" sampleWorld
    = Returned ((ctx', fin), w')
    ∧ is_Some (SpanFromContext ctx')
    ∧ fin = Some (NoopSpanOf sampleTracer) ∧ w' = sampleWorld.
Proof.
  destruct (EnsureContext_spec noSinks emptyContext sampleTracer "request"
              sampleWorld eq_refl)
    as (ctx' & fin & w' & H & Hsp & _ & _ & Hfin & Hw).
  exists ctx', fin, w'. done.
Defined.

End ContextExtras.
